(** * Justifi API (MVP): approval routing and workflow state machine

    A shallow embedding of [src/main.py] (the FastAPI handlers) and of the
    document shapes of [src/schemas.py], with the properties of the routing
    resolver and of the approval workflow proved over it.

    The handlers talk to a document store through the handle [db] and raise
    Python exceptions; here the store is an explicit value of type [DB]
    threaded through a state-and-exception monad [M], in which a raised
    exception keeps the writes made before it, as in the source. *)

From Stdlib Require Import Ascii QArith SpecFloat.
From stdpp Require Import gmap strings list fin_maps sorting.

Open Scope N_scope.

(** ** Object identifiers

    A [bson.ObjectId] holds a byte string. The identifiers the store hands
    out have twelve bytes, and [str(oid)] renders each byte as two lower-case
    hexadecimal digits. [ObjectId(s)] takes a text of exactly 24 characters
    and reads it with [bytes.fromhex], which wants two hexadecimal digits per
    byte and skips blanks between bytes: 24 digits give a 12-byte
    identifier, a text with blanks gives a shorter byte string, and anything
    else raises [InvalidId].

    An identifier is kept as a number. Twelve bytes are the number they
    spell, below [oid_bound]; a shorter byte string, which is the identifier
    of no document the store creates, is kept above [oid_bound], apart for
    each length. *)

Definition ObjectId := N.

(** Identifiers have 96 bits. *)
Definition oid_bound : N := 2 ^ 96.

Definition hex_digit (d : N) : ascii :=
  match d with
  | 0 => "0" | 1 => "1" | 2 => "2" | 3 => "3" | 4 => "4" | 5 => "5"
  | 6 => "6" | 7 => "7" | 8 => "8" | 9 => "9" | 10 => "a" | 11 => "b"
  | 12 => "c" | 13 => "d" | 14 => "e" | _ => "f"
  end%char.

Definition hex_value (c : ascii) : option N :=
  let n := N_of_ascii c in
  if (48 <=? n) && (n <=? 57) then Some (n - 48)
  else if (97 <=? n) && (n <=? 102) then Some (n - 87)
  else if (65 <=? n) && (n <=? 70) then Some (n - 55)
  else None.

Fixpoint to_hex (k : nat) (n : N) : list ascii :=
  match k with
  | O => []
  | S k' => to_hex k' (n / 16) ++ [hex_digit (n mod 16)]
  end.

(** The number a list of hexadecimal digits spells, when all are digits. *)
Definition of_hex_step (acc : option N) (c : ascii) : option N :=
  match acc, hex_value c with
  | Some a, Some v => Some (a * 16 + v)
  | _, _ => None
  end.

(** ASCII whitespace: the space and the characters 9 to 13. *)
Definition is_space (c : ascii) : bool :=
  let n := N_of_ascii c in
  (n =? 32) || ((9 <=? n) && (n <=? 13)).

(** [bytes.fromhex]: blanks are skipped in front of a byte, and a byte is two
    adjacent hexadecimal digits; [None] stands for its [ValueError]. *)
Fixpoint fromhex (l : list ascii) : option (list N) :=
  match l with
  | [] => Some []
  | c :: l' =>
      if is_space c then fromhex l'
      else
        match l' with
        | [] => None
        | c' :: l'' =>
            match hex_value c, hex_value c' with
            | Some top, Some bot => cons (top * 16 + bot) <$> fromhex l''
            | _, _ => None
            end
        end
  end.

(** The number a byte string spells, most significant byte first. *)
Definition be_value (bs : list N) : N := fold_left (λ a b, a * 256 + b) bs 0.

(** The identifier with the given bytes. *)
Definition ObjectId_of_binary (bs : list N) : ObjectId :=
  if (length bs =? 12)%nat then be_value bs
  else oid_bound + 256 ^ N.of_nat (length bs) + be_value bs.

(** [str(oid)]: two digits per byte, 24 digits for a 12-byte identifier. *)
Definition ObjectId_str (o : ObjectId) : string :=
  String.string_of_list_ascii
    (if o <? oid_bound then to_hex 24 o
     else to_hex (2 * N.to_nat (N.log2 (o - oid_bound) / 8)) (o - oid_bound)).

(** The text of a byte string: two lower-case digits per byte. *)
Definition hexlify (bs : list N) : list ascii :=
  mjoin ((λ b, [hex_digit (b / 16); hex_digit (b mod 16)]) <$> bs).

(** [ObjectId(s)]; [None] stands for the [InvalidId] exception. *)
Definition ObjectId_parse (s : string) : option ObjectId :=
  if (String.length s =? 24)%nat
  then ObjectId_of_binary <$> fromhex (String.list_ascii_of_string s)
  else None.

(** ** Values stored in documents *)

Definition datetime := Z.

(** The [Any] of [Dict[str, Any]]: a JSON value. *)
#[local] Unset Elimination Schemes.
Inductive json :=
| JNull
| JBool (b : bool)
| JNum (q : Q)
| JStr (s : string)
| JArr (l : list json)
| JObj (m : list (string * json)).
#[local] Set Elimination Schemes.

(** [None] becomes [null], a string stays a string. *)
Definition json_of_opt_str (o : option string) : json :=
  match o with Some s => JStr s | None => JNull end.

(** A Python [float]: an IEEE 754 double, with its zeros, infinities and
    NaN. *)
Definition float := spec_float.

(** The double nearest to an integer, ties to even; an infinity beyond the
    range of the doubles. *)
Definition float_of_Z (z : Z) : float := binary_normalize 53 1024 z 0 false.

(** A stored [spend_threshold] other than [None]. The resolver does one
    thing with it, [float(thr)], so it is kept by what [float] makes of it:
    an [int], which [float] rounds; a [float], or a value that [float] reads
    as that float (a bool, a numeric text); a text that [float] cannot read;
    a value of a type that [float] does not take (a list, a dict). Nothing
    validates the field when a rule is stored. *)
Inductive threshold :=
| ThrInt (z : Z)
| ThrFloat (f : float)
| ThrUnreadable
| ThrNotNumeric.

(** Python truthiness of a [str] and of an [Optional[str]]. *)
Definition truthy (s : string) : bool := negb (String.eqb s "").
Definition truthy_opt (o : option string) : bool :=
  match o with Some s => truthy s | None => false end.

(** ** Request payloads ([main.py], section Schemas) *)

Module JustificationCreate.
Record t := mk {
  title : string;
  type_code : string;
  department : string;
  cost_centre : string;
  requester_email : string;
  urgency : string;
  description : string;
  business_impact : option string;
  alternatives : option string;
  cost_estimate : option float;
  required_date : option string;
  dynamic_values : gmap string json;
  attachments : list (gmap string json)
}.
End JustificationCreate.

Module CommentCreate.
Record t := mk { author_email : string; message : string; is_internal : bool }.
End CommentCreate.

Module ApproverAction.
Record t := mk { actor_email : string; comment : option string }.
End ApproverAction.

Module RequestInfoAction.
Record t := mk { actor_email : string; reason : string }.
End RequestInfoAction.

Module ResubmitPayload.
Record t := mk { actor_email : string; message : option string }.
End ResubmitPayload.

(** ** Stored documents ([schemas.py] and the dict literals of [main.py]) *)

Module Justification.
(** [payload.model_dump()] extended with the status and the two timestamps. *)
Record t := mk {
  _id : ObjectId;
  data : JustificationCreate.t;
  status : string;
  created_at : datetime;
  updated_at : datetime
}.
Definition set_status (s : string) (now : datetime) (j : t) : t :=
  {| _id := _id j; data := data j; status := s;
     created_at := created_at j; updated_at := now |}.
End Justification.

Module RoutingRule.
Record t := mk {
  _id : ObjectId;
  name : string;
  department : option string;
  type_code : option string;
  spend_threshold : option threshold;
  approver_emails : list string
}.
End RoutingRule.

Module ApprovalTask.
Record t := mk {
  _id : ObjectId;
  justification_id : string;
  approver_email : string;
  step_index : nat;
  status : string;
  requested_more_info : option string;
  created_at : datetime;
  updated_at : option datetime
}.
Definition set_status (s : string) (now : datetime) (x : t) : t :=
  {| _id := _id x; justification_id := justification_id x;
     approver_email := approver_email x; step_index := step_index x;
     status := s; requested_more_info := requested_more_info x;
     created_at := created_at x; updated_at := Some now |}.
Definition set_needs_info (s reason : string) (now : datetime) (x : t) : t :=
  {| _id := _id x; justification_id := justification_id x;
     approver_email := approver_email x; step_index := step_index x;
     status := s; requested_more_info := Some reason;
     created_at := created_at x; updated_at := Some now |}.
End ApprovalTask.

Module Comment.
Record t := mk {
  _id : ObjectId;
  justification_id : string;
  author_email : string;
  message : string;
  is_internal : bool;
  created_at : datetime
}.
End Comment.

Module AuditLog.
Record t := mk {
  _id : ObjectId;
  entity : string;
  entity_id : string;
  action : string;
  actor_email : string;
  details : gmap string json;
  timestamp : datetime
}.
End AuditLog.

Module EmailOutbox.
Record t := mk {
  _id : ObjectId;
  to : list string;
  subject : string;
  html : string;
  created_at : datetime
}.
End EmailOutbox.

(** ** The document store

    One list per collection, in insertion order (the order in which a cursor
    yields the documents), and the supply of fresh identifiers. *)

Record DB := mkDB {
  justification : list Justification.t;
  approvaltask : list ApprovalTask.t;
  comment : list Comment.t;
  auditlog : list AuditLog.t;
  emailoutbox : list EmailOutbox.t;
  routingrule : list RoutingRule.t;
  next_oid : N
}.

(** A collection handle [db[name]]: how to read and replace its documents. *)
Record collection (A : Type) := Collection {
  docs : DB → list A;
  set_docs : list A → DB → DB
}.
Arguments docs {A} _ _.
Arguments set_docs {A} _ _ _.

Definition db_justification : collection Justification.t :=
  Collection _ justification
    (λ l d, mkDB l (approvaltask d) (comment d) (auditlog d) (emailoutbox d)
                 (routingrule d) (next_oid d)).
Definition db_approvaltask : collection ApprovalTask.t :=
  Collection _ approvaltask
    (λ l d, mkDB (justification d) l (comment d) (auditlog d) (emailoutbox d)
                 (routingrule d) (next_oid d)).
Definition db_comment : collection Comment.t :=
  Collection _ comment
    (λ l d, mkDB (justification d) (approvaltask d) l (auditlog d) (emailoutbox d)
                 (routingrule d) (next_oid d)).
Definition db_auditlog : collection AuditLog.t :=
  Collection _ auditlog
    (λ l d, mkDB (justification d) (approvaltask d) (comment d) l (emailoutbox d)
                 (routingrule d) (next_oid d)).
Definition db_emailoutbox : collection EmailOutbox.t :=
  Collection _ emailoutbox
    (λ l d, mkDB (justification d) (approvaltask d) (comment d) (auditlog d) l
                 (routingrule d) (next_oid d)).
Definition db_routingrule : collection RoutingRule.t :=
  Collection _ routingrule
    (λ l d, mkDB (justification d) (approvaltask d) (comment d) (auditlog d)
                 (emailoutbox d) l (next_oid d)).

Definition bump_oid (d : DB) : DB :=
  mkDB (justification d) (approvaltask d) (comment d) (auditlog d)
       (emailoutbox d) (routingrule d) (N.succ (next_oid d)).

(** ** Exceptions and the handler monad *)

Inductive exn :=
| HTTPException (status_code : nat) (detail : string)
| InvalidId          (* bson.errors.InvalidId, from [ObjectId(s)] *)
| AttributeError     (* [just.get] on [None] *)
| RequestValidationError (errors : list string) (* the 422 of a rejected body *)
| ValueError         (* [float] of a text it cannot read *)
| TypeError          (* [float] of a value that is no number and no text *)
| OverflowError.     (* [float] of an int beyond the doubles *)

Inductive result (A : Type) :=
| Ok (a : A)
| Raise (e : exn).
Arguments Ok {A} _.
Arguments Raise {A} _.

Definition M (A : Type) : Type := DB → DB * result A.

Definition ret {A} (a : A) : M A := λ d, (d, Ok a).
Definition raise {A} (e : exn) : M A := λ d, (d, Raise e).
Definition bind {A B} (m : M A) (k : A → M B) : M B :=
  λ d, match m d with
       | (d', Ok a) => k a d'
       | (d', Raise e) => (d', Raise e)
       end.

#[global] Instance M_ret : MRet M := @ret.
#[global] Instance M_bind : MBind M := λ A B k m, bind m k.
#[global] Instance M_throw : MThrow exn M := @raise.

(** ** Store primitives

    The five operations the handlers use on a collection, and the fresh
    identifier of an insert. A query is a decidable predicate on documents. *)

Section primitives.
Context {A : Type} (c : collection A).
Context (P : A → Prop) `{!∀ x, Decision (P x)}.

(** Modelled from the spec: [find] of the store handle [db] of
    [database.py] ("find-with-filter"): the matching documents in the
    store's iteration order. *)
Definition find : M (list A) := λ d, (d, Ok (filter P (docs c d))).

(** Modelled from the spec: [find_one] of the store handle [db] of
    [database.py]: the first matching document, if any. *)
Definition find_one : M (option A) := λ d, (d, Ok (head (filter P (docs c d)))).

(** Modelled from the spec: [count_documents] of the store handle [db] of
    [database.py] ("count-with-filter"). *)
Definition count_documents : M nat := λ d, (d, Ok (length (filter P (docs c d)))).

Fixpoint update_first (f : A → A) (l : list A) : list A :=
  match l with
  | [] => []
  | x :: l' => if decide (P x) then f x :: l' else x :: update_first f l'
  end.

Definition update_all (f : A → A) (l : list A) : list A :=
  (λ x, if decide (P x) then f x else x) <$> l.

(** Modelled from the spec: [update_one] of the store handle [db] of
    [database.py] ("update-one(+filter)"): the first matching document is
    changed, nothing happens when there is none. *)
Definition update_one (f : A → A) : M unit :=
  λ d, (set_docs c (update_first f (docs c d)) d, Ok ()).

(** Modelled from the spec: [update_many] of the store handle [db] of
    [database.py] ("update-many(+filter)"): every matching document is
    changed. *)
Definition update_many (f : A → A) : M unit :=
  λ d, (set_docs c (update_all f (docs c d)) d, Ok ()).
End primitives.

(** Modelled from the spec: [insert_one] of the store handle [db] of
    [database.py] ("insert-one" with "generate a fresh unique identifier on
    insert"): the document is appended under the next identifier of the
    supply, which is returned as [inserted_id]. *)
Definition insert_one {A} (c : collection A) (doc : ObjectId → A) : M ObjectId :=
  λ d, let o := next_oid d in
       (bump_oid (set_docs c (docs c d ++ [doc o]) d), Ok o).

(** [ObjectId(s)] inside a handler. *)
Definition ObjectId_of (s : string) : M ObjectId :=
  match ObjectId_parse s with
  | Some o => mret o
  | None => mthrow InvalidId
  end.

(** ** Routing selection *)

(** A filter dict of [select_routing_rule]: field name and required value. *)
Definition query := list (string * string).

Definition rule_field (k : string) (r : RoutingRule.t) : option string :=
  if decide (k = "department") then RoutingRule.department r
  else if decide (k = "type_code") then RoutingRule.type_code r
  else None.

(** Equality match of every field of the filter; [{}] matches every rule. *)
Definition matches (c : query) (r : RoutingRule.t) : Prop :=
  Forall (λ kv, rule_field kv.1 r = Some kv.2) c.

#[global] Instance matches_dec c r : Decision (matches c r).
Proof. unfold matches. apply _. Defined.

Definition candidates (department type_code : string) : list query :=
  (if truthy department && truthy type_code
   then [[("department", department); ("type_code", type_code)]] else [])
  ++ (if truthy type_code then [[("type_code", type_code)]] else [])
  ++ (if truthy department then [[("department", department)]] else [])
  ++ [[]].

(** [float(thr)] *)
Definition py_float (thr : threshold) : result float :=
  match thr with
  | ThrInt z =>
      match float_of_Z z with
      | S754_infinity _ => Raise OverflowError
      | f => Ok f
      end
  | ThrFloat f => Ok f
  | ThrUnreadable => Raise ValueError
  | ThrNotNumeric => Raise TypeError
  end.

(** [spend or 0]: [None] and a zero are falsy. *)
Definition spend_or_0 (spend : option float) : float :=
  match spend with
  | None | Some (S754_zero _) => S754_zero false
  | Some f => f
  end.

(** [thr is None or (spend or 0) >= float(thr)]; a comparison with NaN is
    false. *)
Definition threshold_ok (spend : option float) (rule : RoutingRule.t) : result bool :=
  match RoutingRule.spend_threshold rule with
  | None => Ok true
  | Some thr =>
      match py_float thr with
      | Ok f => Ok (SFleb f (spend_or_0 spend))
      | Raise e => Raise e
      end
  end.

(** The inner loop [for rule in cur]. *)
Fixpoint scan_cursor (spend : option float) (cur : list RoutingRule.t)
  : result (option RoutingRule.t) :=
  match cur with
  | [] => Ok None
  | rule :: cur' =>
      match threshold_ok spend rule with
      | Ok true => Ok (Some rule)
      | Ok false => scan_cursor spend cur'
      | Raise e => Raise e
      end
  end.

(** The outer loop [for c in candidates]. *)
Fixpoint scan_candidates (spend : option float) (cs : list query)
  : M (option RoutingRule.t) :=
  match cs with
  | [] => mret None
  | c :: cs' =>
      cur ← find db_routingrule (matches c);
      match scan_cursor spend cur with
      | Ok (Some rule) => mret (Some rule)
      | Ok None => scan_candidates spend cs'
      | Raise e => mthrow e
      end
  end.

Definition select_routing_rule (department type_code : string) (spend : option float)
  : M (option RoutingRule.t) :=
  scan_candidates spend (candidates department type_code).

(** ** Audit helper and email stub *)

Definition log_audit (now : datetime) (entity entity_id action actor : string)
    (details : gmap string json) : M unit :=
  insert_one db_auditlog
    (λ o, AuditLog.mk o entity entity_id action actor details now);;
  mret ().

Definition send_email_stub (now : datetime) (to : list string)
    (subject html : string) : M unit :=
  insert_one db_emailoutbox (λ o, EmailOutbox.mk o to subject html now);;
  mret ().

(** ** Routes

    Every handler takes the reading [now] of the clock; the timestamps it
    writes play no part in the control flow. *)

Definition ok_response : gmap string json := {[ "ok" := JBool true ]}.
Definition id_response (s : string) : gmap string json := {[ "id" := JStr s ]}.

(** The loop [for idx, email in enumerate(approvers)], from index [idx]. *)
Fixpoint insert_tasks (now : datetime) (jid_str : string) (idx : nat)
    (approvers : list string) : M unit :=
  match approvers with
  | [] => mret ()
  | email :: rest =>
      insert_one db_approvaltask
        (λ o, ApprovalTask.mk o jid_str email idx "Pending" None now None);;
      insert_tasks now jid_str (S idx) rest
  end.

(** [[a for a in rule["approver_emails"] if a]] when there is a rule with a
    non-empty list, [[]] otherwise. *)
Definition resolved_approvers (rule : option RoutingRule.t) : list string :=
  match rule with
  | Some r => List.filter truthy (RoutingRule.approver_emails r)
  | None => []
  end.

Definition create_justification (now : datetime) (payload : JustificationCreate.t)
  : M (gmap string json) :=
  jid ← insert_one db_justification
           (λ o, Justification.mk o payload "PendingApproval" now now);
  let jid_str := ObjectId_str jid in
  rule ← select_routing_rule (JustificationCreate.department payload)
           (JustificationCreate.type_code payload)
           (JustificationCreate.cost_estimate payload);
  let approvers := resolved_approvers rule in
  insert_tasks now jid_str 0 approvers;;
  (match approvers with
   | [] => mret ()
   | _ :: _ =>
       send_email_stub now approvers "New approval request"
         ("Justification " +:+ JustificationCreate.title payload
            +:+ " requires your approval.")
   end);;
  send_email_stub now [JustificationCreate.requester_email payload]
    "Submission received"
    ("Your justification '" +:+ JustificationCreate.title payload
       +:+ "' has been submitted.");;
  log_audit now "justification" jid_str "CREATE"
    (JustificationCreate.requester_email payload)
    {[ "title" := JStr (JustificationCreate.title payload) ]};;
  mret (id_response jid_str).

(** [sorted(..., key)] / [.sort(field, 1)]: a stable ascending sort. *)
Fixpoint insert_by {A} (key : A → Z) (x : A) (l : list A) : list A :=
  match l with
  | [] => [x]
  | y :: l' => if (key x <=? key y)%Z then x :: y :: l' else y :: insert_by key x l'
  end.

Definition sort_by {A} (key : A → Z) (l : list A) : list A :=
  foldr (insert_by key) [] l.

(** The document returned by [get_justification], before [serialize_id]
    renames [_id] and prints the dates. *)
Record JustificationDetail := mkDetail {
  detail_justification : Justification.t;
  approval_tasks : list ApprovalTask.t;
  comments : list Comment.t;
  audit : list AuditLog.t
}.

Definition get_justification (jid : string) : M JustificationDetail :=
  oid ← ObjectId_of jid;
  doc ← find_one db_justification (λ j, Justification._id j = oid);
  match doc with
  | None => mthrow (HTTPException 404 "Not found")
  | Some just =>
      tasks ← find db_approvaltask (λ t, ApprovalTask.justification_id t = jid);
      cs ← find db_comment (λ c, Comment.justification_id c = jid);
      audits ← find db_auditlog
                 (λ a, AuditLog.entity a = "justification" ∧ AuditLog.entity_id a = jid);
      mret (mkDetail just
              (sort_by (λ t, Z.of_nat (ApprovalTask.step_index t)) tasks)
              (sort_by Comment.created_at cs)
              (sort_by AuditLog.timestamp audits))
  end.

Definition approve_task (now : datetime) (task_id : string) (action : ApproverAction.t)
  : M (gmap string json) :=
  oid ← ObjectId_of task_id;
  task ← find_one db_approvaltask (λ t, ApprovalTask._id t = oid);
  match task with
  | None => mthrow (HTTPException 404 "Task not found")
  | Some task =>
      let jid := ApprovalTask.justification_id task in
      update_one db_approvaltask (λ t, ApprovalTask._id t = ApprovalTask._id task)
        (ApprovalTask.set_status "Approved" now);;
      log_audit now "justification" jid "APPROVE" (ApproverAction.actor_email action)
        (<[ "task_id" := JStr task_id ]>
           {[ "comment" := json_of_opt_str (ApproverAction.comment action) ]});;
      remaining ← count_documents db_approvaltask
                    (λ t, ApprovalTask.justification_id t = jid
                          ∧ ApprovalTask.status t ≠ "Approved");
      (if decide (remaining = 0%nat) then
         joid ← ObjectId_of jid;
         update_one db_justification (λ j, Justification._id j = joid)
           (Justification.set_status "Approved" now);;
         joid ← ObjectId_of jid;
         just ← find_one db_justification (λ j, Justification._id j = joid);
         match just with
         | None => mthrow AttributeError
         | Some just =>
             send_email_stub now
               [JustificationCreate.requester_email (Justification.data just)]
               "Final approval"
               ("Your justification '"
                  +:+ JustificationCreate.title (Justification.data just)
                  +:+ "' is approved.")
         end
       else mret ());;
      mret ok_response
  end.

Definition reject_task (now : datetime) (task_id : string) (action : ApproverAction.t)
  : M (gmap string json) :=
  if negb (truthy_opt (ApproverAction.comment action)) then
    mthrow (HTTPException 400 "Rejection requires a reason in comment")
  else
    let comment := default "" (ApproverAction.comment action) in
    oid ← ObjectId_of task_id;
    task ← find_one db_approvaltask (λ t, ApprovalTask._id t = oid);
    match task with
    | None => mthrow (HTTPException 404 "Task not found")
    | Some task =>
        let jid := ApprovalTask.justification_id task in
        update_one db_approvaltask (λ t, ApprovalTask._id t = ApprovalTask._id task)
          (ApprovalTask.set_status "Rejected" now);;
        joid ← ObjectId_of jid;
        update_one db_justification (λ j, Justification._id j = joid)
          (Justification.set_status "Rejected" now);;
        log_audit now "justification" jid "REJECT" (ApproverAction.actor_email action)
          (<[ "task_id" := JStr task_id ]>
             {[ "comment" := json_of_opt_str (ApproverAction.comment action) ]});;
        joid ← ObjectId_of jid;
        just ← find_one db_justification (λ j, Justification._id j = joid);
        match just with
        | None => mthrow AttributeError
        | Some just =>
            send_email_stub now
              [JustificationCreate.requester_email (Justification.data just)]
              "Rejected"
              ("Your justification '"
                 +:+ JustificationCreate.title (Justification.data just)
                 +:+ "' was rejected. Reason: " +:+ comment);;
            mret ok_response
        end
    end.

Definition request_info (now : datetime) (task_id : string)
    (action : RequestInfoAction.t) : M (gmap string json) :=
  oid ← ObjectId_of task_id;
  task ← find_one db_approvaltask (λ t, ApprovalTask._id t = oid);
  match task with
  | None => mthrow (HTTPException 404 "Task not found")
  | Some task =>
      let jid := ApprovalTask.justification_id task in
      update_one db_approvaltask (λ t, ApprovalTask._id t = ApprovalTask._id task)
        (ApprovalTask.set_needs_info "NeedsMoreInfo"
           (RequestInfoAction.reason action) now);;
      joid ← ObjectId_of jid;
      update_one db_justification (λ j, Justification._id j = joid)
        (Justification.set_status "NeedsMoreInfo" now);;
      joid ← ObjectId_of jid;
      just ← find_one db_justification (λ j, Justification._id j = joid);
      match just with
      | None => mthrow AttributeError
      | Some just =>
          send_email_stub now
            [JustificationCreate.requester_email (Justification.data just)]
            "More information requested"
            ("Approver requested more info: " +:+ RequestInfoAction.reason action);;
          log_audit now "justification" jid "REQUEST_INFO"
            (RequestInfoAction.actor_email action)
            (<[ "task_id" := JStr task_id ]>
               {[ "reason" := JStr (RequestInfoAction.reason action) ]});;
          mret ok_response
      end
  end.

Definition resubmit (now : datetime) (jid : string) (payload : ResubmitPayload.t)
  : M (gmap string json) :=
  oid ← ObjectId_of jid;
  just ← find_one db_justification (λ j, Justification._id j = oid);
  match just with
  | None => mthrow (HTTPException 404 "Not found")
  | Some just =>
      update_one db_justification (λ j, Justification._id j = Justification._id just)
        (Justification.set_status "PendingApproval" now);;
      update_many db_approvaltask
        (λ t, ApprovalTask.justification_id t = jid
              ∧ ApprovalTask.status t = "NeedsMoreInfo")
        (ApprovalTask.set_status "Pending" now);;
      log_audit now "justification" jid "RESUBMIT" (ResubmitPayload.actor_email payload)
        {[ "message" := json_of_opt_str (ResubmitPayload.message payload) ]};;
      send_email_stub now [ResubmitPayload.actor_email payload] "Resubmitted"
        "Your justification was resubmitted.";;
      mret ok_response
  end.

Definition add_comment (now : datetime) (jid : string) (payload : CommentCreate.t)
  : M (gmap string json) :=
  oid ← ObjectId_of jid;
  just ← find_one db_justification (λ j, Justification._id j = oid);
  match just with
  | None => mthrow (HTTPException 404 "Justification not found")
  | Some _ =>
      cid ← insert_one db_comment
               (λ o, Comment.mk o jid (CommentCreate.author_email payload)
                       (CommentCreate.message payload)
                       (CommentCreate.is_internal payload) now);
      log_audit now "justification" jid "COMMENT" (CommentCreate.author_email payload)
        {[ "comment_id" := JStr (ObjectId_str cid) ]};;
      mret (id_response (ObjectId_str cid))
  end.

(** ** Body validation of the request-info route

    [RequestInfoAction] declares [actor_email: str] and [reason: str] without
    defaults: a body that lacks one of them, or gives something that is not a
    string, is refused before [request_info] runs. *)

Definition body_str (body : gmap string json) (k : string) : option string :=
  match body !! k with
  | Some (JStr s) => Some s
  | _ => None
  end.

Definition RequestInfoAction_validate (body : gmap string json)
  : result RequestInfoAction.t :=
  match body_str body "actor_email", body_str body "reason" with
  | Some a, Some r => Ok (RequestInfoAction.mk a r)
  | None, Some _ => Raise (RequestValidationError ["actor_email"])
  | Some _, None => Raise (RequestValidationError ["reason"])
  | None, None => Raise (RequestValidationError ["actor_email"; "reason"])
  end.

(** The route [POST /api/approvals/{task_id}/request-info] as the framework
    runs it: validate the body, then call the handler. *)
Definition request_info_route (now : datetime) (task_id : string)
    (body : gmap string json) : M (gmap string json) :=
  match RequestInfoAction_validate body with
  | Ok action => request_info now task_id action
  | Raise e => mthrow e
  end.

(** ** Reading a run of a handler *)

(** What [find_one({"_id": o})] sees in the two workflow collections. *)
Definition stored_task (d : DB) (o : ObjectId) : option ApprovalTask.t :=
  head (filter (λ t, ApprovalTask._id t = o) (approvaltask d)).

Definition stored_justification (d : DB) (o : ObjectId) : option Justification.t :=
  head (filter (λ j, Justification._id j = o) (justification d)).

(** The tasks that [count_documents] counts in [approve_task]: those of the
    justification [jid] whose status is not [Approved]. *)
Definition remaining_tasks (jid : string) (l : list ApprovalTask.t) : list ApprovalTask.t :=
  filter (λ t, ApprovalTask.justification_id t = jid
               ∧ ApprovalTask.status t ≠ "Approved") l.

(** A series of approve calls, each with its own clock reading, task
    identifier and body, run one after the other on the same store. *)
Fixpoint approve_seq (calls : list (datetime * string * ApproverAction.t)) (d : DB)
  : DB * list (result (gmap string json)) :=
  match calls with
  | [] => (d, [])
  | (now, task_id, action) :: rest =>
      let (d1, r) := approve_task now task_id action d in
      let (d2, rs) := approve_seq rest d1 in
      (d2, r :: rs)
  end.

(** The final-approval message of [approve_task]. *)
Definition final_approval_email (o : ObjectId) (now : datetime) (just : Justification.t)
  : EmailOutbox.t :=
  EmailOutbox.mk o [JustificationCreate.requester_email (Justification.data just)]
    "Final approval"
    ("Your justification '" +:+ JustificationCreate.title (Justification.data just)
       +:+ "' is approved.")
    now.

Definition approve_audit (o : ObjectId) (now : datetime) (jid task_id : string)
    (action : ApproverAction.t) : AuditLog.t :=
  AuditLog.mk o "justification" jid "APPROVE" (ApproverAction.actor_email action)
    (<[ "task_id" := JStr task_id ]>
       {[ "comment" := json_of_opt_str (ApproverAction.comment action) ]})
    now.

(** How the tasks of a store may differ after a series of approvals: same
    documents in the same places, with statuses that only move to [Approved]. *)
Definition task_approved_later (t t' : ApprovalTask.t) : Prop :=
  ApprovalTask._id t' = ApprovalTask._id t
  ∧ ApprovalTask.justification_id t' = ApprovalTask.justification_id t
  ∧ (ApprovalTask.status t = "Approved" → ApprovalTask.status t' = "Approved").

(** The call addresses a stored task of the justification [jid]. *)
Definition call_targets (jid : string) (d : DB)
    (call : datetime * string * ApproverAction.t) : Prop :=
  ∃ o t, ObjectId_parse call.1.2 = Some o ∧ stored_task d o = Some t
         ∧ ApprovalTask.justification_id t = jid.

(** The task addressed by the call is stored with status [Approved]. *)
Definition call_approved (d : DB) (call : datetime * string * ApproverAction.t) : Prop :=
  ∃ o t, ObjectId_parse call.1.2 = Some o ∧ stored_task d o = Some t
         ∧ ApprovalTask.status t = "Approved".

(** The messages and audit entries of the other task routes. *)
Definition reject_audit (o : ObjectId) (now : datetime) (jid task_id : string)
    (action : ApproverAction.t) : AuditLog.t :=
  AuditLog.mk o "justification" jid "REJECT" (ApproverAction.actor_email action)
    (<[ "task_id" := JStr task_id ]>
       {[ "comment" := json_of_opt_str (ApproverAction.comment action) ]})
    now.

Definition rejected_email (o : ObjectId) (now : datetime) (just : Justification.t)
    (reason : string) : EmailOutbox.t :=
  EmailOutbox.mk o [JustificationCreate.requester_email (Justification.data just)]
    "Rejected"
    ("Your justification '" +:+ JustificationCreate.title (Justification.data just)
       +:+ "' was rejected. Reason: " +:+ reason)
    now.

Definition request_info_audit (o : ObjectId) (now : datetime) (jid task_id : string)
    (action : RequestInfoAction.t) : AuditLog.t :=
  AuditLog.mk o "justification" jid "REQUEST_INFO" (RequestInfoAction.actor_email action)
    (<[ "task_id" := JStr task_id ]>
       {[ "reason" := JStr (RequestInfoAction.reason action) ]})
    now.

Definition more_info_email (o : ObjectId) (now : datetime) (just : Justification.t)
    (reason : string) : EmailOutbox.t :=
  EmailOutbox.mk o [JustificationCreate.requester_email (Justification.data just)]
    "More information requested"
    ("Approver requested more info: " +:+ reason)
    now.

Definition resubmit_audit (o : ObjectId) (now : datetime) (jid : string)
    (payload : ResubmitPayload.t) : AuditLog.t :=
  AuditLog.mk o "justification" jid "RESUBMIT" (ResubmitPayload.actor_email payload)
    {[ "message" := json_of_opt_str (ResubmitPayload.message payload) ]}
    now.

Definition resubmitted_email (o : ObjectId) (now : datetime)
    (payload : ResubmitPayload.t) : EmailOutbox.t :=
  EmailOutbox.mk o [ResubmitPayload.actor_email payload] "Resubmitted"
    "Your justification was resubmitted." now.

(** ** Reading a submission *)

(** What [scan_candidates] returns or raises on a store with the given
    rules. *)
Fixpoint scan_tiers (rules : list RoutingRule.t) (spend : option float) (cs : list query)
  : result (option RoutingRule.t) :=
  match cs with
  | [] => Ok None
  | c :: cs' =>
      match scan_cursor spend (filter (matches c) rules) with
      | Ok (Some rule) => Ok (Some rule)
      | Ok None => scan_tiers rules spend cs'
      | Raise e => Raise e
      end
  end.

(** The documents [insert_tasks] appends when the identifier supply is at [o]. *)
Fixpoint new_tasks (now : datetime) (jid_str : string) (idx : nat) (o : ObjectId)
    (approvers : list string) : list ApprovalTask.t :=
  match approvers with
  | [] => []
  | email :: rest =>
      ApprovalTask.mk o jid_str email idx "Pending" None now None
        :: new_tasks now jid_str (S idx) (N.succ o) rest
  end.

(** The two messages and the audit entry of a submission. *)
Definition approvers_email (o : ObjectId) (now : datetime) (approvers : list string)
    (payload : JustificationCreate.t) : EmailOutbox.t :=
  EmailOutbox.mk o approvers "New approval request"
    ("Justification " +:+ JustificationCreate.title payload
       +:+ " requires your approval.")
    now.

Definition receipt_email (o : ObjectId) (now : datetime)
    (payload : JustificationCreate.t) : EmailOutbox.t :=
  EmailOutbox.mk o [JustificationCreate.requester_email payload] "Submission received"
    ("Your justification '" +:+ JustificationCreate.title payload
       +:+ "' has been submitted.")
    now.

Definition create_audit (o : ObjectId) (now : datetime) (jid_str : string)
    (payload : JustificationCreate.t) : AuditLog.t :=
  AuditLog.mk o "justification" jid_str "CREATE"
    (JustificationCreate.requester_email payload)
    {[ "title" := JStr (JustificationCreate.title payload) ]}
    now.

(** ** The resolver in the words of the specification

    Four filter tiers, most specific first (section 4.1); within a tier the
    stored rules that match the filter, in store order; a rule is taken when
    it has no spend threshold or the estimate, 0 when absent, reaches it; the
    first rule taken across the tiers is the answer. The threshold that is
    compared is the double [float] makes of the stored value, and the scan
    ends at the first stored value [float] refuses. *)

(** The double of the estimate, 0 when absent, is at least the double of the
    threshold. *)
Definition float_reaches (estimate : option float) (thr : float) : Prop :=
  SFcompare thr (spend_or_0 estimate) = Some Lt
  ∨ SFcompare thr (spend_or_0 estimate) = Some Eq.

Definition threshold_met (estimate : option float) (rule : RoutingRule.t) : Prop :=
  match RoutingRule.spend_threshold rule with
  | None => True
  | Some thr => ∃ f, py_float thr = Ok f ∧ float_reaches estimate f
  end.

(** The exception [float] raises on the threshold of a rule, if it does. *)
Definition threshold_error (rule : RoutingRule.t) : option exn :=
  match RoutingRule.spend_threshold rule with
  | None => None
  | Some thr => match py_float thr with Ok _ => None | Raise e => Some e end
  end.

(** A scan goes no further than a rule that is taken or whose threshold
    [float] refuses. *)
Definition ends_scan (estimate : option float) (rule : RoutingRule.t) : Prop :=
  threshold_met estimate rule ∨ is_Some (threshold_error rule).

#[global] Instance float_reaches_dec estimate thr : Decision (float_reaches estimate thr).
Proof. unfold float_reaches. apply _. Defined.

#[global] Instance threshold_met_dec estimate rule : Decision (threshold_met estimate rule).
Proof.
  unfold threshold_met. destruct (RoutingRule.spend_threshold rule) as [thr|]; [|apply _].
  destruct (py_float thr) as [f|e].
  - destruct (decide (float_reaches estimate f)) as [Y|N].
    + left. by exists f.
    + right. by intros (f' & [= <-] & ?).
  - right. by intros (f' & [=] & _).
Defined.

#[global] Instance ends_scan_dec estimate rule : Decision (ends_scan estimate rule).
Proof. unfold ends_scan. apply _. Defined.

(** The answer of a scan that meets the given rules in the given order. *)
Definition first_match (estimate : option float) (l : list RoutingRule.t)
  : result (option RoutingRule.t) :=
  match head (filter (ends_scan estimate) l) with
  | None => Ok None
  | Some rule =>
      match threshold_error rule with
      | Some e => Raise e
      | None => Ok (Some rule)
      end
  end.

Definition four_tiers (department type_code : string) : list query :=
  [ [("department", department); ("type_code", type_code)];
    [("type_code", type_code)];
    [("department", department)];
    [] ].

(** The rules a scan of the given tiers meets, in the order it meets them. *)
Definition tier_scan (rules : list RoutingRule.t) (tiers : list query)
  : list RoutingRule.t :=
  mjoin ((λ c, filter (matches c) rules) <$> tiers).

Definition spec_resolve (rules : list RoutingRule.t) (department type_code : string)
    (estimate : option float) : option RoutingRule.t :=
  head (filter (threshold_met estimate) (tier_scan rules (four_tiers department type_code))).

(** ** A worked scenario

    The submission of section 8 of the specification: one rule for
    department [Eng] and type [CAPEX] above 1000 with approvers [a@x] and
    [b@x], and a request of 5000. *)

Definition example_rule : RoutingRule.t :=
  RoutingRule.mk 0 "capex-eng" (Some "Eng") (Some "CAPEX") (Some (ThrInt 1000)) ["a@x"; "b@x"].

Definition example_store : DB := mkDB [] [] [] [] [] [example_rule] 1.

Definition example_payload : JustificationCreate.t :=
  JustificationCreate.mk "Lathe" "CAPEX" "Eng" "cc-1" "req@x" "high" "a new lathe"
    None None (Some (float_of_Z 5000)) None ∅ [].

(** After the submission: justification 1 with tasks 2 ([a@x]) and 3 ([b@x]). *)
Definition example_submitted : DB :=
  (create_justification 7%Z example_payload example_store).1.

Definition example_jid : string := ObjectId_str 1.
Definition example_task_a : string := ObjectId_str 2.
Definition example_task_b : string := ObjectId_str 3.

(** [b@x] approves, then [a@x] rejects: the justification is [Rejected]. *)
Definition example_rejected : DB :=
  (reject_task 9%Z example_task_a (ApproverAction.mk "a@x" (Some "too dear"))
     (approve_task 8%Z example_task_b (ApproverAction.mk "b@x" None)
        example_submitted).1).1.

(** [a@x] asks for more information on the fresh submission. *)
Definition example_needs_info : DB :=
  (request_info 8%Z example_task_a (RequestInfoAction.mk "a@x" "which model?")
     example_submitted).1.

(** Three rules of decreasing specificity, stored least specific first. *)
Definition rule_any : RoutingRule.t :=
  RoutingRule.mk 10 "default" None None None ["cfo@x"].
Definition rule_capex : RoutingRule.t :=
  RoutingRule.mk 11 "capex" None (Some "CAPEX") None ["fin@x"].
Definition rule_eng_capex (thr : Z) : RoutingRule.t :=
  RoutingRule.mk 12 "capex-eng" (Some "Eng") (Some "CAPEX") (Some (ThrInt thr)) ["a@x"; "b@x"].

Definition tiebreak_store (thr : Z) : DB :=
  mkDB [] [] [] [] [] [rule_any; rule_capex; rule_eng_capex thr] 13.

(** The worked scenario in a store whose identifiers start at 10, so that
    their texts have a letter: justification [...0a] with tasks [...0b] of
    [a@x] and [...0c] of [b@x]; then [a@x] asks for more information. *)
Definition lettered_store : DB := mkDB [] [] [] [] [] [example_rule] 10.

Definition lettered_submitted : DB :=
  (create_justification 7%Z example_payload lettered_store).1.

Definition lettered_needs_info : DB :=
  (request_info 8%Z (ObjectId_str 11) (RequestInfoAction.mk "a@x" "which model?")
     lettered_submitted).1.

(** A rule whose threshold is a text that [float] cannot read, stored in
    front of a catch-all. *)
Definition rule_unreadable : RoutingRule.t :=
  RoutingRule.mk 16 "typo" (Some "Eng") (Some "CAPEX") (Some ThrUnreadable) ["a@x"].

Definition unreadable_store : DB :=
  mkDB [] [] [] [] [] [rule_unreadable; rule_any] 17.

(** A store, not one the routes produce, whose only task refers to its
    justification by 24 characters that spell eight bytes. *)
Definition blank_padded_task : ApprovalTask.t :=
  ApprovalTask.mk 1 "00 00 00 00 00 00 00 00 " "a@x" 0 "Pending" None 7%Z None.

Definition blank_padded_store : DB :=
  mkDB [Justification.mk 0 example_payload "PendingApproval" 7%Z 7%Z]
    [blank_padded_task] [] [] [] [] 2.

(** A rule whose department is the empty string, stored after a catch-all. *)
Definition rule_blank_department : RoutingRule.t :=
  RoutingRule.mk 14 "blank" (Some "") None None ["ops@x"].

Definition blank_store : DB :=
  mkDB [] [] [] [] [] [rule_any; rule_blank_department] 15.

(** ** The stores the routes produce

    The requests of the workflow routes, and the store each leaves behind,
    whether it answers or raises. *)

Inductive request :=
| CreateJustification (now : datetime) (payload : JustificationCreate.t)
| GetJustification (jid : string)
| ApproveTask (now : datetime) (task_id : string) (action : ApproverAction.t)
| RejectTask (now : datetime) (task_id : string) (action : ApproverAction.t)
| RequestInfo (now : datetime) (task_id : string) (action : RequestInfoAction.t)
| Resubmit (now : datetime) (jid : string) (payload : ResubmitPayload.t)
| AddComment (now : datetime) (jid : string) (payload : CommentCreate.t).

Definition serve (r : request) (d : DB) : DB :=
  match r with
  | CreateJustification now payload => (create_justification now payload d).1
  | GetJustification jid => (get_justification jid d).1
  | ApproveTask now task_id action => (approve_task now task_id action d).1
  | RejectTask now task_id action => (reject_task now task_id action d).1
  | RequestInfo now task_id action => (request_info now task_id action d).1
  | Resubmit now jid payload => (resubmit now jid payload d).1
  | AddComment now jid payload => (add_comment now jid payload d).1
  end.

(** A series of requests, served one after the other. *)
Definition serve_all (rs : list request) (d : DB) : DB :=
  foldl (λ d r, serve r d) d rs.

Definition justification_ids (d : DB) : list ObjectId :=
  Justification._id <$> justification d.

Definition task_key (t : ApprovalTask.t) : ObjectId * string :=
  (ApprovalTask._id t, ApprovalTask.justification_id t).

Definition task_keys (d : DB) : list (ObjectId * string) :=
  task_key <$> approvaltask d.

(** The identifiers in use are below the supply and pairwise distinct, and
    every task refers to a stored justification by the text of its
    identifier. *)
Definition store_consistent (d : DB) : Prop :=
  next_oid d ≤ oid_bound
  ∧ Forall (λ o, o < next_oid d) (justification_ids d)
  ∧ Forall (λ k, k.1 < next_oid d) (task_keys d)
  ∧ NoDup (justification_ids d)
  ∧ NoDup (task_keys d).*1
  ∧ Forall (λ k, ∃ jo, jo ∈ justification_ids d ∧ k.2 = ObjectId_str jo) (task_keys d).

(** The documents of the two workflow collections keep their places,
    identifiers and back-references; the supply does not go back. *)
Definition same_skeleton (d d' : DB) : Prop :=
  justification_ids d' = justification_ids d
  ∧ task_keys d' = task_keys d
  ∧ next_oid d ≤ next_oid d'.

(** ** What a request raises *)

Definition raised {A} (x : DB * result A) : option exn :=
  match x.2 with
  | Ok _ => None
  | Raise e => Some e
  end.

(** The exception a request ends in, if any. *)
Definition failure (r : request) (d : DB) : option exn :=
  match r with
  | CreateJustification now payload => raised (create_justification now payload d)
  | GetJustification jid => raised (get_justification jid d)
  | ApproveTask now task_id action => raised (approve_task now task_id action d)
  | RejectTask now task_id action => raised (reject_task now task_id action d)
  | RequestInfo now task_id action => raised (request_info now task_id action d)
  | Resubmit now jid payload => raised (resubmit now jid payload d)
  | AddComment now jid payload => raised (add_comment now jid payload d)
  end.


(** A store whose only rule is for another department. *)
Definition rule_sales : RoutingRule.t :=
  RoutingRule.mk 20 "sales" (Some "Sales") None None ["head-of-sales@x"].

Definition sales_store : DB := mkDB [] [] [] [] [] [rule_sales] 21.

(** The audit entry of [add_comment]. *)
Definition comment_audit (o : ObjectId) (now : datetime) (jid : string)
    (payload : CommentCreate.t) (cid : ObjectId) : AuditLog.t :=
  AuditLog.mk o "justification" jid "COMMENT" (CommentCreate.author_email payload)
    {[ "comment_id" := JStr (ObjectId_str cid) ]}
    now.

(** Every comment and every audit entry refers, by a well-formed text, to an
    identifier the supply has already handed out. *)
Definition refers_below (n : N) (s : string) : Prop :=
  ∃ jo, jo < n ∧ ObjectId_parse s = Some jo.

Definition logs_consistent (d : DB) : Prop :=
  Forall (λ c, refers_below (next_oid d) (Comment.justification_id c)) (comment d)
  ∧ Forall (λ a, refers_below (next_oid d) (AuditLog.entity_id a)) (auditlog d).

(** [b@x] has approved; the task of [a@x] is the last one open. *)
Definition example_b_approved : DB :=
  (approve_task 8%Z example_task_b (ApproverAction.mk "b@x" None) example_submitted).1.

(** ** The listing routes

    [list_justifications] and [approver_inbox] answer with documents of the
    store, before [serialize_id] renames [_id] and prints the dates. *)

(** [.sort(field, -1)]: descending on the key. *)
Definition sort_by_desc {A} (key : A → Z) (l : list A) : list A :=
  sort_by (λ x, (- key x)%Z) l.

Definition justification_field (k : string) (j : Justification.t) : option string :=
  if decide (k = "requester_email")
  then Some (JustificationCreate.requester_email (Justification.data j))
  else if decide (k = "status") then Some (Justification.status j)
  else None.

Definition justification_matches (q : query) (j : Justification.t) : Prop :=
  Forall (λ kv, justification_field kv.1 j = Some kv.2) q.

#[global] Instance justification_matches_dec q j : Decision (justification_matches q j).
Proof. unfold justification_matches. apply _. Defined.

(** The filter dict [q] of [list_justifications]. *)
Definition list_query (requester_email status : option string) : query :=
  (match requester_email with
   | Some e => if truthy e then [("requester_email", e)] else []
   | None => []
   end)
  ++ (match status with
      | Some s => if truthy s then [("status", s)] else []
      | None => []
      end).

Definition list_justifications (requester_email status : option string)
  : M (list Justification.t) :=
  items ← find db_justification (justification_matches (list_query requester_email status));
  mret (sort_by_desc Justification.created_at items).

(** The filter of [approver_inbox]: the approver's tasks whose status is
    [$in] the two open ones. *)
Definition open_task_of (approver_email : string) (t : ApprovalTask.t) : Prop :=
  ApprovalTask.approver_email t = approver_email
  ∧ ApprovalTask.status t ∈ ["Pending"; "NeedsMoreInfo"].

#[global] Instance open_task_of_dec e t : Decision (open_task_of e t).
Proof. unfold open_task_of. apply _. Defined.

(** An entry of the dict [grouped], which keeps its keys in the order of
    their first insertion: the key and the tasks appended under it. The list
    of an entry is created by the [setdefault] that appends its first task,
    so it is kept as that task and the tasks appended after it. *)
Definition group : Type := string * (ApprovalTask.t * list ApprovalTask.t).

(** [grouped.setdefault(t["justification_id"], []).append(t)] *)
Fixpoint setdefault_append (t : ApprovalTask.t) (grouped : list group) : list group :=
  match grouped with
  | [] => [(ApprovalTask.justification_id t, (t, []))]
  | (jid, (t0, arr)) :: rest =>
      if decide (jid = ApprovalTask.justification_id t)
      then (jid, (t0, arr ++ [t])) :: rest
      else (jid, (t0, arr)) :: setdefault_append t rest
  end.

(** The loop [for t in tasks]. *)
Definition group_tasks (tasks : list ApprovalTask.t) : list group :=
  foldl (λ grouped t, setdefault_append t grouped) [] tasks.

(** [sorted(arr, key=lambda x: x.get("step_index", 0))[0]] *)
Definition next_task (arr : ApprovalTask.t * list ApprovalTask.t) : ApprovalTask.t :=
  hd arr.1 (sort_by (λ x, Z.of_nat (ApprovalTask.step_index x)) (arr.1 :: arr.2)).

Record InboxItem := mkInboxItem {
  inbox_task : ApprovalTask.t;
  inbox_justification : option Justification.t
}.

(** The loop [for jid, arr in grouped.items()]. *)
Fixpoint inbox_items (grouped : list group) : M (list InboxItem) :=
  match grouped with
  | [] => mret []
  | (jid, arr) :: rest =>
      oid ← ObjectId_of jid;
      just ← find_one db_justification (λ j, Justification._id j = oid);
      result ← inbox_items rest;
      mret (mkInboxItem (next_task arr) just :: result)
  end.

Definition approver_inbox (approver_email : string) : M (list InboxItem) :=
  tasks ← find db_approvaltask (open_task_of approver_email);
  inbox_items (group_tasks (sort_by_desc ApprovalTask.created_at tasks)).

(** ** Reading a listing *)

(** A query parameter that is absent or empty does not filter. *)
Definition passes (param : option string) (x : string) : Prop :=
  match param with
  | Some s => s = "" ∨ x = s
  | None => True
  end.

#[global] Instance passes_dec param x : Decision (passes param x).
Proof. destruct param; simpl; apply _. Defined.

(** The justification a task refers to, when its reference is well formed
    and the justification is stored. *)
Definition task_justification (d : DB) (t : ApprovalTask.t) : option Justification.t :=
  o ← ObjectId_parse (ApprovalTask.justification_id t);
  stored_justification d o.

(** ** Documents as dicts: [serialize_id]

    The values a stored document holds at the top level: an identifier, a
    date, or a JSON value. *)

Inductive value :=
| VObjectId (o : ObjectId)
| VDatetime (t : datetime)
| VJson (j : json).

Section python_values.
(** [datetime.isoformat], and Python's [str] on a date and on a JSON value
    that is not a string. *)
Context (isoformat : datetime → string).
Context (str_datetime : datetime → string) (str_json : json → string).

(** [str(v)] *)
Definition py_str (v : value) : string :=
  match v with
  | VObjectId o => ObjectId_str o
  | VDatetime t => str_datetime t
  | VJson (JStr s) => s
  | VJson j => str_json j
  end.

(** The body of the loop of [serialize_id]. *)
Definition print_date (v : value) : value :=
  match v with
  | VDatetime t => VJson (JStr (isoformat t))
  | _ => v
  end.

Definition serialize_id (doc : gmap string value) : gmap string value :=
  if decide (size doc = 0%nat) then doc
  else
    let doc := match doc !! "_id" with
               | Some v => <["id" := VJson (JStr (py_str v))]> (delete "_id" doc)
               | None => doc
               end in
    print_date <$> doc.

End python_values.

(** * Properties *)

(** ** Lists of documents addressed by a key *)

Section by_key.
Context {A K : Type} `{!EqDecision K} (key : A → K).
Context (f : A → A) (Hkey : ∀ x, key (f x) = key x).

Lemma head_filter_split (k : K) (l : list A) (x : A) :
  head (filter (λ y, key y = k) l) = Some x →
  ∃ l1 l2, l = l1 ++ x :: l2 ∧ Forall (λ y, key y ≠ k) l1 ∧ key x = k.
Proof.
  induction l as [|y l IH]; [done|].
  rewrite filter_cons. destruct (decide (key y = k)) as [E|E].
  - intros [= ->]. by exists [], l.
  - intros H. destruct (IH H) as (l1 & l2 & -> & Hl1 & Hx).
    exists (y :: l1), l2. split; [done|]. split; [by constructor|done].
Qed.

Lemma update_first_split (k : K) (l1 l2 : list A) (x : A) :
  Forall (λ y, key y ≠ k) l1 → key x = k →
  update_first (λ y, key y = k) f (l1 ++ x :: l2) = l1 ++ f x :: l2.
Proof.
  intros Hl1 Hx. induction Hl1 as [|y l1 Hy _ IH]; simpl.
  - by rewrite decide_True.
  - by rewrite decide_False, IH.
Qed.

Lemma head_filter_app_skip (k : K) (l1 l2 : list A) :
  Forall (λ y, key y ≠ k) l1 →
  head (filter (λ y, key y = k) (l1 ++ l2)) = head (filter (λ y, key y = k) l2).
Proof.
  induction 1 as [|y l1 Hy _ IH]; [done|].
  simpl. rewrite filter_cons, decide_False by done. exact IH.
Qed.

Lemma update_first_absent (k : K) (l : list A) :
  head (filter (λ y, key y = k) l) = None →
  update_first (λ y, key y = k) f l = l.
Proof.
  induction l as [|y l IH]; [done|].
  rewrite filter_cons. simpl. destruct (decide (key y = k)); [done|].
  intros H. by rewrite IH.
Qed.

Lemma head_filter_update_first_eq (k : K) (l : list A) :
  head (filter (λ y, key y = k) (update_first (λ y, key y = k) f l))
  = f <$> head (filter (λ y, key y = k) l).
Proof.
  induction l as [|y l IH]; [done|].
  simpl. rewrite (filter_cons _ y l). destruct (decide (key y = k)) as [E|E].
  - rewrite filter_cons, decide_True; [done|]. by rewrite Hkey.
  - by rewrite filter_cons, decide_False.
Qed.

Lemma head_filter_update_first_ne (k k' : K) (l : list A) :
  k' ≠ k →
  head (filter (λ y, key y = k') (update_first (λ y, key y = k) f l))
  = head (filter (λ y, key y = k') l).
Proof.
  intros Hne. induction l as [|y l IH]; [done|].
  simpl. destruct (decide (key y = k)) as [E|E].
  - rewrite !filter_cons, Hkey. rewrite !decide_False; [done|congruence..].
  - rewrite !filter_cons. destruct (decide (key y = k')); [done|exact IH].
Qed.

Lemma update_first_keys (P : A → Prop) `{!∀ x, Decision (P x)} (l : list A) :
  key <$> update_first P f l = key <$> l.
Proof.
  induction l as [|y l IH]; [done|].
  cbn [update_first]. destruct (decide (P y)); rewrite !fmap_cons;
    [by rewrite Hkey|by rewrite IH].
Qed.

Lemma update_all_keys (P : A → Prop) `{!∀ x, Decision (P x)} (l : list A) :
  key <$> update_all P f l = key <$> l.
Proof.
  unfold update_all. rewrite <- list_fmap_compose. apply list_fmap_ext.
  intros _ y _. simpl. by destruct (decide (P y)).
Qed.

Lemma head_filter_unique (l : list A) (x : A) :
  NoDup (key <$> l) → x ∈ l → head (filter (λ y, key y = key x) l) = Some x.
Proof.
  induction l as [|y l IH]; [by intros _ ?%elem_of_nil|].
  rewrite fmap_cons, NoDup_cons, filter_cons. intros [Hy Hnd] Hx.
  apply elem_of_cons in Hx as [->|Hx].
  - by rewrite decide_True.
  - rewrite decide_False; [by apply IH|].
    intros E. apply Hy. rewrite E. by apply list_elem_of_fmap_2.
Qed.
End by_key.

(** ** Running the handlers *)

Ltac run :=
  cbv [mbind mret mthrow M_bind M_ret M_throw bind ret raise find_one find
       update_one update_many log_audit send_email_stub insert_one
       count_documents ObjectId_of];
  cbn [docs set_docs db_justification db_approvaltask db_comment db_auditlog
       db_emailoutbox db_routingrule bump_oid justification approvaltask
       comment auditlog emailoutbox routingrule next_oid fst snd].

Lemma stored_justification_update (o o' : ObjectId) (s : string) (now : datetime)
    (l : list Justification.t) :
  head (filter (λ j, Justification._id j = o')
          (update_first (λ j, Justification._id j = o)
             (Justification.set_status s now) l))
  = (if decide (o' = o) then Justification.set_status s now else id)
      <$> head (filter (λ j, Justification._id j = o') l).
Proof.
  destruct (decide (o' = o)) as [->|Hne].
  - by apply head_filter_update_first_eq.
  - rewrite head_filter_update_first_ne by done. by rewrite option_fmap_id.
Qed.

Lemma approve_task_run now task_id action d o t jo j :
  ObjectId_parse task_id = Some o →
  stored_task d o = Some t →
  ObjectId_parse (ApprovalTask.justification_id t) = Some jo →
  stored_justification d jo = Some j →
  let jid := ApprovalTask.justification_id t in
  let tasks' := update_first (λ x, ApprovalTask._id x = o)
                  (ApprovalTask.set_status "Approved" now) (approvaltask d) in
  let entry := approve_audit (next_oid d) now jid task_id action in
  approve_task now task_id action d =
    (if decide (length (remaining_tasks jid tasks') = 0%nat) then
       mkDB (update_first (λ x, Justification._id x = jo)
               (Justification.set_status "Approved" now) (justification d))
            tasks' (comment d) (auditlog d ++ [entry])
            (emailoutbox d ++
               [final_approval_email (N.succ (next_oid d)) now
                  (Justification.set_status "Approved" now j)])
            (routingrule d) (N.succ (N.succ (next_oid d)))
     else
       mkDB (justification d) tasks' (comment d) (auditlog d ++ [entry])
            (emailoutbox d) (routingrule d) (N.succ (next_oid d)),
     Ok ok_response).
Proof.
  intros Hp Ht Hjp Hj. cbv zeta.
  destruct (head_filter_split ApprovalTask._id _ _ _ Ht) as (_ & _ & _ & _ & Ho).
  unfold approve_task, stored_task, stored_justification, remaining_tasks in *. run.
  rewrite Hp. run. rewrite Ht. run. rewrite Ho.
  destruct (decide (length _ = 0%nat)) as [E|E]; [|done].
  rewrite Hjp. run.
  rewrite stored_justification_update, Hj, decide_True by done. simpl. done.
Qed.

(** ** Approving the tasks of a justification, in any order *)

Lemma task_approved_later_refl l : Forall2 task_approved_later l l.
Proof. apply Forall_Forall2_diag, Forall_forall. by intros t _. Qed.

Lemma task_approved_later_trans l1 l2 l3 :
  Forall2 task_approved_later l1 l2 → Forall2 task_approved_later l2 l3 →
  Forall2 task_approved_later l1 l3.
Proof.
  intros H12. revert l3. induction H12 as [|a b l1 l2 (Ha1 & Ha2 & Ha3) _ IH];
    intros l3 H23; inversion H23 as [|? c ? l3' (Hb1 & Hb2 & Hb3) H23']; subst;
    constructor; [|by apply IH].
  repeat split; [congruence..|auto].
Qed.

Lemma task_approved_later_update o now l :
  Forall2 task_approved_later l
    (update_first (λ x, ApprovalTask._id x = o)
       (ApprovalTask.set_status "Approved" now) l).
Proof.
  induction l as [|t l IH]; [constructor|].
  simpl. destruct (decide (ApprovalTask._id t = o)).
  - constructor; [by repeat split|apply task_approved_later_refl].
  - constructor; [by repeat split|exact IH].
Qed.

Lemma task_approved_later_ids l l' :
  Forall2 task_approved_later l l' → ApprovalTask._id <$> l' = ApprovalTask._id <$> l.
Proof.
  induction 1 as [|t t' l l' (H1 & _) _ IH]; [done|].
  by rewrite !fmap_cons, H1, IH.
Qed.

Lemma task_approved_later_stored l l' o t :
  Forall2 task_approved_later l l' →
  head (filter (λ x, ApprovalTask._id x = o) l) = Some t →
  ∃ t', head (filter (λ x, ApprovalTask._id x = o) l') = Some t'
        ∧ task_approved_later t t'.
Proof.
  induction 1 as [|a b l l' Hab _ IH]; [done|].
  rewrite !filter_cons. destruct Hab as (H1 & H2 & H3). rewrite H1.
  destruct (decide (ApprovalTask._id a = o)).
  - intros [= <-]. by exists b.
  - exact IH.
Qed.

Lemma task_approved_later_elem l l' t' :
  Forall2 task_approved_later l l' → t' ∈ l' →
  ∃ t, t ∈ l ∧ task_approved_later t t'.
Proof.
  induction 1 as [|a b l l' Hab _ IH]; [by intros ?%elem_of_nil|].
  intros [->|Hin]%elem_of_cons.
  - exists a. split; [left|done].
  - destruct (IH Hin) as (t & Ht & Htt'). exists t. split; [by right|done].
Qed.

Lemma approve_seq_app calls1 calls2 d :
  approve_seq (calls1 ++ calls2) d =
    let (d1, rs1) := approve_seq calls1 d in
    let (d2, rs2) := approve_seq calls2 d1 in
    (d2, rs1 ++ rs2).
Proof.
  revert d. induction calls1 as [|[[now tid] a] calls1 IH]; intros d; simpl.
  - by destruct (approve_seq calls2 d).
  - destruct (approve_task now tid a d) as [d1 r]. rewrite IH.
    destruct (approve_seq calls1 d1) as [d2 rs1].
    by destruct (approve_seq calls2 d2).
Qed.

Lemma approve_task_step now task_id action d o t jo j :
  ObjectId_parse task_id = Some o →
  stored_task d o = Some t →
  ObjectId_parse (ApprovalTask.justification_id t) = Some jo →
  stored_justification d jo = Some j →
  ∃ d1, approve_task now task_id action d = (d1, Ok ok_response)
    ∧ approvaltask d1 = update_first (λ x, ApprovalTask._id x = o)
                          (ApprovalTask.set_status "Approved" now) (approvaltask d)
    ∧ stored_task d1 o = Some (ApprovalTask.set_status "Approved" now t)
    ∧ auditlog d1 = auditlog d ++
        [approve_audit (next_oid d) now (ApprovalTask.justification_id t) task_id action]
    ∧ if decide (remaining_tasks (ApprovalTask.justification_id t) (approvaltask d1) = [])
      then stored_justification d1 jo = Some (Justification.set_status "Approved" now j)
           ∧ emailoutbox d1 = emailoutbox d ++
               [final_approval_email (N.succ (next_oid d)) now
                  (Justification.set_status "Approved" now j)]
      else stored_justification d1 jo = Some j ∧ justification d1 = justification d
           ∧ emailoutbox d1 = emailoutbox d.
Proof.
  intros Hp Ht Hjp Hj. eexists. split; [by apply approve_task_run|].
  cbv zeta. set (tasks' := update_first _ _ _).
  assert (Hst : head (filter (λ x, ApprovalTask._id x = o) tasks')
                = Some (ApprovalTask.set_status "Approved" now t)).
  { unfold tasks'. rewrite (head_filter_update_first_eq ApprovalTask._id) by done.
    unfold stored_task in Ht. by rewrite Ht. }
  destruct (decide (length _ = 0%nat)) as [E|E]; simpl.
  - apply nil_length_inv in E. rewrite decide_True by done.
    split_and!; try done.
    unfold stored_justification in *. simpl.
    by rewrite stored_justification_update, Hj, decide_True.
  - rewrite decide_False; [by split_and!|]. intros E'. by rewrite E' in E.
Qed.

Lemma approve_seq_inv jid jo calls : ∀ d j,
  ObjectId_parse jid = Some jo →
  stored_justification d jo = Some j →
  Forall (call_targets jid d) calls →
  ∃ d' j', approve_seq calls d = (d', (λ _, Ok ok_response) <$> calls)
    ∧ Forall2 task_approved_later (approvaltask d) (approvaltask d')
    ∧ stored_justification d' jo = Some j'
    ∧ Justification.data j' = Justification.data j
    ∧ Forall (call_approved d') calls.
Proof.
  induction calls as [|[[now tid] a] calls IH]; intros d j Hjo Hj Hcalls.
  - exists d, j. simpl. repeat split; [apply task_approved_later_refl|done..].
  - apply Forall_cons in Hcalls as [(o & t & Hp & Ht & Htj) Hcalls]. simpl in Hp.
    destruct (approve_task_step now tid a d o t jo j) as (d1 & Hrun & Htasks & Hto & _ & Hcase);
      [done|done|by rewrite Htj|done|].
    assert (Hlater : Forall2 task_approved_later (approvaltask d) (approvaltask d1)).
    { rewrite Htasks. apply task_approved_later_update. }
    assert (∃ j1, stored_justification d1 jo = Some j1
                  ∧ Justification.data j1 = Justification.data j) as (j1 & Hj1 & Hdata1).
    { destruct (decide _); destruct Hcase as [Hc _]; eexists; (split; [exact Hc|done]). }
    destruct (IH d1 j1 Hjo Hj1) as (d' & j' & Hseq & Hlater' & Hj' & Hdata' & Hdone).
    { eapply Forall_impl; [exact Hcalls|]. intros call (o' & t' & Hp' & Ht' & Htj').
      destruct (task_approved_later_stored _ _ _ _ Hlater Ht') as (t'' & Ht'' & _ & E & _).
      exists o', t''. repeat split; [done..|congruence]. }
    exists d', j'. simpl. rewrite Hrun, Hseq. repeat split.
    + by eapply task_approved_later_trans.
    + done.
    + congruence.
    + constructor; [|done].
      destruct (task_approved_later_stored _ _ _ _ Hlater' Hto) as (t'' & Ht'' & _ & _ & E).
      exists o, t''. repeat split; [done..|]. by apply E.
Qed.

Lemma filter_none {A} (P : A → Prop) `{!∀ x, Decision (P x)} (l : list A) :
  (∀ x, x ∈ l → ¬ P x) → filter P l = [].
Proof.
  intros Hno. destruct (filter P l) as [|x l'] eqn:E; [done|].
  assert (Hx : x ∈ filter P l) by (rewrite E; left).
  apply list_elem_of_filter in Hx as [HP Hx]. by destruct (Hno x Hx).
Qed.

Lemma stored_task_unique d t :
  NoDup (ApprovalTask._id <$> approvaltask d) → t ∈ approvaltask d →
  stored_task d (ApprovalTask._id t) = Some t.
Proof. apply (head_filter_unique ApprovalTask._id). Qed.

Lemma approve_calls_complete :
  ∀ jid jo j calls d,
  ObjectId_parse jid = Some jo →
  stored_justification d jo = Some j →
  NoDup (ApprovalTask._id <$> approvaltask d) →
  calls ≠ [] →
  Forall (call_targets jid d) calls →
  (∀ t, t ∈ approvaltask d → ApprovalTask.justification_id t = jid →
        ApprovalTask.status t ≠ "Approved" →
        ∃ call, call ∈ calls ∧ ObjectId_parse call.1.2 = Some (ApprovalTask._id t)) →
  ∀ calls', calls' ≡ₚ calls →
  ∃ d', approve_seq calls' d = (d', (λ _, Ok ok_response) <$> calls')
    ∧ Justification.status <$> stored_justification d' jo = Some "Approved"
    ∧ (∀ t, t ∈ approvaltask d' → ApprovalTask.justification_id t = jid →
            ApprovalTask.status t = "Approved")
    ∧ ∃ e, last (emailoutbox d') = Some e
           ∧ EmailOutbox.to e = [JustificationCreate.requester_email (Justification.data j)]
           ∧ EmailOutbox.subject e = "Final approval".
Proof.
  intros jid jo j calls d Hjo Hj Hnd Hne Hcalls Hcover calls' Hperm.
  assert (Hne' : calls' ≠ []).
  { intros ->. by apply Permutation_nil_l in Hperm. }
  rewrite <- Hperm in Hcalls.
  assert (Hcover' : ∀ t, t ∈ approvaltask d → ApprovalTask.justification_id t = jid →
            ApprovalTask.status t ≠ "Approved" →
            ∃ call, call ∈ calls' ∧ ObjectId_parse call.1.2 = Some (ApprovalTask._id t)).
  { intros t H1 H2 H3. destruct (Hcover t H1 H2 H3) as (call & Hin & Hc).
    exists call. by rewrite Hperm. }
  clear Hcover Hperm Hne calls.
  destruct calls' as [|[[now tid] a] calls0 _] using rev_ind; [done|]. clear Hne'.
  apply Forall_app in Hcalls as [Hcalls0 Hlast].
  apply Forall_singleton in Hlast as (o & t & Hp & Ht & Htj). simpl in Hp.
  destruct (approve_seq_inv jid jo calls0 d j Hjo Hj Hcalls0)
    as (d1 & j1 & Hseq & Hlater & Hj1 & Hdata1 & Hdone).
  destruct (task_approved_later_stored _ _ _ _ Hlater Ht) as (t1 & Ht1 & _ & Htj1 & _).
  fold (stored_task d1 o) in Ht1.
  destruct (approve_task_step now tid a d1 o t1 jo j1) as (d2 & Hrun & Htasks & Hto & _ & Hcase);
    [done|done|by rewrite Htj1, Htj|done|].
  assert (Hlater2 : Forall2 task_approved_later (approvaltask d1) (approvaltask d2)).
  { rewrite Htasks. apply task_approved_later_update. }
  assert (Hnd1 : NoDup (ApprovalTask._id <$> approvaltask d1)).
  { by rewrite (task_approved_later_ids _ _ Hlater). }
  assert (Hnd2 : NoDup (ApprovalTask._id <$> approvaltask d2)).
  { by rewrite (task_approved_later_ids _ _ Hlater2). }
  assert (Hall : ∀ t2, t2 ∈ approvaltask d2 → ApprovalTask.justification_id t2 = jid →
            ApprovalTask.status t2 = "Approved").
  { intros t2 Hin2 Hjid2.
    destruct (task_approved_later_elem _ _ _ Hlater2 Hin2) as (t1' & Hin1 & Hi21 & Hj21 & Hs21).
    destruct (task_approved_later_elem _ _ _ Hlater Hin1) as (t0 & Hin0 & Hi10 & Hj10 & Hs10).
    destruct (decide (ApprovalTask.status t0 = "Approved")) as [E|E]; [auto|].
    destruct (Hcover' t0 Hin0) as (call & Hin & Hc); [congruence|done|].
    apply elem_of_app in Hin as [Hin|Hin%list_elem_of_singleton].
    - rewrite Forall_forall in Hdone.
      destruct (Hdone call Hin) as (o' & t'' & Hp' & Ht'' & Hs'').
      assert (o' = ApprovalTask._id t1') as -> by congruence.
      rewrite (stored_task_unique d1 t1') in Ht'' by done.
      apply Hs21. congruence.
    - subst call. simpl in Hc.
      assert (o = ApprovalTask._id t2) as -> by congruence.
      rewrite (stored_task_unique d2 t2) in Hto by done.
      by injection Hto as ->. }
  assert (Hrem : remaining_tasks (ApprovalTask.justification_id t1) (approvaltask d2) = []).
  { apply filter_none. intros t2 Hin2 [H1 H2]. apply H2, Hall; congruence. }
  rewrite decide_True in Hcase by done. destruct Hcase as [Hj2 Hmail].
  exists d2. rewrite approve_seq_app, Hseq. simpl. rewrite Hrun.
  split_and!.
  + by rewrite fmap_app.
  + by rewrite Hj2.
  + done.
  + eexists. rewrite Hmail, last_snoc. split_and!; [done| |done].
    simpl. by rewrite Hdata1.
Qed.

(** [C1] Approving the last task of a justification that is not yet
    [Approved] answers [{ok: true}], sets the justification to [Approved] and
    appends the final-approval message to the requester to the outbox; while
    a task of the justification remains with another status, an approval
    leaves the justification and the outbox as they were. And whatever the
    order of the calls: when the calls of a series address tasks of one
    stored justification and reach every task of it that is not yet
    [Approved], every reordering of the series succeeds call by call and ends
    with all these tasks and the justification [Approved], the last message of
    the outbox being the final approval sent to the requester. *)
Theorem approve_all_tasks_approves_justification :
  (∀ now task_id action d o t jo j,
     ObjectId_parse task_id = Some o →
     stored_task d o = Some t →
     ObjectId_parse (ApprovalTask.justification_id t) = Some jo →
     stored_justification d jo = Some j →
     let d' := (approve_task now task_id action d).1 in
     remaining_tasks (ApprovalTask.justification_id t) (approvaltask d') = [] →
     (approve_task now task_id action d).2 = Ok ok_response
     ∧ Justification.status <$> stored_justification d' jo = Some "Approved"
     ∧ ∃ e, emailoutbox d' = emailoutbox d ++ [e]
            ∧ EmailOutbox.to e = [JustificationCreate.requester_email (Justification.data j)]
            ∧ EmailOutbox.subject e = "Final approval")
  ∧ (∀ now task_id action d o t jo j,
       ObjectId_parse task_id = Some o →
       stored_task d o = Some t →
       ObjectId_parse (ApprovalTask.justification_id t) = Some jo →
       stored_justification d jo = Some j →
       let d' := (approve_task now task_id action d).1 in
       remaining_tasks (ApprovalTask.justification_id t) (approvaltask d') ≠ [] →
       (approve_task now task_id action d).2 = Ok ok_response
       ∧ justification d' = justification d
       ∧ emailoutbox d' = emailoutbox d)
  ∧ (∀ jid jo j calls d,
       ObjectId_parse jid = Some jo →
       stored_justification d jo = Some j →
       NoDup (ApprovalTask._id <$> approvaltask d) →
       calls ≠ [] →
       Forall (call_targets jid d) calls →
       (∀ t, t ∈ approvaltask d → ApprovalTask.justification_id t = jid →
             ApprovalTask.status t ≠ "Approved" →
             ∃ call, call ∈ calls ∧ ObjectId_parse call.1.2 = Some (ApprovalTask._id t)) →
       ∀ calls', calls' ≡ₚ calls →
       ∃ d', approve_seq calls' d = (d', (λ _, Ok ok_response) <$> calls')
         ∧ Justification.status <$> stored_justification d' jo = Some "Approved"
         ∧ (∀ t, t ∈ approvaltask d' → ApprovalTask.justification_id t = jid →
                 ApprovalTask.status t = "Approved")
         ∧ ∃ e, last (emailoutbox d') = Some e
                ∧ EmailOutbox.to e = [JustificationCreate.requester_email (Justification.data j)]
                ∧ EmailOutbox.subject e = "Final approval").
Proof.
  split_and!.
  - intros now task_id action d o t jo j Hp Ht Hjp Hj d' Hrem.
    destruct (approve_task_step now task_id action d o t jo j Hp Ht Hjp Hj)
      as (d1 & Hrun & _ & _ & _ & Hcase).
    subst d'. rewrite Hrun in *. simpl in *.
    rewrite decide_True in Hcase by done. destruct Hcase as [-> ->].
    split_and!; [done..|]. by eexists.
  - intros now task_id action d o t jo j Hp Ht Hjp Hj d' Hrem.
    destruct (approve_task_step now task_id action d o t jo j Hp Ht Hjp Hj)
      as (d1 & Hrun & _ & _ & _ & Hcase).
    subst d'. rewrite Hrun in *. simpl in *.
    rewrite decide_False in Hcase by done. by destruct Hcase as (_ & -> & ->).
  - exact approve_calls_complete.
Qed.

Lemma approve_all_tasks_witness :
  let calls := [(9%Z, example_task_b, ApproverAction.mk "b@x" None);
                (8%Z, example_task_a, ApproverAction.mk "a@x" (Some "fine"))] in
  ∃ d', approve_seq calls example_submitted = (d', (λ _, Ok ok_response) <$> calls)
    ∧ Justification.status <$> stored_justification d' 1 = Some "Approved"
    ∧ (∀ t, t ∈ approvaltask d' → ApprovalTask.justification_id t = example_jid →
            ApprovalTask.status t = "Approved")
    ∧ ∃ e, last (emailoutbox d') = Some e
           ∧ EmailOutbox.to e = ["req@x"]
           ∧ EmailOutbox.subject e = "Final approval".
Proof.
  intros calls.
  refine (proj2 (proj2 approve_all_tasks_approves_justification) example_jid 1
            (Justification.mk 1 example_payload "PendingApproval" 7%Z 7%Z)
            (reverse calls) example_submitted _ _ _ _ _ _ calls _).
  - reflexivity.
  - reflexivity.
  - apply (bool_decide_unpack _). vm_compute. exact I.
  - discriminate.
  - repeat constructor.
    + exists 2, (ApprovalTask.mk 2 example_jid "a@x" 0 "Pending" None 7%Z None).
      by vm_compute.
    + exists 3, (ApprovalTask.mk 3 example_jid "b@x" 1 "Pending" None 7%Z None).
      by vm_compute.
  - intros t Ht _ _. vm_compute in Ht.
    apply elem_of_cons in Ht as [->|Ht]; [|apply elem_of_cons in Ht as [->|Ht]].
    + eexists. split; [left|reflexivity].
    + eexists. split; [right; left|reflexivity].
    + by apply elem_of_nil in Ht.
  - apply Permutation_swap.
Defined.

(** [C9] [approve_task] looks neither at the status of the task nor at the
    status of its justification: for a stored task of a stored justification,
    whatever the two statuses are, the call answers [{ok: true}] and leaves
    the task [Approved]; and when no task of the justification is then left
    with another status, the justification is [Approved] as well, whatever it
    was before. *)
Theorem approve_task_has_no_status_guard now task_id action d o t jo j :
  ObjectId_parse task_id = Some o →
  stored_task d o = Some t →
  ObjectId_parse (ApprovalTask.justification_id t) = Some jo →
  stored_justification d jo = Some j →
  ∃ d', approve_task now task_id action d = (d', Ok ok_response)
    ∧ stored_task d' o = Some (ApprovalTask.set_status "Approved" now t)
    ∧ ApprovalTask.status <$> stored_task d' o = Some "Approved"
    ∧ (remaining_tasks (ApprovalTask.justification_id t) (approvaltask d') = [] →
       stored_justification d' jo = Some (Justification.set_status "Approved" now j)
       ∧ Justification.status <$> stored_justification d' jo = Some "Approved").
Proof.
  intros Hp Ht Hjp Hj.
  destruct (approve_task_step now task_id action d o t jo j Hp Ht Hjp Hj)
    as (d1 & Hrun & _ & Hto & _ & Hcase).
  exists d1. split_and!; [done|done|by rewrite Hto|].
  intros Hrem. rewrite decide_True in Hcase by done.
  destruct Hcase as [-> _]. done.
Qed.

Lemma approve_task_has_no_status_guard_witness :
  ApprovalTask.status <$> stored_task example_rejected 2 = Some "Rejected"
  ∧ Justification.status <$> stored_justification example_rejected 1 = Some "Rejected"
  ∧ ∃ d', approve_task 10%Z example_task_a (ApproverAction.mk "a@x" None) example_rejected
          = (d', Ok ok_response)
      ∧ ApprovalTask.status <$> stored_task d' 2 = Some "Approved"
      ∧ Justification.status <$> stored_justification d' 1 = Some "Approved".
Proof.
  split; [reflexivity|]. split; [reflexivity|].
  destruct (approve_task_has_no_status_guard 10%Z example_task_a
              (ApproverAction.mk "a@x" None) example_rejected 2
              (ApprovalTask.mk 2 example_jid "a@x" 0 "Rejected" None 7%Z (Some 9%Z)) 1
              (Justification.mk 1 example_payload "Rejected" 7%Z 9%Z)
              eq_refl eq_refl eq_refl eq_refl)
    as (d' & Hrun & _ & Ht & Hj).
  exists d'. split_and!; [exact Hrun|exact Ht|].
  apply Hj. replace d' with (d', Ok ok_response).1 by reflexivity.
  rewrite <- Hrun. reflexivity.
Defined.

(** ** Reject, request-info and resubmit *)

Lemma truthy_opt_true (o : option string) :
  truthy_opt o = true ↔ ∃ s, o = Some s ∧ s ≠ "".
Proof.
  destruct o as [s|]; simpl.
  - unfold truthy. rewrite negb_true_iff, String.eqb_neq. split.
    + intros Hs. by exists s.
    + by intros (s' & [= ->] & Hs).
  - split; [done|]. by intros (s & [=] & _).
Qed.

Lemma reject_task_run now task_id action d c o t jo j :
  ApproverAction.comment action = Some c → c ≠ "" →
  ObjectId_parse task_id = Some o →
  stored_task d o = Some t →
  ObjectId_parse (ApprovalTask.justification_id t) = Some jo →
  stored_justification d jo = Some j →
  reject_task now task_id action d =
    (mkDB (update_first (λ x, Justification._id x = jo)
             (Justification.set_status "Rejected" now) (justification d))
          (update_first (λ x, ApprovalTask._id x = o)
             (ApprovalTask.set_status "Rejected" now) (approvaltask d))
          (comment d)
          (auditlog d ++
             [reject_audit (next_oid d) now (ApprovalTask.justification_id t) task_id action])
          (emailoutbox d ++
             [rejected_email (N.succ (next_oid d)) now
                (Justification.set_status "Rejected" now j) c])
          (routingrule d) (N.succ (N.succ (next_oid d))),
     Ok ok_response).
Proof.
  intros Hc Hne Hp Ht Hjp Hj.
  destruct action as [actor cm]. simpl in Hc. subst cm.
  destruct (head_filter_split ApprovalTask._id _ _ _ Ht) as (_ & _ & _ & _ & Ho).
  unfold reject_task, stored_task, stored_justification in *.
  replace (truthy_opt (ApproverAction.comment (ApproverAction.mk actor (Some c))))
    with true by (symmetry; apply truthy_opt_true; eauto).
  simpl. run. rewrite Hp. run. rewrite Ht. run. rewrite Ho, Hjp. run.
  by rewrite stored_justification_update, Hj, decide_True.
Qed.

Lemma request_info_run now task_id action d o t jo j :
  ObjectId_parse task_id = Some o →
  stored_task d o = Some t →
  ObjectId_parse (ApprovalTask.justification_id t) = Some jo →
  stored_justification d jo = Some j →
  request_info now task_id action d =
    (mkDB (update_first (λ x, Justification._id x = jo)
             (Justification.set_status "NeedsMoreInfo" now) (justification d))
          (update_first (λ x, ApprovalTask._id x = o)
             (ApprovalTask.set_needs_info "NeedsMoreInfo"
                (RequestInfoAction.reason action) now) (approvaltask d))
          (comment d)
          (auditlog d ++
             [request_info_audit (N.succ (next_oid d)) now
                (ApprovalTask.justification_id t) task_id action])
          (emailoutbox d ++
             [more_info_email (next_oid d) now
                (Justification.set_status "NeedsMoreInfo" now j)
                (RequestInfoAction.reason action)])
          (routingrule d) (N.succ (N.succ (next_oid d))),
     Ok ok_response).
Proof.
  intros Hp Ht Hjp Hj.
  destruct (head_filter_split ApprovalTask._id _ _ _ Ht) as (_ & _ & _ & _ & Ho).
  unfold request_info, stored_task, stored_justification in *.
  run. rewrite Hp. run. rewrite Ht. run. rewrite Ho, Hjp. run.
  by rewrite stored_justification_update, Hj, decide_True.
Qed.

Lemma resubmit_run now jid payload d jo j :
  ObjectId_parse jid = Some jo →
  stored_justification d jo = Some j →
  resubmit now jid payload d =
    (mkDB (update_first (λ x, Justification._id x = jo)
             (Justification.set_status "PendingApproval" now) (justification d))
          (update_all (λ t, ApprovalTask.justification_id t = jid
                            ∧ ApprovalTask.status t = "NeedsMoreInfo")
             (ApprovalTask.set_status "Pending" now) (approvaltask d))
          (comment d)
          (auditlog d ++ [resubmit_audit (next_oid d) now jid payload])
          (emailoutbox d ++ [resubmitted_email (N.succ (next_oid d)) now payload])
          (routingrule d) (N.succ (N.succ (next_oid d))),
     Ok ok_response).
Proof.
  intros Hp Hj.
  destruct (head_filter_split Justification._id _ _ _ Hj) as (_ & _ & _ & _ & Ho).
  unfold resubmit, stored_justification in *.
  run. rewrite Hp. run. rewrite Hj. run. by rewrite Ho.
Qed.

Lemma stored_task_split d o t f :
  stored_task d o = Some t →
  ∃ l1 l2, approvaltask d = l1 ++ t :: l2
    ∧ update_first (λ x, ApprovalTask._id x = o) f (approvaltask d) = l1 ++ f t :: l2.
Proof.
  intros Ht.
  destruct (head_filter_split ApprovalTask._id _ _ _ Ht) as (l1 & l2 & E & Hl1 & Ho).
  exists l1, l2. split; [done|]. rewrite E.
  by apply (update_first_split ApprovalTask._id).
Qed.

(** [C3] Rejecting a stored task with a non-empty reason answers
    [{ok: true}], leaves that task [Rejected] and sets its justification to
    [Rejected]; the other tasks of the store, whatever their statuses, stay as
    they were. *)
Theorem reject_task_rejects_justification now task_id action d c o t jo j :
  ApproverAction.comment action = Some c → c ≠ "" →
  ObjectId_parse task_id = Some o →
  stored_task d o = Some t →
  ObjectId_parse (ApprovalTask.justification_id t) = Some jo →
  stored_justification d jo = Some j →
  ∃ d' l1 l2, reject_task now task_id action d = (d', Ok ok_response)
    ∧ approvaltask d = l1 ++ t :: l2
    ∧ approvaltask d' = l1 ++ ApprovalTask.set_status "Rejected" now t :: l2
    ∧ ApprovalTask.status <$> stored_task d' o = Some "Rejected"
    ∧ stored_justification d' jo = Some (Justification.set_status "Rejected" now j)
    ∧ Justification.status <$> stored_justification d' jo = Some "Rejected".
Proof.
  intros Hc Hne Hp Ht Hjp Hj.
  destruct (stored_task_split d o t (ApprovalTask.set_status "Rejected" now) Ht)
    as (l1 & l2 & E & E').
  rewrite (reject_task_run now task_id action d c o t jo j) by done.
  eexists _, l1, l2. split; [reflexivity|].
  unfold stored_task, stored_justification in *. cbn [approvaltask justification].
  rewrite stored_justification_update, Hj, decide_True by done.
  rewrite (head_filter_update_first_eq ApprovalTask._id), Ht by done.
  by split_and!.
Qed.

Lemma reject_task_rejects_justification_witness :
  ∃ d' l1 l2,
    reject_task 8%Z example_task_a (ApproverAction.mk "a@x" (Some "too dear"))
      example_submitted = (d', Ok ok_response)
    ∧ approvaltask example_submitted
      = l1 ++ ApprovalTask.mk 2 example_jid "a@x" 0 "Pending" None 7%Z None :: l2
    ∧ approvaltask d'
      = l1 ++ ApprovalTask.mk 2 example_jid "a@x" 0 "Rejected" None 7%Z (Some 8%Z) :: l2
    ∧ ApprovalTask.status <$> stored_task d' 2 = Some "Rejected"
    ∧ stored_justification d' 1
      = Some (Justification.mk 1 example_payload "Rejected" 7%Z 8%Z)
    ∧ Justification.status <$> stored_justification d' 1 = Some "Rejected".
Proof.
  apply (reject_task_rejects_justification 8%Z example_task_a
           (ApproverAction.mk "a@x" (Some "too dear")) example_submitted "too dear" 2
           (ApprovalTask.mk 2 example_jid "a@x" 0 "Pending" None 7%Z None) 1
           (Justification.mk 1 example_payload "PendingApproval" 7%Z 7%Z));
    [reflexivity|discriminate|reflexivity..].
Defined.

(** [X20] Asking for more information on a stored task answers [{ok: true}],
    changes that task alone, to [NeedsMoreInfo] with the reason recorded on
    it, and sets its justification to [NeedsMoreInfo]. Resubmitting a stored
    justification answers [{ok: true}], sets it to [PendingApproval] and puts
    back to [Pending] exactly the tasks that are [NeedsMoreInfo] and whose
    stored reference is, character for character, the identifier text of the
    call; every other task is unchanged. *)
Theorem request_info_and_resubmit_touch_only_their_tasks :
  (∀ now task_id action d o t jo j,
     ObjectId_parse task_id = Some o →
     stored_task d o = Some t →
     ObjectId_parse (ApprovalTask.justification_id t) = Some jo →
     stored_justification d jo = Some j →
     ∃ d' l1 l2 t', request_info now task_id action d = (d', Ok ok_response)
       ∧ approvaltask d = l1 ++ t :: l2
       ∧ approvaltask d' = l1 ++ t' :: l2
       ∧ stored_task d' o = Some t'
       ∧ t' = ApprovalTask.set_needs_info "NeedsMoreInfo"
                (RequestInfoAction.reason action) now t
       ∧ ApprovalTask.status t' = "NeedsMoreInfo"
       ∧ ApprovalTask.requested_more_info t' = Some (RequestInfoAction.reason action)
       ∧ Justification.status <$> stored_justification d' jo = Some "NeedsMoreInfo")
  ∧ (∀ now jid payload d jo j,
       ObjectId_parse jid = Some jo →
       stored_justification d jo = Some j →
       ∃ d', resubmit now jid payload d = (d', Ok ok_response)
         ∧ Justification.status <$> stored_justification d' jo = Some "PendingApproval"
         ∧ approvaltask d' =
             (λ t, if decide (ApprovalTask.justification_id t = jid
                              ∧ ApprovalTask.status t = "NeedsMoreInfo")
                   then ApprovalTask.set_status "Pending" now t else t)
               <$> approvaltask d
         ∧ Forall2 (λ t t',
               (ApprovalTask.justification_id t = jid
                ∧ ApprovalTask.status t = "NeedsMoreInfo" →
                t' = ApprovalTask.set_status "Pending" now t
                ∧ ApprovalTask.status t' = "Pending")
               ∧ (¬ (ApprovalTask.justification_id t = jid
                     ∧ ApprovalTask.status t = "NeedsMoreInfo") → t' = t))
             (approvaltask d) (approvaltask d')).
Proof.
  split.
  - intros now task_id action d o t jo j Hp Ht Hjp Hj.
    destruct (stored_task_split d o t
                (ApprovalTask.set_needs_info "NeedsMoreInfo"
                   (RequestInfoAction.reason action) now) Ht)
      as (l1 & l2 & E & E').
    rewrite (request_info_run now task_id action d o t jo j) by done.
    eexists _, l1, l2, _. split; [reflexivity|].
    unfold stored_task, stored_justification in *. cbn [approvaltask justification].
    rewrite stored_justification_update, Hj, decide_True by done.
    rewrite (head_filter_update_first_eq ApprovalTask._id), Ht by done.
    by split_and!.
  - intros now jid payload d jo j Hp Hj.
    rewrite (resubmit_run now jid payload d jo j) by done.
    eexists. split; [reflexivity|].
    unfold stored_justification in *. cbn [approvaltask justification].
    rewrite stored_justification_update, Hj, decide_True by done.
    split_and!; [done|done|].
    unfold update_all. apply Forall2_fmap_r, Forall_Forall2_diag, Forall_forall.
    intros t _. unfold compose. case_decide as Y; (split; [intros HY|intros HN]).
    + by split.
    + destruct (HN Y).
    + destruct (Y HY).
    + reflexivity.
Qed.

Lemma request_info_and_resubmit_witness :
  (∃ d' l1 l2 t',
     request_info 8%Z example_task_a (RequestInfoAction.mk "a@x" "which model?")
       example_submitted = (d', Ok ok_response)
     ∧ approvaltask example_submitted
       = l1 ++ ApprovalTask.mk 2 example_jid "a@x" 0 "Pending" None 7%Z None :: l2
     ∧ approvaltask d' = l1 ++ t' :: l2
     ∧ stored_task d' 2 = Some t'
     ∧ t' = ApprovalTask.mk 2 example_jid "a@x" 0 "NeedsMoreInfo"
              (Some "which model?") 7%Z (Some 8%Z)
     ∧ ApprovalTask.status t' = "NeedsMoreInfo"
     ∧ ApprovalTask.requested_more_info t' = Some "which model?"
     ∧ Justification.status <$> stored_justification d' 1 = Some "NeedsMoreInfo")
  ∧ (∃ d', resubmit 9%Z example_jid (ResubmitPayload.mk "req@x" None) example_needs_info
           = (d', Ok ok_response)
       ∧ Justification.status <$> stored_justification d' 1 = Some "PendingApproval"
       ∧ ApprovalTask.status <$> approvaltask d' = ["Pending"; "Pending"]).
Proof.
  split.
  - apply (proj1 request_info_and_resubmit_touch_only_their_tasks 8%Z example_task_a
             (RequestInfoAction.mk "a@x" "which model?") example_submitted 2
             (ApprovalTask.mk 2 example_jid "a@x" 0 "Pending" None 7%Z None) 1
             (Justification.mk 1 example_payload "PendingApproval" 7%Z 7%Z));
      reflexivity.
  - destruct (proj2 request_info_and_resubmit_touch_only_their_tasks 9%Z example_jid
                (ResubmitPayload.mk "req@x" None) example_needs_info 1
                (Justification.mk 1 example_payload "NeedsMoreInfo" 7%Z 8%Z)
                eq_refl eq_refl) as (d' & Hrun & Hj & Htasks & _).
    exists d'. split_and!; [exact Hrun|exact Hj|].
    rewrite Htasks. reflexivity.
Defined.

(** [C5] Resubmitting reaches the tasks of the justification only under the
    text stored on them. Justification 10 is stored with the task 11 of
    [a@x], which is [NeedsMoreInfo] and refers to it by the lower-case text
    [...0a]. A resubmission under the upper-case text [...0A] of the same
    identifier finds the justification, answers [{ok: true}] and sets it to
    [PendingApproval], and leaves the task [NeedsMoreInfo]; under the
    lower-case text the same call puts the task back to [Pending]. *)
Theorem resubmit_under_another_spelling_misses_the_tasks :
  let upper := "00000000000000000000000A" in
  let lower := "00000000000000000000000a" in
  let payload := ResubmitPayload.mk "req@x" None in
  store_consistent lettered_needs_info
  ∧ ObjectId_parse upper = Some 10 ∧ ObjectId_parse lower = Some 10
  ∧ Justification.status <$> stored_justification lettered_needs_info 10
    = Some "NeedsMoreInfo"
  ∧ ApprovalTask.justification_id <$> stored_task lettered_needs_info 11 = Some lower
  ∧ ApprovalTask.status <$> stored_task lettered_needs_info 11 = Some "NeedsMoreInfo"
  ∧ (resubmit 9%Z upper payload lettered_needs_info).2 = Ok ok_response
  ∧ Justification.status
      <$> stored_justification (resubmit 9%Z upper payload lettered_needs_info).1 10
    = Some "PendingApproval"
  ∧ ApprovalTask.status
      <$> stored_task (resubmit 9%Z upper payload lettered_needs_info).1 11
    = Some "NeedsMoreInfo"
  ∧ ApprovalTask.status
      <$> stored_task (resubmit 9%Z lower payload lettered_needs_info).1 11
    = Some "Pending".
Proof.
  cbv zeta. split; [|split_and!; vm_compute; reflexivity].
  unfold store_consistent.
  split_and!;
    [ vm_compute; discriminate
    | vm_compute; repeat constructor
    | vm_compute; repeat constructor
    | apply (bool_decide_unpack _); vm_compute; exact I
    | apply (bool_decide_unpack _); vm_compute; exact I
    | ].
  assert (H : Forall (λ k : ObjectId * string,
                        k.2 ∈ ObjectId_str <$> justification_ids lettered_needs_info)
                (task_keys lettered_needs_info)).
  { apply (bool_decide_unpack _). vm_compute. exact I. }
  eapply Forall_impl; [exact H|].
  intros k (jo & -> & Hjo)%list_elem_of_fmap. by exists jo.
Qed.

(** [C10] [resubmit] does not look at the status of the justification: for a
    stored justification, whatever its status, the call answers [{ok: true}]
    and leaves the justification [PendingApproval]. *)
Theorem resubmit_has_no_status_guard now jid payload d jo j :
  ObjectId_parse jid = Some jo →
  stored_justification d jo = Some j →
  ∃ d', resubmit now jid payload d = (d', Ok ok_response)
    ∧ stored_justification d' jo = Some (Justification.set_status "PendingApproval" now j)
    ∧ Justification.status <$> stored_justification d' jo = Some "PendingApproval".
Proof.
  intros Hp Hj. rewrite (resubmit_run now jid payload d jo j) by done.
  eexists. split; [reflexivity|].
  unfold stored_justification in *. cbn [justification].
  by rewrite stored_justification_update, Hj, decide_True.
Qed.

Lemma resubmit_has_no_status_guard_witness :
  Justification.status <$> stored_justification example_rejected 1 = Some "Rejected"
  ∧ ∃ d', resubmit 10%Z example_jid (ResubmitPayload.mk "req@x" (Some "again"))
            example_rejected = (d', Ok ok_response)
      ∧ stored_justification d' 1
        = Some (Justification.mk 1 example_payload "PendingApproval" 7%Z 10%Z)
      ∧ Justification.status <$> stored_justification d' 1 = Some "PendingApproval".
Proof.
  split; [reflexivity|].
  apply (resubmit_has_no_status_guard 10%Z example_jid
           (ResubmitPayload.mk "req@x" (Some "again")) example_rejected 1
           (Justification.mk 1 example_payload "Rejected" 7%Z 9%Z));
    reflexivity.
Defined.

(** ** Error paths *)

(** [C7] A well-formed identifier that addresses no stored document makes the
    route fail with the 404 [HTTPException] and leaves the store as it was:
    for [approve_task] and [request_info], for [reject_task] when the comment
    is non-empty, and for [resubmit], [get_justification] and [add_comment]. *)
Theorem unknown_identifier_is_not_found :
  (∀ now task_id action d o,
     ObjectId_parse task_id = Some o → stored_task d o = None →
     approve_task now task_id action d
     = (d, Raise (HTTPException 404 "Task not found")))
  ∧ (∀ now task_id action d o,
       truthy_opt (ApproverAction.comment action) = true →
       ObjectId_parse task_id = Some o → stored_task d o = None →
       reject_task now task_id action d
       = (d, Raise (HTTPException 404 "Task not found")))
  ∧ (∀ now task_id action d o,
       ObjectId_parse task_id = Some o → stored_task d o = None →
       request_info now task_id action d
       = (d, Raise (HTTPException 404 "Task not found")))
  ∧ (∀ now jid payload d o,
       ObjectId_parse jid = Some o → stored_justification d o = None →
       resubmit now jid payload d = (d, Raise (HTTPException 404 "Not found")))
  ∧ (∀ jid d o,
       ObjectId_parse jid = Some o → stored_justification d o = None →
       get_justification jid d = (d, Raise (HTTPException 404 "Not found")))
  ∧ (∀ now jid payload d o,
       ObjectId_parse jid = Some o → stored_justification d o = None →
       add_comment now jid payload d
       = (d, Raise (HTTPException 404 "Justification not found"))).
Proof.
  unfold stored_task, stored_justification. split_and!.
  - intros now task_id action d o Hp Hnone. unfold approve_task. run.
    rewrite Hp. run. by rewrite Hnone.
  - intros now task_id action d o Hc Hp Hnone. unfold reject_task. rewrite Hc.
    simpl. run. rewrite Hp. run. by rewrite Hnone.
  - intros now task_id action d o Hp Hnone. unfold request_info. run.
    rewrite Hp. run. by rewrite Hnone.
  - intros now jid payload d o Hp Hnone. unfold resubmit. run.
    rewrite Hp. run. by rewrite Hnone.
  - intros jid d o Hp Hnone. unfold get_justification. run.
    rewrite Hp. run. by rewrite Hnone.
  - intros now jid payload d o Hp Hnone. unfold add_comment. run.
    rewrite Hp. run. by rewrite Hnone.
Qed.

Lemma unknown_identifier_is_not_found_witness :
  approve_task 8%Z (ObjectId_str 99) (ApproverAction.mk "a@x" None) example_submitted
  = (example_submitted, Raise (HTTPException 404 "Task not found"))
  ∧ reject_task 8%Z (ObjectId_str 99) (ApproverAction.mk "a@x" (Some "no"))
      example_submitted
    = (example_submitted, Raise (HTTPException 404 "Task not found"))
  ∧ request_info 8%Z (ObjectId_str 99) (RequestInfoAction.mk "a@x" "why?")
      example_submitted
    = (example_submitted, Raise (HTTPException 404 "Task not found"))
  ∧ resubmit 8%Z (ObjectId_str 99) (ResubmitPayload.mk "req@x" None) example_submitted
    = (example_submitted, Raise (HTTPException 404 "Not found"))
  ∧ get_justification (ObjectId_str 99) example_submitted
    = (example_submitted, Raise (HTTPException 404 "Not found"))
  ∧ add_comment 8%Z (ObjectId_str 99) (CommentCreate.mk "req@x" "hello" false)
      example_submitted
    = (example_submitted, Raise (HTTPException 404 "Justification not found")).
Proof.
  destruct unknown_identifier_is_not_found as (H1 & H2 & H3 & H4 & H5 & H6).
  split_and!.
  - apply (H1 _ _ _ _ 99); reflexivity.
  - apply (H2 _ _ _ _ 99); reflexivity.
  - apply (H3 _ _ _ _ 99); reflexivity.
  - apply (H4 _ _ _ _ 99); reflexivity.
  - apply (H5 _ _ 99); reflexivity.
  - apply (H6 _ _ _ _ 99); reflexivity.
Defined.

(** Against [C7] as stated: identifier 99 is well formed and addresses no
    stored task, yet [reject_task] without a comment fails with the 400 of
    its reason check, not with 404; and the identifier [abc], the text of no
    stored task, makes [approve_task] end in [InvalidId], raised by
    [ObjectId] before any lookup. *)
Lemma unknown_identifier_counterexample :
  (ObjectId_parse (ObjectId_str 99) = Some 99
   ∧ stored_task example_submitted 99 = None
   ∧ reject_task 8%Z (ObjectId_str 99) (ApproverAction.mk "a@x" None) example_submitted
     = (example_submitted,
        Raise (HTTPException 400 "Rejection requires a reason in comment")))
  ∧ (Forall (λ t, ObjectId_str (ApprovalTask._id t) ≠ "abc")
       (approvaltask example_submitted)
     ∧ approve_task 8%Z "abc" (ApproverAction.mk "a@x" None) example_submitted
       = (example_submitted, Raise InvalidId)).
Proof.
  split_and!; [vm_compute; reflexivity..| |vm_compute; reflexivity].
  apply (bool_decide_unpack _). vm_compute. exact I.
Qed.

(** [C6] [reject_task] with a missing or empty comment fails with the 400
    [HTTPException] before it touches the store: no task, no justification
    and no audit entry changes. A request-info body without a [reason] is
    refused by the validation of [RequestInfoAction], with the store
    unchanged. *)
Theorem missing_reason_is_refused :
  (∀ now task_id action d,
     ApproverAction.comment action = None ∨ ApproverAction.comment action = Some "" →
     reject_task now task_id action d
     = (d, Raise (HTTPException 400 "Rejection requires a reason in comment")))
  ∧ (∀ now task_id body d,
       body !! "reason" = None →
       ∃ errors, request_info_route now task_id body d
                 = (d, Raise (RequestValidationError errors))
         ∧ "reason" ∈ errors).
Proof.
  split.
  - intros now task_id action d Hc. unfold reject_task.
    by destruct Hc as [-> | ->].
  - intros now task_id body d Hb.
    unfold request_info_route, RequestInfoAction_validate, body_str. rewrite Hb.
    destruct (body !! "actor_email") as [[| | |s| |]|]; eexists; (split; [reflexivity|]);
      set_solver.
Qed.

Lemma missing_reason_is_refused_witness :
  reject_task 8%Z example_task_a (ApproverAction.mk "a@x" (Some "")) example_submitted
  = (example_submitted, Raise (HTTPException 400 "Rejection requires a reason in comment"))
  ∧ ∃ errors, request_info_route 8%Z example_task_a {[ "actor_email" := JStr "a@x" ]}
                example_submitted
              = (example_submitted, Raise (RequestValidationError errors))
      ∧ "reason" ∈ errors.
Proof.
  split.
  - apply (proj1 missing_reason_is_refused). by right.
  - apply (proj2 missing_reason_is_refused). reflexivity.
Defined.

(** Against [C6] as stated: a request-info call whose reason is the empty
    string is not refused; it answers [{ok: true}] and moves the task and
    its justification to [NeedsMoreInfo]. *)
Lemma empty_reason_request_info_counterexample :
  let run := request_info 8%Z example_task_a (RequestInfoAction.mk "a@x" "")
               example_submitted in
  run.2 = Ok ok_response
  ∧ ApprovalTask.status <$> stored_task run.1 2 = Some "NeedsMoreInfo"
  ∧ Justification.status <$> stored_justification run.1 1 = Some "NeedsMoreInfo"
  ∧ length (auditlog run.1) = S (length (auditlog example_submitted)).
Proof. vm_compute. by split_and!. Qed.

(** ** Submission *)

Lemma scan_candidates_run spend cs d :
  scan_candidates spend cs d = (d, scan_tiers (routingrule d) spend cs).
Proof.
  induction cs as [|c cs IH]; [done|].
  simpl. run. destruct (scan_cursor spend _) as [[rule|]|e]; [done|exact IH|done].
Qed.

Lemma select_routing_rule_run department type_code spend d :
  select_routing_rule department type_code spend d
  = (d, scan_tiers (routingrule d) spend (candidates department type_code)).
Proof. apply scan_candidates_run. Qed.

Lemma insert_tasks_run now jid_str approvers : ∀ idx d,
  insert_tasks now jid_str idx approvers d
  = (mkDB (justification d)
          (approvaltask d ++ new_tasks now jid_str idx (next_oid d) approvers)
          (comment d) (auditlog d) (emailoutbox d) (routingrule d)
          (next_oid d + N.of_nat (length approvers)),
     Ok ()).
Proof.
  induction approvers as [|email rest IH]; intros idx d.
  - simpl. run. rewrite app_nil_r, N.add_0_r. by destruct d.
  - cbn [insert_tasks]. run. rewrite IH. cbn -[N.of_nat N.add].
    rewrite <- app_assoc. do 2 f_equal. lia.
Qed.

Lemma new_tasks_length now jid_str approvers : ∀ idx o,
  length (new_tasks now jid_str idx o approvers) = length approvers.
Proof. induction approvers as [|e l IH]; intros; simpl; [done|by rewrite IH]. Qed.

Lemma new_tasks_step_index now jid_str approvers : ∀ idx o,
  ApprovalTask.step_index <$> new_tasks now jid_str idx o approvers
  = seq idx (length approvers).
Proof. induction approvers as [|e l IH]; intros; simpl; [done|by rewrite IH]. Qed.

Lemma new_tasks_approver_email now jid_str approvers : ∀ idx o,
  ApprovalTask.approver_email <$> new_tasks now jid_str idx o approvers = approvers.
Proof. induction approvers as [|e l IH]; intros; simpl; [done|by rewrite IH]. Qed.

Lemma new_tasks_pending now jid_str approvers : ∀ idx o,
  Forall (λ t, ApprovalTask.status t = "Pending"
               ∧ ApprovalTask.justification_id t = jid_str
               ∧ ApprovalTask.requested_more_info t = None)
    (new_tasks now jid_str idx o approvers).
Proof.
  induction approvers as [|e l IH]; intros; simpl; constructor; [done|apply IH].
Qed.

(** A submission whose resolution answers. *)
Lemma create_justification_run now payload d rule :
  scan_tiers (routingrule d) (JustificationCreate.cost_estimate payload)
    (candidates (JustificationCreate.department payload)
       (JustificationCreate.type_code payload)) = Ok rule →
  let jid := next_oid d in
  let jid_str := ObjectId_str jid in
  let approvers := resolved_approvers rule in
  let o := N.succ jid + N.of_nat (length approvers) in
  let o' := match approvers with [] => o | _ :: _ => N.succ o end in
  create_justification now payload d =
    (mkDB (justification d ++ [Justification.mk jid payload "PendingApproval" now now])
          (approvaltask d ++ new_tasks now jid_str 0 (N.succ jid) approvers)
          (comment d)
          (auditlog d ++ [create_audit (N.succ o') now jid_str payload])
          (emailoutbox d
             ++ match approvers with
                | [] => []
                | _ :: _ => [approvers_email o now approvers payload]
                end
             ++ [receipt_email o' now payload])
          (routingrule d) (N.succ (N.succ o')),
     Ok (id_response jid_str)).
Proof.
  intros Hrule. cbv zeta. unfold create_justification. run.
  rewrite select_routing_rule_run. cbn [routingrule bump_oid]. rewrite Hrule. simpl.
  set (approvers := resolved_approvers _).
  run. rewrite insert_tasks_run. simpl.
  destruct approvers as [|a l] eqn:E; simpl; run; [done|].
  by rewrite <- app_assoc.
Qed.

(** A submission whose resolution raises: the justification is stored, and
    nothing else is written. *)
Lemma create_justification_raise now payload d e :
  scan_tiers (routingrule d) (JustificationCreate.cost_estimate payload)
    (candidates (JustificationCreate.department payload)
       (JustificationCreate.type_code payload)) = Raise e →
  create_justification now payload d =
    (mkDB (justification d
             ++ [Justification.mk (next_oid d) payload "PendingApproval" now now])
          (approvaltask d) (comment d) (auditlog d) (emailoutbox d)
          (routingrule d) (N.succ (next_oid d)),
     Raise e).
Proof.
  intros Hrule. unfold create_justification. run.
  rewrite select_routing_rule_run. cbn [routingrule bump_oid]. by rewrite Hrule.
Qed.

Lemma filter_all {A} (P : A → Prop) `{!∀ x, Decision (P x)} (l : list A) :
  Forall P l → filter P l = l.
Proof.
  induction 1 as [|x l Hx _ IH]; [done|].
  by rewrite filter_cons, decide_True, IH.
Qed.

(** [C4] A submission always answers with the identifier of the justification
    it stores, in status [PendingApproval]. With [approvers] the approvers it
    reads from the rule the resolver selects (the non-empty entries of the
    rule's list, the list itself when no entry is empty, none when no rule
    applies), it appends one task per approver: as many tasks as approvers,
    with step indices 0, 1, ... in the order of the list, each [Pending] and
    referring to the new justification; when no stored task referred to the
    new identifier before, these are all the tasks of the new justification. *)
Theorem create_justification_creates_one_task_per_approver now payload d rule :
  (select_routing_rule (JustificationCreate.department payload)
     (JustificationCreate.type_code payload)
     (JustificationCreate.cost_estimate payload) d).2 = Ok rule →
  let approvers := resolved_approvers rule in
  let jid_str := ObjectId_str (next_oid d) in
  (∀ r, rule = Some r → Forall (λ a, a ≠ "") (RoutingRule.approver_emails r) →
        approvers = RoutingRule.approver_emails r)
  ∧ (rule = None → approvers = [])
  ∧ ∃ d' created,
      create_justification now payload d = (d', Ok (id_response jid_str))
      ∧ justification d'
        = justification d
            ++ [Justification.mk (next_oid d) payload "PendingApproval" now now]
      ∧ approvaltask d' = approvaltask d ++ created
      ∧ length created = length approvers
      ∧ ApprovalTask.step_index <$> created = seq 0 (length approvers)
      ∧ ApprovalTask.approver_email <$> created = approvers
      ∧ Forall (λ t, ApprovalTask.status t = "Pending"
                     ∧ ApprovalTask.justification_id t = jid_str
                     ∧ ApprovalTask.requested_more_info t = None) created
      ∧ (Forall (λ t, ApprovalTask.justification_id t ≠ jid_str) (approvaltask d) →
         filter (λ t, ApprovalTask.justification_id t = jid_str) (approvaltask d')
         = created).
Proof.
  rewrite select_routing_rule_run. cbn [snd]. intros Hrule. split_and!.
  - intros r -> Hr. simpl. induction Hr as [|a l Ha _ IH]; [done|].
    simpl. unfold truthy at 1. apply String.eqb_neq in Ha. rewrite Ha. simpl.
    by rewrite IH.
  - by intros ->.
  - rewrite (create_justification_run now payload d rule Hrule). cbv zeta.
    set (approvers := resolved_approvers _).
    eexists _, (new_tasks now (ObjectId_str (next_oid d)) 0 (N.succ (next_oid d)) approvers).
    split; [reflexivity|]. cbn [justification approvaltask].
    split_and!; [done|done|apply new_tasks_length|apply new_tasks_step_index
                |apply new_tasks_approver_email|apply new_tasks_pending|].
    intros Hfresh. rewrite filter_app, (filter_none _ (approvaltask d)).
    + apply filter_all. eapply Forall_impl; [apply new_tasks_pending|].
      by intros t (_ & ? & _).
    + intros t Ht. by eapply Forall_forall in Hfresh.
Qed.

Lemma create_justification_witness :
  ∃ d' created,
    create_justification 7%Z example_payload example_store
    = (d', Ok (id_response example_jid))
    ∧ justification d'
      = [Justification.mk 1 example_payload "PendingApproval" 7%Z 7%Z]
    ∧ approvaltask d' = created
    ∧ length created = 2%nat
    ∧ ApprovalTask.step_index <$> created = [0; 1]%nat
    ∧ ApprovalTask.approver_email <$> created = ["a@x"; "b@x"]
    ∧ Forall (λ t, ApprovalTask.status t = "Pending"
                   ∧ ApprovalTask.justification_id t = example_jid
                   ∧ ApprovalTask.requested_more_info t = None) created
    ∧ (Forall (λ t, ApprovalTask.justification_id t ≠ example_jid) [] →
       filter (λ t, ApprovalTask.justification_id t = example_jid) (approvaltask d')
       = created).
Proof.
  exact (proj2 (proj2 (create_justification_creates_one_task_per_approver
                         7%Z example_payload example_store (Some example_rule)
                         eq_refl))).
Defined.

(** ** Audit trail *)

Ltac crack :=
  repeat first
    [ progress run
    | match goal with
      | |- context [match ObjectId_parse ?s with _ => _ end] =>
          destruct (ObjectId_parse s) eqn:?
      | |- context [match head ?l with _ => _ end] => destruct (head l) eqn:?
      | |- context [decide ?P] => destruct (decide P)
      | |- (_, Raise _) = (_, Ok _) → _ => intros [=]
      end ].

(** [C8] Each of the six mutating routes succeeds on a request it can serve
    (a submission whose resolution answers; a stored task with its stored
    justification for approve, reject with a reason and request-info; a
    stored justification for resubmit and add-comment), and whenever it
    succeeds it appends exactly one entry to the audit log, about the
    justification concerned, whose [details] hold: the title for a
    submission; the task identifier and the comment for approve and reject;
    the task identifier and the reason for request-info; the message for
    resubmit; the identifier of the new comment for add-comment. *)
Theorem every_successful_action_logs_one_audit_entry :
  (∀ now payload d rule,
     (select_routing_rule (JustificationCreate.department payload)
        (JustificationCreate.type_code payload)
        (JustificationCreate.cost_estimate payload) d).2 = Ok rule →
     ∃ d', create_justification now payload d
           = (d', Ok (id_response (ObjectId_str (next_oid d))))
           ∧ length (auditlog d') = S (length (auditlog d)))
  ∧ (∀ now payload d d' r,
     create_justification now payload d = (d', Ok r) →
     ∃ e, auditlog d' = auditlog d ++ [e]
       ∧ AuditLog.entity e = "justification"
       ∧ AuditLog.action e = "CREATE"
       ∧ AuditLog.entity_id e = ObjectId_str (next_oid d)
       ∧ AuditLog.actor_email e = JustificationCreate.requester_email payload
       ∧ AuditLog.details e = {[ "title" := JStr (JustificationCreate.title payload) ]})
  ∧ (∀ now task_id action d o t jo j,
       ObjectId_parse task_id = Some o → stored_task d o = Some t →
       ObjectId_parse (ApprovalTask.justification_id t) = Some jo →
       stored_justification d jo = Some j →
       ∃ d', approve_task now task_id action d = (d', Ok ok_response)
             ∧ length (auditlog d') = S (length (auditlog d)))
  ∧ (∀ now task_id action d d' r,
       approve_task now task_id action d = (d', Ok r) →
       ∃ e o t, auditlog d' = auditlog d ++ [e]
         ∧ ObjectId_parse task_id = Some o ∧ stored_task d o = Some t
         ∧ AuditLog.entity e = "justification"
         ∧ AuditLog.entity_id e = ApprovalTask.justification_id t
         ∧ AuditLog.action e = "APPROVE"
         ∧ AuditLog.actor_email e = ApproverAction.actor_email action
         ∧ AuditLog.details e !! "task_id" = Some (JStr task_id)
         ∧ AuditLog.details e !! "comment"
           = Some (json_of_opt_str (ApproverAction.comment action)))
  ∧ (∀ now task_id action d c o t jo j,
       ApproverAction.comment action = Some c → c ≠ "" →
       ObjectId_parse task_id = Some o → stored_task d o = Some t →
       ObjectId_parse (ApprovalTask.justification_id t) = Some jo →
       stored_justification d jo = Some j →
       ∃ d', reject_task now task_id action d = (d', Ok ok_response)
             ∧ length (auditlog d') = S (length (auditlog d)))
  ∧ (∀ now task_id action d d' r,
       reject_task now task_id action d = (d', Ok r) →
       ∃ e c o t, auditlog d' = auditlog d ++ [e]
         ∧ ObjectId_parse task_id = Some o ∧ stored_task d o = Some t
         ∧ AuditLog.entity e = "justification"
         ∧ AuditLog.entity_id e = ApprovalTask.justification_id t
         ∧ AuditLog.action e = "REJECT"
         ∧ AuditLog.actor_email e = ApproverAction.actor_email action
         ∧ ApproverAction.comment action = Some c
         ∧ AuditLog.details e !! "task_id" = Some (JStr task_id)
         ∧ AuditLog.details e !! "comment" = Some (JStr c))
  ∧ (∀ now task_id action d o t jo j,
       ObjectId_parse task_id = Some o → stored_task d o = Some t →
       ObjectId_parse (ApprovalTask.justification_id t) = Some jo →
       stored_justification d jo = Some j →
       ∃ d', request_info now task_id action d = (d', Ok ok_response)
             ∧ length (auditlog d') = S (length (auditlog d)))
  ∧ (∀ now task_id action d d' r,
       request_info now task_id action d = (d', Ok r) →
       ∃ e o t, auditlog d' = auditlog d ++ [e]
         ∧ ObjectId_parse task_id = Some o ∧ stored_task d o = Some t
         ∧ AuditLog.entity e = "justification"
         ∧ AuditLog.entity_id e = ApprovalTask.justification_id t
         ∧ AuditLog.action e = "REQUEST_INFO"
         ∧ AuditLog.actor_email e = RequestInfoAction.actor_email action
         ∧ AuditLog.details e !! "task_id" = Some (JStr task_id)
         ∧ AuditLog.details e !! "reason"
           = Some (JStr (RequestInfoAction.reason action)))
  ∧ (∀ now jid payload d jo j,
       ObjectId_parse jid = Some jo → stored_justification d jo = Some j →
       ∃ d', resubmit now jid payload d = (d', Ok ok_response)
             ∧ length (auditlog d') = S (length (auditlog d)))
  ∧ (∀ now jid payload d d' r,
       resubmit now jid payload d = (d', Ok r) →
       ∃ e, auditlog d' = auditlog d ++ [e]
         ∧ AuditLog.entity e = "justification"
         ∧ AuditLog.action e = "RESUBMIT"
         ∧ AuditLog.entity_id e = jid
         ∧ AuditLog.actor_email e = ResubmitPayload.actor_email payload
         ∧ AuditLog.details e !! "message"
           = Some (json_of_opt_str (ResubmitPayload.message payload)))
  ∧ (∀ now jid payload d jo j,
       ObjectId_parse jid = Some jo → stored_justification d jo = Some j →
       ∃ d', add_comment now jid payload d
             = (d', Ok (id_response (ObjectId_str (next_oid d))))
             ∧ length (auditlog d') = S (length (auditlog d)))
  ∧ (∀ now jid payload d d' r,
       add_comment now jid payload d = (d', Ok r) →
       ∃ e, auditlog d' = auditlog d ++ [e]
         ∧ AuditLog.entity e = "justification"
         ∧ AuditLog.action e = "COMMENT"
         ∧ AuditLog.entity_id e = jid
         ∧ AuditLog.actor_email e = CommentCreate.author_email payload
         ∧ AuditLog.details e !! "comment_id" = Some (JStr (ObjectId_str (next_oid d)))
         ∧ comment d'
           = comment d
               ++ [Comment.mk (next_oid d) jid (CommentCreate.author_email payload)
                     (CommentCreate.message payload)
                     (CommentCreate.is_internal payload) now]).
Proof.
  split_and!.
  - intros now payload d rule. rewrite select_routing_rule_run. cbn [snd]. intros Hrule.
    rewrite (create_justification_run now payload d rule Hrule). cbv zeta.
    eexists. split; [reflexivity|]. cbn [auditlog]. rewrite length_app. simpl. lia.
  - intros now payload d d' r.
    destruct (scan_tiers (routingrule d) (JustificationCreate.cost_estimate payload)
                (candidates (JustificationCreate.department payload)
                   (JustificationCreate.type_code payload))) as [rule|e] eqn:Hrule.
    + rewrite (create_justification_run now payload d rule Hrule).
      intros [= <- <-]. by eexists.
    + by rewrite (create_justification_raise now payload d e Hrule).
  - intros now task_id action d o t jo j Hp Ht Hjp Hj.
    destruct (approve_task_step now task_id action d o t jo j Hp Ht Hjp Hj)
      as (d1 & Hrun & _ & _ & Haudit & _).
    exists d1. split; [done|]. rewrite Haudit, length_app. simpl. lia.
  - intros now task_id action d d' r. unfold approve_task, stored_task. crack;
      intros [= <- <-]; eexists _, _, _; by split_and!.
  - intros now task_id action d c o t jo j Hc Hne Hp Ht Hjp Hj.
    rewrite (reject_task_run now task_id action d c o t jo j) by done.
    eexists. split; [reflexivity|]. cbn [auditlog]. rewrite length_app. simpl. lia.
  - intros now task_id action d d' r. unfold reject_task, stored_task.
    destruct action as [actor [c|]]; simpl; [|by crack].
    destruct (truthy c); simpl; [|by crack].
    crack; intros [= <- <-]; eexists _, c, _, _; by split_and!.
  - intros now task_id action d o t jo j Hp Ht Hjp Hj.
    rewrite (request_info_run now task_id action d o t jo j) by done.
    eexists. split; [reflexivity|]. cbn [auditlog]. rewrite length_app. simpl. lia.
  - intros now task_id action d d' r. unfold request_info, stored_task. crack;
      intros [= <- <-]; eexists _, _, _; by split_and!.
  - intros now jid payload d jo j Hp Hj.
    rewrite (resubmit_run now jid payload d jo j) by done.
    eexists. split; [reflexivity|]. cbn [auditlog]. rewrite length_app. simpl. lia.
  - intros now jid payload d d' r. unfold resubmit. crack;
      intros [= <- <-]; eexists; by split_and!.
  - intros now jid payload d jo j Hp Hj. unfold add_comment, stored_justification in *.
    run. rewrite Hp. run. rewrite Hj. run.
    eexists. split; [reflexivity|]. simpl. rewrite length_app. simpl. lia.
  - intros now jid payload d d' r. unfold add_comment. crack;
      intros [= <- <-]; eexists; by split_and!.
Qed.

Lemma every_successful_action_logs_one_audit_entry_witness :
  let approve := ApproverAction.mk "b@x" None in
  let reject := ApproverAction.mk "a@x" (Some "too dear") in
  let ask := RequestInfoAction.mk "a@x" "which model?" in
  let again := ResubmitPayload.mk "req@x" None in
  let note := CommentCreate.mk "req@x" "see the quote" false in
  let approved := (approve_task 8%Z example_task_b approve example_submitted).1 in
  let rejected := (reject_task 8%Z example_task_a reject example_submitted).1 in
  let resubmitted := (resubmit 9%Z example_jid again example_needs_info).1 in
  let commented := (add_comment 8%Z example_jid note example_submitted).1 in
  (∃ d', create_justification 7%Z example_payload example_store
         = (d', Ok (id_response (ObjectId_str (next_oid example_store))))
         ∧ length (auditlog d') = S (length (auditlog example_store)))
  ∧ (∃ e, auditlog example_submitted = auditlog example_store ++ [e]
       ∧ AuditLog.entity e = "justification"
       ∧ AuditLog.action e = "CREATE"
       ∧ AuditLog.entity_id e = ObjectId_str (next_oid example_store)
       ∧ AuditLog.actor_email e = "req@x"
       ∧ AuditLog.details e = {[ "title" := JStr "Lathe" ]})
  ∧ (∃ d', approve_task 8%Z example_task_b approve example_submitted = (d', Ok ok_response)
           ∧ length (auditlog d') = S (length (auditlog example_submitted)))
  ∧ (∃ e o t, auditlog approved = auditlog example_submitted ++ [e]
       ∧ ObjectId_parse example_task_b = Some o
       ∧ stored_task example_submitted o = Some t
       ∧ AuditLog.entity e = "justification"
       ∧ AuditLog.entity_id e = ApprovalTask.justification_id t
       ∧ AuditLog.action e = "APPROVE"
       ∧ AuditLog.actor_email e = "b@x"
       ∧ AuditLog.details e !! "task_id" = Some (JStr example_task_b)
       ∧ AuditLog.details e !! "comment" = Some JNull)
  ∧ (∃ d', reject_task 8%Z example_task_a reject example_submitted = (d', Ok ok_response)
           ∧ length (auditlog d') = S (length (auditlog example_submitted)))
  ∧ (∃ e c o t, auditlog rejected = auditlog example_submitted ++ [e]
       ∧ ObjectId_parse example_task_a = Some o
       ∧ stored_task example_submitted o = Some t
       ∧ AuditLog.entity e = "justification"
       ∧ AuditLog.entity_id e = ApprovalTask.justification_id t
       ∧ AuditLog.action e = "REJECT"
       ∧ AuditLog.actor_email e = "a@x"
       ∧ Some "too dear" = Some c
       ∧ AuditLog.details e !! "task_id" = Some (JStr example_task_a)
       ∧ AuditLog.details e !! "comment" = Some (JStr c))
  ∧ (∃ d', request_info 8%Z example_task_a ask example_submitted = (d', Ok ok_response)
           ∧ length (auditlog d') = S (length (auditlog example_submitted)))
  ∧ (∃ e o t, auditlog example_needs_info = auditlog example_submitted ++ [e]
       ∧ ObjectId_parse example_task_a = Some o
       ∧ stored_task example_submitted o = Some t
       ∧ AuditLog.entity e = "justification"
       ∧ AuditLog.entity_id e = ApprovalTask.justification_id t
       ∧ AuditLog.action e = "REQUEST_INFO"
       ∧ AuditLog.actor_email e = "a@x"
       ∧ AuditLog.details e !! "task_id" = Some (JStr example_task_a)
       ∧ AuditLog.details e !! "reason" = Some (JStr "which model?"))
  ∧ (∃ d', resubmit 9%Z example_jid again example_needs_info = (d', Ok ok_response)
           ∧ length (auditlog d') = S (length (auditlog example_needs_info)))
  ∧ (∃ e, auditlog resubmitted = auditlog example_needs_info ++ [e]
       ∧ AuditLog.entity e = "justification"
       ∧ AuditLog.action e = "RESUBMIT"
       ∧ AuditLog.entity_id e = example_jid
       ∧ AuditLog.actor_email e = "req@x"
       ∧ AuditLog.details e !! "message" = Some JNull)
  ∧ (∃ d', add_comment 8%Z example_jid note example_submitted
           = (d', Ok (id_response (ObjectId_str (next_oid example_submitted))))
           ∧ length (auditlog d') = S (length (auditlog example_submitted)))
  ∧ (∃ e, auditlog commented = auditlog example_submitted ++ [e]
       ∧ AuditLog.entity e = "justification"
       ∧ AuditLog.action e = "COMMENT"
       ∧ AuditLog.entity_id e = example_jid
       ∧ AuditLog.actor_email e = "req@x"
       ∧ AuditLog.details e !! "comment_id"
         = Some (JStr (ObjectId_str (next_oid example_submitted)))
       ∧ comment commented
         = comment example_submitted
             ++ [Comment.mk (next_oid example_submitted) example_jid "req@x"
                   "see the quote" false 8%Z]).
Proof.
  intros approve reject ask again note approved rejected resubmitted commented.
  destruct every_successful_action_logs_one_audit_entry
    as (S1 & S2 & A1 & A2 & R1 & R2 & I1 & I2 & B1 & B2 & C1 & C2).
  pose (ta := ApprovalTask.mk 2 example_jid "a@x" 0 "Pending" None 7%Z None).
  pose (tb := ApprovalTask.mk 3 example_jid "b@x" 1 "Pending" None 7%Z None).
  pose (j := Justification.mk 1 example_payload "PendingApproval" 7%Z 7%Z).
  pose (j' := Justification.mk 1 example_payload "NeedsMoreInfo" 7%Z 8%Z).
  split_and!.
  - apply (S1 7%Z example_payload example_store (Some example_rule)).
    vm_compute. reflexivity.
  - apply (S2 7%Z example_payload example_store example_submitted
             (id_response example_jid)).
    vm_compute. reflexivity.
  - apply (A1 8%Z example_task_b approve example_submitted 3 tb 1 j);
      vm_compute; reflexivity.
  - apply (A2 8%Z example_task_b approve example_submitted approved ok_response).
    vm_compute. reflexivity.
  - apply (R1 8%Z example_task_a reject example_submitted "too dear" 2 ta 1 j);
      [reflexivity|discriminate|vm_compute; reflexivity..].
  - apply (R2 8%Z example_task_a reject example_submitted rejected ok_response).
    vm_compute. reflexivity.
  - apply (I1 8%Z example_task_a ask example_submitted 2 ta 1 j);
      vm_compute; reflexivity.
  - apply (I2 8%Z example_task_a ask example_submitted example_needs_info ok_response).
    vm_compute. reflexivity.
  - apply (B1 9%Z example_jid again example_needs_info 1 j'); vm_compute; reflexivity.
  - apply (B2 9%Z example_jid again example_needs_info resubmitted ok_response).
    vm_compute. reflexivity.
  - apply (C1 8%Z example_jid note example_submitted 1 j); vm_compute; reflexivity.
  - apply (C2 8%Z example_jid note example_submitted commented
             (id_response (ObjectId_str (next_oid example_submitted)))).
    vm_compute. reflexivity.
Defined.

(** ** Routing resolver *)

Lemma SFleb_reaches estimate f :
  SFleb f (spend_or_0 estimate) = true ↔ float_reaches estimate f.
Proof.
  unfold SFleb, float_reaches.
  destruct (SFcompare f (spend_or_0 estimate)) as [[]|]; split;
    (done || by intros [?|?] || by (left + right)).
Qed.

Lemma threshold_ok_met spend rule :
  threshold_ok spend rule = Ok true ↔ threshold_met spend rule.
Proof.
  unfold threshold_ok, threshold_met.
  destruct (RoutingRule.spend_threshold rule) as [thr|]; [|done].
  destruct (py_float thr) as [f|e].
  - split.
    + intros [= E]. exists f. split; [done|by apply SFleb_reaches].
    + intros (f' & [= <-] & E). apply SFleb_reaches in E. by rewrite E.
  - split; [done|]. by intros (f' & [=] & _).
Qed.

Lemma threshold_ok_error spend rule e :
  threshold_ok spend rule = Raise e ↔ threshold_error rule = Some e.
Proof.
  unfold threshold_ok, threshold_error.
  destruct (RoutingRule.spend_threshold rule) as [thr|]; [|done].
  destruct (py_float thr) as [f|e']; [done|]. split; by intros [= ->].
Qed.

Lemma threshold_ok_passed_over spend rule :
  threshold_ok spend rule = Ok false ↔ ¬ ends_scan spend rule.
Proof.
  unfold ends_scan. rewrite <- threshold_ok_met.
  destruct (threshold_ok spend rule) as [[]|e] eqn:E.
  - split; [done|]. intros H. destruct H. by left.
  - split; [|done]. intros _ [?|[e He]]; [done|].
    apply (proj2 (threshold_ok_error spend rule e)) in He. congruence.
  - split; [done|]. intros H. destruct H. right. exists e.
    by apply (proj1 (threshold_ok_error spend rule e)).
Qed.

Lemma scan_cursor_first spend cur : scan_cursor spend cur = first_match spend cur.
Proof.
  unfold first_match. induction cur as [|rule cur IH]; [done|].
  cbn [scan_cursor]. rewrite filter_cons.
  destruct (threshold_ok spend rule) as [[]|e] eqn:E.
  - rewrite decide_True by (left; by apply threshold_ok_met). cbn [head].
    destruct (threshold_error rule) as [e|] eqn:He; [|done].
    apply (proj2 (threshold_ok_error spend rule e)) in He. congruence.
  - by rewrite decide_False by by apply threshold_ok_passed_over.
  - apply (proj1 (threshold_ok_error spend rule e)) in E.
    rewrite decide_True by (right; by exists e). cbn [head]. by rewrite E.
Qed.

Lemma head_app {A} (l1 l2 : list A) :
  head (l1 ++ l2) = match head l1 with Some x => Some x | None => head l2 end.
Proof. by destruct l1. Qed.

Lemma first_match_app spend l1 l2 :
  first_match spend (l1 ++ l2)
  = match first_match spend l1 with
    | Ok None => first_match spend l2
    | answer => answer
    end.
Proof.
  unfold first_match. rewrite filter_app, head_app.
  destruct (head (filter (ends_scan spend) l1)) as [rule|]; [|done].
  by destruct (threshold_error rule).
Qed.

Lemma scan_tiers_first rules spend cs :
  scan_tiers rules spend cs = first_match spend (tier_scan rules cs).
Proof.
  unfold tier_scan. induction cs as [|c cs IH]; [done|].
  cbn [scan_tiers fmap list_fmap mjoin list_join].
  rewrite first_match_app, scan_cursor_first, IH.
  by destruct (first_match spend (filter (matches c) rules)) as [[]|].
Qed.

(** When [float] converts every threshold it meets, the answer is the first
    rule met whose threshold is met. *)
Lemma first_match_readable spend l :
  Forall (λ r, threshold_error r = None) l →
  first_match spend l = Ok (head (filter (threshold_met spend) l)).
Proof.
  intros Hl. unfold first_match.
  assert (E : filter (ends_scan spend) l = filter (threshold_met spend) l).
  { induction Hl as [|r l Hr _ IH]; [done|]. rewrite !filter_cons, IH.
    destruct (decide (threshold_met spend r)) as [Y|N].
    - rewrite decide_True; [done|by left].
    - rewrite decide_False; [done|]. intros [?|[e He]]; [done|congruence]. }
  rewrite E. destruct (head (filter (threshold_met spend) l)) as [rule|] eqn:H; [|done].
  apply head_Some_elem_of, list_elem_of_filter in H as [_ H].
  rewrite Forall_forall in Hl. by rewrite (Hl rule H).
Qed.

Lemma truthy_true s : truthy s = true ↔ s ≠ "".
Proof. unfold truthy. by rewrite negb_true_iff, String.eqb_neq. Qed.

Lemma candidates_four_tiers department type_code :
  department ≠ "" → type_code ≠ "" →
  candidates department type_code = four_tiers department type_code.
Proof.
  intros Hd%truthy_true Ht%truthy_true. unfold candidates. by rewrite Hd, Ht.
Qed.

Lemma matches_both department type_code rule :
  matches [("department", department); ("type_code", type_code)] rule
  ↔ RoutingRule.department rule = Some department
    ∧ RoutingRule.type_code rule = Some type_code.
Proof.
  unfold matches. rewrite Forall_cons, Forall_singleton. done.
Qed.

Lemma tier_scan_stored rules cs r : r ∈ tier_scan rules cs → r ∈ rules.
Proof.
  unfold tier_scan. induction cs as [|c cs IH]; [by intros ?%elem_of_nil|].
  cbn [fmap list_fmap mjoin list_join]. intros [Hr|Hr]%elem_of_app; [|by apply IH].
  by apply list_elem_of_filter in Hr as [_ Hr].
Qed.

Lemma first_match_raise spend l e :
  first_match spend l = Raise e → ∃ rule, rule ∈ l ∧ threshold_error rule = Some e.
Proof.
  unfold first_match.
  destruct (head (filter (ends_scan spend) l)) as [rule|] eqn:H; [|done].
  apply head_Some_elem_of, list_elem_of_filter in H as [_ H].
  destruct (threshold_error rule) as [e'|] eqn:He; [|done].
  intros [= ->]. by exists rule.
Qed.

(** What [float] raises. *)
Lemma threshold_error_kinds rule e :
  threshold_error rule = Some e → e ∈ [ValueError; TypeError; OverflowError].
Proof.
  unfold threshold_error, py_float.
  destruct (RoutingRule.spend_threshold rule) as [[z|f| |]|]; try done.
  - destruct (float_of_Z z); try done. intros [= <-]. do 2 right. left.
  - intros [= <-]. left.
  - intros [= <-]. right. left.
Qed.

Lemma scan_tiers_raise rules spend cs e :
  scan_tiers rules spend cs = Raise e →
  ∃ rule, rule ∈ rules ∧ threshold_error rule = Some e.
Proof.
  rewrite scan_tiers_first. intros (rule & Hin & He)%first_match_raise.
  exists rule. split; [by eapply tier_scan_stored|done].
Qed.

Lemma tier_scan_stored_threshold rules cs :
  Forall (λ r, threshold_error r = None) rules →
  Forall (λ r, threshold_error r = None) (tier_scan rules cs).
Proof.
  intros Hr. unfold tier_scan. induction cs as [|c cs IH]; [constructor|].
  cbn [fmap list_fmap mjoin list_join]. apply Forall_app. split; [|exact IH].
  rewrite Forall_forall in Hr. apply Forall_forall.
  intros r [_ Hin]%list_elem_of_filter. by apply Hr.
Qed.

(** [C2] The resolver leaves the store as it is. It scans the tiers of
    [candidates]: the four tiers [{department, type_code}], [{type_code}],
    [{department}], [{}] in this order, without those that would require an
    empty department or type code; for a non-empty department and type code
    this is the four-tier scan of the specification. In scan order it
    converts the threshold of each rule with [float], and it answers with
    the first rule whose threshold is absent or, as a double, at most the
    estimate (0 when absent); a stored value [float] refuses, met before such
    a rule, ends the resolution with the exception of [float]. When [float]
    converts every stored threshold, the answer is the first rule in scan
    order whose threshold is met. The first stored rule that matches both
    department and type code and ends the scan decides, wherever the
    type-only and catch-all rules are stored, and when no rule matching both
    ends the scan the answer is that of the three later tiers. An integer
    threshold is compared as the double nearest to it. *)
Theorem select_routing_rule_scans_tiers :
  (∀ department type_code spend d,
     select_routing_rule department type_code spend d
     = (d, first_match spend (tier_scan (routingrule d) (candidates department type_code))))
  ∧ (∀ department type_code,
       candidates department type_code
       = List.filter (forallb (λ kv, truthy kv.2)) (four_tiers department type_code))
  ∧ (∀ department type_code spend d,
       department ≠ "" → type_code ≠ "" →
       select_routing_rule department type_code spend d
       = (d, first_match spend
               (tier_scan (routingrule d) (four_tiers department type_code))))
  ∧ (∀ department type_code spend d,
       department ≠ "" → type_code ≠ "" →
       Forall (λ r, threshold_error r = None) (routingrule d) →
       select_routing_rule department type_code spend d
       = (d, Ok (spec_resolve (routingrule d) department type_code spend)))
  ∧ (∀ department type_code spend d rule,
       department ≠ "" → type_code ≠ "" →
       head (filter (λ r, ends_scan spend r
                          ∧ RoutingRule.department r = Some department
                          ∧ RoutingRule.type_code r = Some type_code)
               (routingrule d)) = Some rule →
       select_routing_rule department type_code spend d
       = (d, match threshold_error rule with
             | Some e => Raise e
             | None => Ok (Some rule)
             end))
  ∧ (∀ department type_code spend d,
       department ≠ "" → type_code ≠ "" →
       Forall (λ r, RoutingRule.department r = Some department
                    ∧ RoutingRule.type_code r = Some type_code →
                    ¬ ends_scan spend r) (routingrule d) →
       select_routing_rule department type_code spend d
       = (d, first_match spend
               (tier_scan (routingrule d)
                  [ [("type_code", type_code)];
                    [("department", department)];
                    [] ])))
  ∧ (∀ spend rule z,
       RoutingRule.spend_threshold rule = Some (ThrInt z) →
       threshold_error rule = None →
       threshold_met spend rule ↔ float_reaches spend (float_of_Z z)).
Proof.
  assert (Hgen : ∀ department type_code spend d,
            select_routing_rule department type_code spend d
            = (d, first_match spend
                    (tier_scan (routingrule d) (candidates department type_code)))).
  { intros. by rewrite select_routing_rule_run, scan_tiers_first. }
  assert (Hfirst : ∀ department type_code spend (rules : list RoutingRule.t),
            filter (ends_scan spend)
              (filter (matches [("department", department); ("type_code", type_code)]) rules)
            = filter (λ r, ends_scan spend r
                           ∧ RoutingRule.department r = Some department
                           ∧ RoutingRule.type_code r = Some type_code) rules).
  { intros. rewrite list_filter_filter. apply list_filter_iff.
    intros r. by rewrite matches_both. }
  split_and!.
  - exact Hgen.
  - intros department type_code. unfold candidates, four_tiers. simpl.
    by destruct (truthy department), (truthy type_code).
  - intros department type_code spend d Hd Ht.
    by rewrite Hgen, candidates_four_tiers.
  - intros department type_code spend d Hd Ht Hread.
    rewrite Hgen, candidates_four_tiers by done.
    by rewrite first_match_readable by by apply tier_scan_stored_threshold.
  - intros department type_code spend d rule Hd Ht Hrule.
    rewrite Hgen, candidates_four_tiers by done.
    unfold tier_scan, four_tiers. cbn [fmap list_fmap mjoin list_join].
    rewrite first_match_app. unfold first_match at 1. rewrite Hfirst, Hrule.
    by destruct (threshold_error rule).
  - intros department type_code spend d Hd Ht Hnone.
    rewrite Hgen, candidates_four_tiers by done.
    unfold tier_scan, four_tiers. cbn [fmap list_fmap mjoin list_join].
    rewrite first_match_app. unfold first_match at 1.
    rewrite Hfirst, filter_none; [done|].
    intros r Hr (Hthr & Hm). rewrite Forall_forall in Hnone. by apply (Hnone r Hr).
  - intros spend rule z Hz. unfold threshold_error, threshold_met. rewrite Hz.
    unfold py_float. destruct (float_of_Z z) as [| | |] eqn:E; intros He; try done.
    all: split; [by intros (f & [= <-] & ?)|intros ?; by eexists].
Qed.

Lemma select_routing_rule_witness :
  select_routing_rule "Eng" "CAPEX" (Some (float_of_Z 5000)) (tiebreak_store 1000)
  = (tiebreak_store 1000,
     first_match (Some (float_of_Z 5000))
       (tier_scan (routingrule (tiebreak_store 1000)) (four_tiers "Eng" "CAPEX")))
  ∧ select_routing_rule "Eng" "CAPEX" None (tiebreak_store 1000)
    = (tiebreak_store 1000,
       Ok (spec_resolve (routingrule (tiebreak_store 1000)) "Eng" "CAPEX" None))
  ∧ select_routing_rule "Eng" "CAPEX" (Some (float_of_Z 5000)) (tiebreak_store 1000)
    = (tiebreak_store 1000,
       match threshold_error (rule_eng_capex 1000) with
       | Some e => Raise e
       | None => Ok (Some (rule_eng_capex 1000))
       end)
  ∧ select_routing_rule "Eng" "CAPEX" (Some (float_of_Z 5000)) (tiebreak_store 10000)
    = (tiebreak_store 10000,
       first_match (Some (float_of_Z 5000))
         (tier_scan (routingrule (tiebreak_store 10000))
            [ [("type_code", "CAPEX")]; [("department", "Eng")]; [] ]))
  ∧ (threshold_met (Some (float_of_Z (2 ^ 53))) (rule_eng_capex (2 ^ 53 + 1))
     ↔ float_reaches (Some (float_of_Z (2 ^ 53))) (float_of_Z (2 ^ 53 + 1))).
Proof.
  destruct select_routing_rule_scans_tiers as (_ & _ & H3 & H4 & H5 & H6 & H7).
  split_and!.
  - apply H3; discriminate.
  - apply H4; [discriminate|discriminate|]. repeat constructor.
  - apply H5; [discriminate|discriminate|]. vm_compute. reflexivity.
  - apply H6; [discriminate|discriminate|].
    apply (bool_decide_unpack _). vm_compute. exact I.
  - apply (H7 _ _ (2 ^ 53 + 1)%Z); reflexivity.
Defined.

(** Against [C2] as stated: for an empty department the resolver scans two
    tiers, not four, and on a store holding a catch-all rule followed by a
    rule whose department is the empty string it answers with the catch-all
    rule, where the four-tier resolution answers with the other one, found in
    the tier [{department}]. *)
Lemma four_tiers_counterexample :
  candidates "" "CAPEX" = [ [("type_code", "CAPEX")]; [] ]
  ∧ select_routing_rule "" "CAPEX" None blank_store = (blank_store, Ok (Some rule_any))
  ∧ spec_resolve (routingrule blank_store) "" "CAPEX" None = Some rule_blank_department
  ∧ rule_any ≠ rule_blank_department.
Proof. split_and!; [reflexivity| | |discriminate]; vm_compute; reflexivity. Qed.

(** The comparison is made on doubles: an integer threshold of 2^53 + 1 is
    met by an estimate of 2^53, since [float] rounds it to 2^53, and the
    rule is selected; and a threshold that [float] cannot read fails the
    resolution. *)
Lemma threshold_conversion_examples :
  select_routing_rule "Eng" "CAPEX" (Some (float_of_Z (2 ^ 53)))
    (tiebreak_store (2 ^ 53 + 1))
  = (tiebreak_store (2 ^ 53 + 1), Ok (Some (rule_eng_capex (2 ^ 53 + 1))))
  ∧ float_of_Z (2 ^ 53 + 1) = float_of_Z (2 ^ 53)
  ∧ select_routing_rule "Eng" "CAPEX" (Some (float_of_Z 5000)) unreadable_store
    = (unreadable_store, Raise ValueError).
Proof. split_and!; vm_compute; reflexivity. Qed.

(** ** Object identifiers *)

Lemma hex_value_digit d : d < 16 → hex_value (hex_digit d) = Some d.
Proof.
  intros Hd. assert (E : d = N.of_nat (N.to_nat d)) by lia.
  assert (Hn : (N.to_nat d < 16)%nat) by lia.
  rewrite E. clear E Hd. generalize dependent (N.to_nat d). intros n Hn.
  do 16 (destruct n as [|n]; [reflexivity|]). lia.
Qed.

Lemma to_hex_length k n : length (to_hex k n) = k.
Proof.
  revert n. induction k as [|k IH]; intros n; [done|].
  simpl. rewrite length_app, IH. simpl. lia.
Qed.

Lemma of_hex_to_hex k : ∀ n a,
  fold_left of_hex_step (to_hex k n) (Some a) = Some (a * 16 ^ N.of_nat k + n mod 16 ^ N.of_nat k).
Proof.
  induction k as [|k IH]; intros n a.
  - simpl. rewrite N.mod_1_r. f_equal. lia.
  - cbn [to_hex]. rewrite fold_left_app, IH. cbn [fold_left of_hex_step].
    rewrite hex_value_digit by (apply N.mod_lt; lia).
    f_equal. rewrite Nat2N.inj_succ, N.pow_succ_r'.
    rewrite (N.Div0.mod_mul_r n 16 (16 ^ N.of_nat k)). lia.
Qed.

Lemma string_of_list_ascii_length l :
  String.length (String.string_of_list_ascii l) = length l.
Proof. induction l as [|c l IH]; simpl; [done|by rewrite IH]. Qed.

Lemma of_hex_none l : fold_left of_hex_step l None = None.
Proof. induction l as [|c l IH]; simpl; [done|by rewrite IH]. Qed.

Lemma of_hex_cons c l a :
  fold_left of_hex_step (c :: l) (Some a)
  = match hex_value c with
    | Some v => fold_left of_hex_step l (Some (a * 16 + v))
    | None => None
    end.
Proof.
  cbn [fold_left of_hex_step]. destruct (hex_value c); [done|apply of_hex_none].
Qed.

Lemma hex_value_not_space c v : hex_value c = Some v → is_space c = false.
Proof.
  unfold hex_value, is_space. cbv zeta. generalize (N_of_ascii c). intros n Hv.
  assert (Hn : 48 ≤ n).
  { revert Hv.
    repeat (destruct (_ && _) eqn:E;
            [apply andb_true_iff in E as [E%N.leb_le _]; intros _; lia|clear E]).
    done. }
  apply orb_false_iff. split; [apply N.eqb_neq; lia|].
  apply andb_false_iff. right. apply N.leb_gt. lia.
Qed.

(** On an even number of hexadecimal digits, without blanks, [fromhex] gives
    the bytes the digits spell. *)
Lemma fromhex_digits k : ∀ l a v,
  length l = (2 * k)%nat →
  fold_left of_hex_step l (Some a) = Some v →
  ∃ bs, fromhex l = Some bs ∧ length bs = k
        ∧ fold_left (λ a b, a * 256 + b) bs a = v.
Proof.
  induction k as [|k IH]; intros l a v Hlen Hv.
  - destruct l; [|done]. injection Hv as <-. by exists [].
  - destruct l as [|c [|c' l]]; [done|simpl in Hlen; lia|].
    rewrite of_hex_cons in Hv. destruct (hex_value c) as [top|] eqn:Htop; [|done].
    rewrite of_hex_cons in Hv. destruct (hex_value c') as [bot|] eqn:Hbot; [|done].
    destruct (IH l ((a * 16 + top) * 16 + bot) v) as (bs & Hbs & Hk & Hval);
      [simpl in Hlen; lia|exact Hv|].
    exists (top * 16 + bot :: bs). cbn [fromhex].
    rewrite (hex_value_not_space c top Htop), Htop, Hbot, Hbs.
    split_and!; [done|by rewrite length_cons, Hk|].
    cbn [fold_left]. rewrite <- Hval. f_equal. lia.
Qed.

Lemma ObjectId_parse_str o : o < oid_bound → ObjectId_parse (ObjectId_str o) = Some o.
Proof.
  intros Ho. unfold ObjectId_parse, ObjectId_str.
  rewrite (proj2 (N.ltb_lt _ _) Ho).
  rewrite string_of_list_ascii_length, to_hex_length, Nat.eqb_refl.
  rewrite String.list_ascii_of_string_of_list_ascii.
  destruct (fromhex_digits 12 (to_hex 24 o) 0 _ (to_hex_length 24 o) (of_hex_to_hex 24 o 0))
    as (bs & -> & Hlen & Hval).
  cbn [fmap option_fmap option_map]. unfold ObjectId_of_binary, be_value.
  rewrite Hlen, Hval. cbn [Nat.eqb]. f_equal.
  rewrite N.mod_small; [lia|exact Ho].
Qed.

Lemma to_hex_high k : ∀ a n, to_hex k (a * 16 ^ N.of_nat k + n) = to_hex k n.
Proof.
  induction k as [|k IH]; intros a n; [done|].
  cbn [to_hex]. rewrite Nat2N.inj_succ, N.pow_succ_r'.
  replace (a * (16 * 16 ^ N.of_nat k) + n) with (n + (a * 16 ^ N.of_nat k) * 16) by lia.
  rewrite N.div_add, N.Div0.mod_add by lia.
  by rewrite (N.add_comm (n / 16)), IH.
Qed.

Lemma be_value_snoc bs b : be_value (bs ++ [b]) = be_value bs * 256 + b.
Proof. unfold be_value. by rewrite fold_left_app. Qed.

Lemma be_value_bound bs :
  Forall (λ b, b < 256) bs → be_value bs < 256 ^ N.of_nat (length bs).
Proof.
  induction bs as [|b bs IH] using rev_ind; intros Hbs; [by compute|].
  apply Forall_app in Hbs as [Hbs Hb]. apply Forall_cons_1 in Hb as [Hb _].
  specialize (IH Hbs). rewrite be_value_snoc, length_app. cbn [length].
  replace (N.of_nat (length bs + 1)) with (N.succ (N.of_nat (length bs))) by lia.
  rewrite N.pow_succ_r'. lia.
Qed.

Lemma to_hex_bytes bs :
  Forall (λ b, b < 256) bs → to_hex (2 * length bs) (be_value bs) = hexlify bs.
Proof.
  unfold hexlify. induction bs as [|b bs IH] using rev_ind; intros Hbs; [done|].
  apply Forall_app in Hbs as [Hbs Hb]. apply Forall_cons_1 in Hb as [Hb _].
  rewrite be_value_snoc, length_app, fmap_app, join_app. cbn [length].
  replace (2 * (length bs + 1))%nat with (S (S (2 * length bs))) by lia.
  cbn [to_hex]. rewrite <- app_assoc. cbn [fmap list_fmap mjoin list_join app].
  replace ((be_value bs * 256 + b) / 16 / 16) with (be_value bs).
  2: { rewrite N.Div0.div_div. change (16 * 16) with 256.
       rewrite N.div_add_l, N.div_small by lia. lia. }
  rewrite (IH Hbs).
  replace (be_value bs * 256 + b) with (b + (be_value bs * 16) * 16) by lia.
  rewrite N.div_add, !N.Div0.mod_add by lia.
  rewrite (N.mod_small (b / 16)); [done|].
  apply N.Div0.div_lt_upper_bound. lia.
Qed.

(** The text of an identifier is the text of its bytes, whatever their
    number. *)
Lemma ObjectId_str_of_binary bs :
  Forall (λ b, b < 256) bs →
  ObjectId_str (ObjectId_of_binary bs) = String.string_of_list_ascii (hexlify bs).
Proof.
  intros Hbs. pose proof (be_value_bound bs Hbs) as Hv.
  unfold ObjectId_str, ObjectId_of_binary. f_equal.
  destruct (length bs =? 12)%nat eqn:E.
  - apply Nat.eqb_eq in E. rewrite E in Hv.
    rewrite (proj2 (N.ltb_lt _ _)) by exact Hv.
    rewrite <- (to_hex_bytes bs Hbs). by rewrite E.
  - rewrite (proj2 (N.ltb_ge _ _)) by lia.
    set (k := N.of_nat (length bs)) in *.
    replace (oid_bound + 256 ^ k + be_value bs - oid_bound) with (256 ^ k + be_value bs)
      by lia.
    assert (Hpow : 256 ^ k = 2 ^ (8 * k)) by (by rewrite N.pow_mul_r).
    assert (Hlog : N.log2 (256 ^ k + be_value bs) = 8 * k).
    { apply N.log2_unique; [lia|]. rewrite N.pow_succ_r', <- Hpow. lia. }
    rewrite Hlog, (N.mul_comm 8 k), N.div_mul by lia. subst k. rewrite Nat2N.id.
    replace (256 ^ N.of_nat (length bs))
      with (1 * 16 ^ N.of_nat (2 * length bs)).
    2: { rewrite Nat2N.inj_mul, N.pow_mul_r. change (16 ^ N.of_nat 2) with 256. lia. }
    rewrite to_hex_high. by apply to_hex_bytes.
Qed.

Lemma ObjectId_str_inj o1 o2 :
  o1 < oid_bound → o2 < oid_bound → ObjectId_str o1 = ObjectId_str o2 → o1 = o2.
Proof.
  intros H1 H2 E. apply ObjectId_parse_str in H1, H2. congruence.
Qed.

(** ** The stores the routes produce keep the workflow consistent *)

Section skeleton.
Context (P : Justification.t → Prop) `{!∀ x, Decision (P x)}.
Context (Q : ApprovalTask.t → Prop) `{!∀ x, Decision (Q x)}.

Lemma justification_ids_update s now l :
  Justification._id <$> update_first P (Justification.set_status s now) l
  = Justification._id <$> l.
Proof. by apply update_first_keys. Qed.

Lemma task_keys_update_status s now l :
  task_key <$> update_first Q (ApprovalTask.set_status s now) l = task_key <$> l.
Proof. by apply update_first_keys. Qed.

Lemma task_keys_update_info s reason now l :
  task_key <$> update_first Q (ApprovalTask.set_needs_info s reason now) l
  = task_key <$> l.
Proof. by apply update_first_keys. Qed.

Lemma task_keys_update_all s now l :
  task_key <$> update_all Q (ApprovalTask.set_status s now) l = task_key <$> l.
Proof. by apply update_all_keys. Qed.
End skeleton.

Ltac skeleton :=
  unfold same_skeleton, justification_ids, task_keys; crack;
  cbn [fst justification approvaltask next_oid];
  rewrite ?justification_ids_update, ?task_keys_update_status,
    ?task_keys_update_info, ?task_keys_update_all;
  (split_and!; [reflexivity|reflexivity|lia]).

Lemma approve_task_same_skeleton now task_id action d :
  same_skeleton d (approve_task now task_id action d).1.
Proof. unfold approve_task. skeleton. Qed.

Lemma reject_task_same_skeleton now task_id action d :
  same_skeleton d (reject_task now task_id action d).1.
Proof.
  unfold reject_task. destruct (negb _); [by split_and!|]. skeleton.
Qed.

Lemma request_info_same_skeleton now task_id action d :
  same_skeleton d (request_info now task_id action d).1.
Proof. unfold request_info. skeleton. Qed.

Lemma resubmit_same_skeleton now jid payload d :
  same_skeleton d (resubmit now jid payload d).1.
Proof. unfold resubmit. skeleton. Qed.

Lemma add_comment_same_skeleton now jid payload d :
  same_skeleton d (add_comment now jid payload d).1.
Proof. unfold add_comment. skeleton. Qed.

Lemma get_justification_same_store jid d : (get_justification jid d).1 = d.
Proof. unfold get_justification. by crack. Qed.

Lemma same_skeleton_consistent d d' :
  same_skeleton d d' → next_oid d' ≤ oid_bound →
  store_consistent d → store_consistent d'.
Proof.
  intros (Hj & Ht & Hn) Hb (_ & H1 & H2 & H3 & H4 & H5).
  unfold store_consistent. rewrite Hj, Ht. split_and!; [done| | |done|done|done].
  - eapply Forall_impl; [exact H1|]. intros; simpl in *; lia.
  - eapply Forall_impl; [exact H2|]. intros; simpl in *; lia.
Qed.

Lemma new_tasks_keys now jid_str approvers : ∀ idx o,
  Forall (λ k, o ≤ k.1 < o + N.of_nat (length approvers) ∧ k.2 = jid_str)
    (task_key <$> new_tasks now jid_str idx o approvers)
  ∧ NoDup (task_key <$> new_tasks now jid_str idx o approvers).*1.
Proof.
  induction approvers as [|email rest IH]; intros idx o.
  - split; [constructor|apply NoDup_nil_2].
  - destruct (IH (S idx) (N.succ o)) as [Hall Hnd].
    cbn [new_tasks length]. rewrite !fmap_cons, Nat2N.inj_succ.
    cbn [task_key ApprovalTask._id ApprovalTask.justification_id fst snd].
    split.
    + constructor; [unfold task_key; cbn [fst snd ApprovalTask._id]; split; [lia|done]|].
      eapply Forall_impl; [exact Hall|]. intros k [Hk ?]. split; [lia|done].
    + apply NoDup_cons. split; [|exact Hnd].
      intros Hin. apply list_elem_of_fmap in Hin as (k & E & Hk).
      rewrite Forall_forall in Hall. destruct (Hall k Hk) as [[Hlo _] _].
      unfold ObjectId in *. lia.
Qed.

(** The store a submission leaves, whether its resolution answers or
    raises: the justification, the tasks of the approvers it got as far as
    resolving, and what it logged and queued. *)
Lemma create_justification_store now payload d :
  ∃ approvers logged mails n,
    (create_justification now payload d).1
    = mkDB (justification d
              ++ [Justification.mk (next_oid d) payload "PendingApproval" now now])
           (approvaltask d
              ++ new_tasks now (ObjectId_str (next_oid d)) 0 (N.succ (next_oid d)) approvers)
           (comment d) (auditlog d ++ logged) (emailoutbox d ++ mails) (routingrule d) n
    ∧ N.succ (next_oid d) + N.of_nat (length approvers) ≤ n
    ∧ Forall (λ a, AuditLog.entity_id a = ObjectId_str (next_oid d)) logged.
Proof.
  destruct (scan_tiers (routingrule d) (JustificationCreate.cost_estimate payload)
              (candidates (JustificationCreate.department payload)
                 (JustificationCreate.type_code payload))) as [rule|e] eqn:Hrule.
  - rewrite (create_justification_run now payload d rule Hrule). cbv zeta. cbn [fst].
    eexists (resolved_approvers rule), [_], _, _. split; [reflexivity|].
    split; [destruct (resolved_approvers rule); lia|]. by apply Forall_singleton.
  - rewrite (create_justification_raise now payload d e Hrule). cbn [fst].
    exists [], [], [], (N.succ (next_oid d)). rewrite !app_nil_r.
    split; [done|]. split; [simpl; lia|constructor].
Qed.

Lemma create_justification_consistent now payload d :
  store_consistent d →
  next_oid (create_justification now payload d).1 ≤ oid_bound →
  store_consistent (create_justification now payload d).1
  ∧ next_oid d ≤ next_oid (create_justification now payload d).1.
Proof.
  destruct (create_justification_store now payload d)
    as (approvers & logged & mails & n & -> & Ho & _).
  cbn [fst next_oid]. intros (_ & H1 & H2 & H3 & H4 & H5) Hb.
  destruct (new_tasks_keys now (ObjectId_str (next_oid d)) approvers 0 (N.succ (next_oid d)))
    as [Hnew Hnd].
  split; [|lia].
  unfold store_consistent, justification_ids, task_keys in *.
  cbn [justification approvaltask next_oid]. rewrite !fmap_app.
  cbn [fmap list_fmap Justification._id].
  split_and!.
  - exact Hb.
  - apply Forall_app. split; [|constructor; [lia|constructor]].
    eapply Forall_impl; [exact H1|]. intros; simpl in *; lia.
  - apply Forall_app. split.
    + eapply Forall_impl; [exact H2|]. intros; simpl in *; lia.
    + eapply Forall_impl; [exact Hnew|]. intros k [Hk _]. simpl in *. lia.
  - apply NoDup_app. split_and!; [done| |apply NoDup_singleton].
    intros x Hx ->%list_elem_of_singleton.
    rewrite Forall_forall in H1. specialize (H1 _ Hx). simpl in H1. lia.
  - apply NoDup_app. split_and!; [done| |done].
    intros x Hx Hx'.
    apply list_elem_of_fmap in Hx as (k & -> & Hk).
    apply list_elem_of_fmap in Hx' as (k' & E & Hk').
    rewrite Forall_forall in H2, Hnew.
    specialize (H2 _ Hk). destruct (Hnew _ Hk') as [[Hlo _] _].
    unfold ObjectId in *. cbn [fst] in *. lia.
  - apply Forall_app. split.
    + eapply Forall_impl; [exact H5|]. intros k (jo & Hjo & E).
      exists jo. split; [|done]. apply elem_of_app. by left.
    + eapply Forall_impl; [exact Hnew|]. intros k [_ E].
      exists (next_oid d). split; [|done]. apply elem_of_app. right. by left.
Qed.

Lemma serve_consistent r d :
  store_consistent d → next_oid (serve r d) ≤ oid_bound →
  store_consistent (serve r d) ∧ next_oid d ≤ next_oid (serve r d).
Proof.
  intros Hd Hb.
  assert (Hsk : same_skeleton d (serve r d) →
                store_consistent (serve r d) ∧ next_oid d ≤ next_oid (serve r d)).
  { intros Hsk. split; [by eapply same_skeleton_consistent|apply Hsk]. }
  destruct r; cbn [serve] in *.
  - by apply create_justification_consistent.
  - rewrite get_justification_same_store. by split.
  - apply Hsk, approve_task_same_skeleton.
  - apply Hsk, reject_task_same_skeleton.
  - apply Hsk, request_info_same_skeleton.
  - apply Hsk, resubmit_same_skeleton.
  - apply Hsk, add_comment_same_skeleton.
Qed.

Lemma serve_next_oid r d : next_oid d ≤ next_oid (serve r d).
Proof.
  destruct r; cbn [serve].
  - destruct (create_justification_store now payload d)
      as (approvers & logged & mails & n & -> & Ho & _).
    cbn [next_oid]. lia.
  - by rewrite get_justification_same_store.
  - apply approve_task_same_skeleton.
  - apply reject_task_same_skeleton.
  - apply request_info_same_skeleton.
  - apply resubmit_same_skeleton.
  - apply add_comment_same_skeleton.
Qed.

Lemma serve_all_next_oid rs : ∀ d, next_oid d ≤ next_oid (serve_all rs d).
Proof.
  induction rs as [|r rs IH]; intros d; simpl; [done|].
  etrans; [apply (serve_next_oid r)|apply IH].
Qed.

Lemma store_consistent_initial rules : store_consistent (mkDB [] [] [] [] [] rules 0).
Proof.
  unfold store_consistent, justification_ids, task_keys, oid_bound. simpl.
  split_and!; [lia|constructor..].
Qed.

Lemma serve_all_consistent rs : ∀ d,
  store_consistent d → next_oid (serve_all rs d) ≤ oid_bound →
  store_consistent (serve_all rs d).
Proof.
  induction rs as [|r rs IH]; intros d Hd Hb; [done|].
  simpl in *. apply IH; [|done].
  apply serve_consistent; [done|].
  etrans; [apply serve_all_next_oid|exact Hb].
Qed.

Lemma store_consistent_task_ids d :
  store_consistent d → NoDup (ApprovalTask._id <$> approvaltask d).
Proof.
  intros (_ & _ & _ & _ & H & _). unfold task_keys in H.
  by rewrite <- list_fmap_compose in H.
Qed.

Lemma store_consistent_task d o t :
  store_consistent d → stored_task d o = Some t →
  ∃ jo j, ObjectId_parse (ApprovalTask.justification_id t) = Some jo
          ∧ stored_justification d jo = Some j.
Proof.
  intros (Hb & H1 & _ & H3 & _ & H5) Ht.
  apply head_Some_elem_of, list_elem_of_filter in Ht as [_ Ht].
  rewrite Forall_forall in H5.
  destruct (H5 (task_key t)) as (jo & Hjo & E).
  { unfold task_keys. by apply list_elem_of_fmap_2. }
  simpl in E.
  assert (Hlt : jo < oid_bound).
  { rewrite Forall_forall in H1. specialize (H1 jo Hjo). simpl in H1. lia. }
  unfold justification_ids in *.
  apply list_elem_of_fmap in Hjo as (j & -> & Hj).
  exists (Justification._id j), j. split.
  - rewrite E. by apply ObjectId_parse_str.
  - by apply (head_filter_unique Justification._id).
Qed.

Lemma store_consistent_fresh d :
  store_consistent d → next_oid d < oid_bound →
  Forall (λ t, ApprovalTask.justification_id t ≠ ObjectId_str (next_oid d))
    (approvaltask d).
Proof.
  intros (_ & H1 & _ & _ & _ & H5) Hb. apply Forall_forall. intros t Ht E.
  rewrite Forall_forall in H5.
  destruct (H5 (task_key t)) as (jo & Hjo & E').
  { unfold task_keys. by apply list_elem_of_fmap_2. }
  simpl in E'. rewrite Forall_forall in H1. specialize (H1 jo Hjo). simpl in H1.
  assert (jo = next_oid d); [|unfold ObjectId in *; lia].
  apply ObjectId_str_inj; [lia|done|congruence].
Qed.

(** ** From submission to final approval *)

Lemma store_consistent_task_bound d t :
  store_consistent d → t ∈ approvaltask d → ApprovalTask._id t < oid_bound.
Proof.
  intros (Hb & _ & H2 & _) Ht. rewrite Forall_forall in H2.
  assert (Hk : task_key t ∈ task_keys d) by by apply list_elem_of_fmap_2.
  specialize (H2 _ Hk). simpl in H2. lia.
Qed.

(** In a consistent store a stored task can always be approved, rejected with
    a reason, or sent back for more information. *)
Lemma consistent_store_task_actions d o t task_id :
  store_consistent d →
  ObjectId_parse task_id = Some o → stored_task d o = Some t →
  (∀ now action, (approve_task now task_id action d).2 = Ok ok_response)
  ∧ (∀ now action, truthy_opt (ApproverAction.comment action) = true →
                   (reject_task now task_id action d).2 = Ok ok_response)
  ∧ (∀ now action, (request_info now task_id action d).2 = Ok ok_response).
Proof.
  intros Hd Hp Ht. destruct (store_consistent_task d o t Hd Ht) as (jo & j & Hjp & Hj).
  split_and!.
  - intros now action.
    destruct (approve_task_step now task_id action d o t jo j) as (d1 & -> & _); done.
  - intros now action (c & Hc & Hne)%truthy_opt_true.
    by rewrite (reject_task_run now task_id action d c o t jo j).
  - intros now action. by rewrite (request_info_run now task_id action d o t jo j).
Qed.

(** [X21] After a submission that resolves at least one approver, approving
    the tasks it created, each once and in any order, ends with the new
    justification [Approved]. *)
Lemma submitted_tasks_approved_in_any_order now payload d calls :
  store_consistent d →
  let d1 := (create_justification now payload d).1 in
  let jo := next_oid d in
  let created :=
    filter (λ t, ApprovalTask.justification_id t = ObjectId_str jo) (approvaltask d1) in
  next_oid d1 ≤ oid_bound →
  created ≠ [] →
  (λ call, call.1.2) <$> calls ≡ₚ (λ t, ObjectId_str (ApprovalTask._id t)) <$> created →
  ∃ d', approve_seq calls d1 = (d', (λ _, Ok ok_response) <$> calls)
    ∧ Justification.status <$> stored_justification d' jo = Some "Approved"
    ∧ (∀ t, t ∈ approvaltask d' → ApprovalTask.justification_id t = ObjectId_str jo →
            ApprovalTask.status t = "Approved").
Proof.
  intros Hd d1 jo created Hb Hne Hperm.
  destruct (create_justification_consistent now payload d Hd Hb) as [Hd1 _].
  destruct (create_justification_store now payload d)
    as (approvers & logged & mails & n & Estore & Hn & _).
  assert (Hjo : jo < oid_bound).
  { subst jo d1. revert Hb. rewrite Estore. cbn [next_oid]. lia. }
  set (J := Justification.mk jo payload "PendingApproval" now now).
  assert (HJ : stored_justification d1 jo = Some J).
  { apply (head_filter_unique Justification._id _ J); [apply Hd1|].
    subst d1. rewrite Estore. cbn [justification].
    apply elem_of_app. right. by left. }
  assert (Hcreated : ∀ tid, tid ∈ (λ t, ObjectId_str (ApprovalTask._id t)) <$> created →
            ∃ t, t ∈ approvaltask d1 ∧ ApprovalTask.justification_id t = ObjectId_str jo
                 ∧ tid = ObjectId_str (ApprovalTask._id t)
                 ∧ ObjectId_parse tid = Some (ApprovalTask._id t)).
  { intros tid (t & -> & [Hjid Ht]%list_elem_of_filter)%list_elem_of_fmap.
    exists t. split_and!; [done..|].
    apply ObjectId_parse_str. by eapply store_consistent_task_bound. }
  destruct (approve_calls_complete (ObjectId_str jo) jo J calls d1)
    with (calls' := calls) as (d' & Hrun & Hst & Hall & _).
  - by apply ObjectId_parse_str.
  - exact HJ.
  - by apply store_consistent_task_ids.
  - intros ->. apply Permutation_nil_l in Hperm. symmetry in Hperm.
    by apply fmap_nil_inv in Hperm.
  - apply Forall_forall. intros call Hcall.
    destruct (Hcreated call.1.2) as (t & Ht & Hjid & _ & Hp).
    { rewrite <- Hperm. by apply (list_elem_of_fmap_2 (λ call, call.1.2)). }
    exists (ApprovalTask._id t), t. split_and!; [done| |done].
    apply stored_task_unique; [by apply store_consistent_task_ids|done].
  - intros t Ht Hjid _.
    assert (Hin : ObjectId_str (ApprovalTask._id t)
                  ∈ (λ t, ObjectId_str (ApprovalTask._id t)) <$> created).
    { apply (list_elem_of_fmap_2 (λ t, ObjectId_str (ApprovalTask._id t))).
      by apply list_elem_of_filter. }
    rewrite <- Hperm in Hin. apply list_elem_of_fmap in Hin as (call & E & Hcall).
    exists call. split; [done|]. rewrite <- E.
    apply ObjectId_parse_str. by eapply store_consistent_task_bound.
  - done.
  - by exists d'.
Qed.

(** * Further properties of the routes *)

(** ** What no request undoes *)

Lemma create_justification_grows now payload d :
  let d' := (create_justification now payload d).1 in
  auditlog d `prefix_of` auditlog d' ∧ emailoutbox d `prefix_of` emailoutbox d'
  ∧ comment d `prefix_of` comment d' ∧ routingrule d' = routingrule d
  ∧ justification d `prefix_of` justification d'
  ∧ approvaltask d `prefix_of` approvaltask d'.
Proof.
  cbv zeta. destruct (create_justification_store now payload d)
    as (approvers & logged & mails & n & -> & _ & _).
  cbn [fst justification approvaltask comment auditlog emailoutbox routingrule].
  split_and!; try reflexivity; by apply prefix_app_r.
Qed.

(** [X1] No request of the workflow removes or rewrites what the log
    collections hold: whatever the request and whether it answers or raises,
    the audit log, the outbox and the comments it finds are a prefix of those
    it leaves, the routing rules are unchanged, and the justifications and
    the tasks keep their places, their identifiers and (for tasks) their
    justification, new ones coming after them. *)
Theorem serve_is_append_only r d :
  auditlog d `prefix_of` auditlog (serve r d)
  ∧ emailoutbox d `prefix_of` emailoutbox (serve r d)
  ∧ comment d `prefix_of` comment (serve r d)
  ∧ routingrule (serve r d) = routingrule d
  ∧ justification_ids d `prefix_of` justification_ids (serve r d)
  ∧ task_keys d `prefix_of` task_keys (serve r d).
Proof.
  assert (Hsk : ∀ d', same_skeleton d d' →
            justification_ids d `prefix_of` justification_ids d'
            ∧ task_keys d `prefix_of` task_keys d').
  { intros d' (-> & -> & _). by split. }
  destruct r; cbn [serve].
  - destruct (create_justification_grows now payload d) as (H1 & H2 & H3 & H4 & H5 & H6).
    split_and!; [done..| |].
    + unfold justification_ids. destruct H5 as [k ->]. rewrite fmap_app.
      by apply prefix_app_r.
    + unfold task_keys. destruct H6 as [k ->]. rewrite fmap_app.
      by apply prefix_app_r.
  - rewrite get_justification_same_store. by split_and!.
  - destruct (Hsk _ (approve_task_same_skeleton now task_id action d)) as [H5 H6].
    split_and!; [| | | |exact H5|exact H6]; unfold approve_task; crack;
      cbn [fst comment auditlog emailoutbox routingrule];
      try reflexivity; repeat apply prefix_app_r; reflexivity.
  - destruct (Hsk _ (reject_task_same_skeleton now task_id action d)) as [H5 H6].
    split_and!; [| | | |exact H5|exact H6]; unfold reject_task;
      (destruct (negb _); [reflexivity|]); crack;
      cbn [fst comment auditlog emailoutbox routingrule];
      try reflexivity; repeat apply prefix_app_r; reflexivity.
  - destruct (Hsk _ (request_info_same_skeleton now task_id action d)) as [H5 H6].
    split_and!; [| | | |exact H5|exact H6]; unfold request_info; crack;
      cbn [fst comment auditlog emailoutbox routingrule];
      try reflexivity; repeat apply prefix_app_r; reflexivity.
  - destruct (Hsk _ (resubmit_same_skeleton now jid payload d)) as [H5 H6].
    split_and!; [| | | |exact H5|exact H6]; unfold resubmit; crack;
      cbn [fst comment auditlog emailoutbox routingrule];
      try reflexivity; repeat apply prefix_app_r; reflexivity.
  - destruct (Hsk _ (add_comment_same_skeleton now jid payload d)) as [H5 H6].
    split_and!; [| | | |exact H5|exact H6]; unfold add_comment; crack;
      cbn [fst comment auditlog emailoutbox routingrule];
      try reflexivity; repeat apply prefix_app_r; reflexivity.
Qed.

(** ** Failures *)

(** A submission fails only when [float] refuses the threshold of a stored
    rule. *)
Lemma create_justification_failure now payload d e :
  raised (create_justification now payload d) = Some e →
  ∃ rule, rule ∈ routingrule d ∧ threshold_error rule = Some e.
Proof.
  destruct (scan_tiers (routingrule d) (JustificationCreate.cost_estimate payload)
              (candidates (JustificationCreate.department payload)
                 (JustificationCreate.type_code payload))) as [rule|e'] eqn:Hrule.
  - by rewrite (create_justification_run now payload d rule Hrule).
  - rewrite (create_justification_raise now payload d e' Hrule).
    intros [= <-]. by eapply scan_tiers_raise.
Qed.

Ltac fails :=
  crack; cbn [fst snd]; try discriminate;
  intros [= <- <-]; (split; [reflexivity|]); auto.

(** [X2] A request that ends in an [HTTPException] has written nothing: the
    store is the one it found. The status is 404, or 400 for a rejection
    whose comment is missing or empty. *)
Theorem http_exception_leaves_store_unchanged r d status detail :
  failure r d = Some (HTTPException status detail) →
  serve r d = d
  ∧ (status = 404%nat
     ∨ status = 400%nat
       ∧ ∃ now task_id action,
           r = RejectTask now task_id action
           ∧ truthy_opt (ApproverAction.comment action) = false).
Proof.
  destruct r; unfold failure; [|unfold raised; cbn [serve]..].
  - intros (rule & _ & He%threshold_error_kinds)%create_justification_failure.
    repeat (apply elem_of_cons in He as [He|He]; [discriminate He|]).
    by apply elem_of_nil in He.
  - unfold get_justification. fails.
  - unfold approve_task. fails.
  - unfold reject_task. destruct (truthy_opt _) eqn:Hc; cbn [negb].
    + fails.
    + intros [= <- <-]. split; [done|]. right. split; [done|]. by eexists _, _, _.
  - unfold request_info. fails.
  - unfold resubmit. fails.
  - unfold add_comment. fails.
Qed.

Lemma http_exception_leaves_store_unchanged_witness :
  serve (ApproveTask 8%Z (ObjectId_str 99) (ApproverAction.mk "a@x" None)) example_submitted
  = example_submitted
  ∧ (404%nat = 404%nat
     ∨ 404%nat = 400%nat
       ∧ ∃ now task_id action,
           ApproveTask 8%Z (ObjectId_str 99) (ApproverAction.mk "a@x" None)
           = RejectTask now task_id action
           ∧ truthy_opt (ApproverAction.comment action) = false).
Proof.
  apply (http_exception_leaves_store_unchanged
           (ApproveTask 8%Z (ObjectId_str 99) (ApproverAction.mk "a@x" None))
           example_submitted 404 "Task not found").
  vm_compute. reflexivity.
Defined.



Lemma task_refs_by_text (ids : list ObjectId) (keys : list (ObjectId * string)) :
  Forall (λ k, k.2 ∈ ObjectId_str <$> ids) keys →
  Forall (λ k, ∃ jo, jo ∈ ids ∧ k.2 = ObjectId_str jo) keys.
Proof.
  intros H. eapply Forall_impl; [exact H|].
  intros k (jo & -> & Hjo)%list_elem_of_fmap. by exists jo.
Qed.

Ltac consistent_by_computation :=
  unfold store_consistent;
  split_and!;
  [ vm_compute; discriminate
  | vm_compute; repeat constructor
  | vm_compute; repeat constructor
  | apply (bool_decide_unpack _); vm_compute; exact I
  | apply (bool_decide_unpack _); vm_compute; exact I
  | apply task_refs_by_text, (bool_decide_unpack _); vm_compute; exact I ].


(** ** Stores reached from an empty workflow *)

(** [X4] Starting from a store with routing rules only, whatever requests are
    served and however they end, as long as the identifier supply is not
    exhausted: no two justifications and no two tasks share an identifier,
    and every task refers to a stored justification, by the text of its
    identifier, so that the lookup of the owning justification made by the
    task routes succeeds. *)
Theorem served_stores_are_consistent rules rs :
  let d := serve_all rs (mkDB [] [] [] [] [] rules 0) in
  next_oid d ≤ oid_bound →
  NoDup (Justification._id <$> justification d)
  ∧ NoDup (ApprovalTask._id <$> approvaltask d)
  ∧ ∀ t, t ∈ approvaltask d →
      ∃ j, j ∈ justification d
        ∧ ApprovalTask.justification_id t = ObjectId_str (Justification._id j)
        ∧ ObjectId_parse (ApprovalTask.justification_id t) = Some (Justification._id j)
        ∧ stored_justification d (Justification._id j) = Some j.
Proof.
  intros d Hb.
  assert (Hd : store_consistent d).
  { apply serve_all_consistent; [apply store_consistent_initial|exact Hb]. }
  split_and!.
  - apply Hd.
  - by apply store_consistent_task_ids.
  - intros t Ht.
    pose proof (stored_task_unique d t (store_consistent_task_ids d Hd) Ht) as Hst.
    destruct (store_consistent_task d _ t Hd Hst) as (jo & j & Hjp & Hj).
    destruct (head_filter_split Justification._id _ _ _ Hj) as (l1 & l2 & E & _ & Hjo).
    exists j. subst jo. split_and!; [|  |done|done].
    + rewrite E. apply elem_of_app. right. by left.
    + destruct Hd as (_ & _ & _ & _ & _ & H5). rewrite Forall_forall in H5.
      destruct (H5 (task_key t)) as (jo & Hjo & E').
      { unfold task_keys. by apply list_elem_of_fmap_2. }
      simpl in E'. rewrite E'. f_equal.
      assert (Hlt : jo < oid_bound).
      { destruct (serve_all_consistent rs _ (store_consistent_initial rules) Hb)
          as (Hle & H1 & _).
        rewrite Forall_forall in H1. specialize (H1 jo Hjo). simpl in H1.
        fold d in Hle, H1. lia. }
      rewrite E', (ObjectId_parse_str jo Hlt) in Hjp. by injection Hjp.
Qed.

Lemma served_stores_are_consistent_witness :
  let d := serve_all [CreateJustification 7%Z example_payload;
                      ApproveTask 8%Z (ObjectId_str 2) (ApproverAction.mk "b@x" None)]
             (mkDB [] [] [] [] [] [example_rule] 0) in
  NoDup (Justification._id <$> justification d)
  ∧ NoDup (ApprovalTask._id <$> approvaltask d)
  ∧ ∀ t, t ∈ approvaltask d →
      ∃ j, j ∈ justification d
        ∧ ApprovalTask.justification_id t = ObjectId_str (Justification._id j)
        ∧ ObjectId_parse (ApprovalTask.justification_id t) = Some (Justification._id j)
        ∧ stored_justification d (Justification._id j) = Some j.
Proof.
  apply (served_stores_are_consistent [example_rule]
           [CreateJustification 7%Z example_payload;
            ApproveTask 8%Z (ObjectId_str 2) (ApproverAction.mk "b@x" None)]).
  vm_compute. discriminate.
Defined.

(** ** What the resolver answers *)

Lemma tier_scan_app rules cs1 cs2 :
  tier_scan rules (cs1 ++ cs2) = tier_scan rules cs1 ++ tier_scan rules cs2.
Proof.
  unfold tier_scan. by rewrite fmap_app, join_app.
Qed.

Lemma tier_scan_catch_all rules : tier_scan rules [[]] = rules.
Proof.
  unfold tier_scan. cbn [fmap list_fmap mjoin list_join]. rewrite app_nil_r.
  apply filter_all, Forall_forall. intros r _. constructor.
Qed.

Lemma candidates_end department type_code :
  ∃ cs, candidates department type_code = cs ++ [[]]
        ∧ Forall (λ c, c ∈ [ [("department", department); ("type_code", type_code)];
                             [("type_code", type_code)];
                             [("department", department)] ]) cs.
Proof.
  unfold candidates.
  destruct (truthy department), (truthy type_code); cbn [andb app];
    [eexists [_; _; _]|eexists [_]|eexists [_]|eexists []];
    (split; [reflexivity|]); repeat constructor.
Qed.

Lemma first_match_none spend l :
  first_match spend l = Ok None ↔ Forall (λ r, ¬ ends_scan spend r) l.
Proof.
  unfold first_match. split.
  - destruct (head (filter (ends_scan spend) l)) as [rule|] eqn:H.
    { by destruct (threshold_error rule). }
    intros _. apply Forall_forall. intros r Hr Hends.
    assert (Hin : r ∈ filter (ends_scan spend) l) by by apply list_elem_of_filter.
    destruct (filter _ _) as [|x k]; [by apply elem_of_nil in Hin|done].
  - intros Hall. rewrite filter_none; [done|].
    intros r Hr. rewrite Forall_forall in Hall. by apply Hall.
Qed.

Lemma first_match_some spend l rule :
  first_match spend l = Ok (Some rule) → rule ∈ l ∧ threshold_met spend rule.
Proof.
  unfold first_match.
  destruct (head (filter (ends_scan spend) l)) as [r|] eqn:H; [|done].
  apply head_Some_elem_of, list_elem_of_filter in H as [Hends H].
  destruct (threshold_error r) as [e|] eqn:He; [done|]. intros [= <-].
  split; [done|]. destruct Hends as [?|[e He']]; [done|congruence].
Qed.

(** [X5] The resolver never changes the store. It answers with a stored rule
    whose threshold, as [float] converts it, is met; or with none, exactly
    when [float] converts the threshold of every stored rule and none is
    met; or it raises what [float] raises on the threshold of a stored rule
    ([ValueError], [TypeError] or [OverflowError]). When [float] converts
    every stored threshold it answers, and with none exactly when no stored
    rule has its threshold met: the department and the type code of a
    request then decide which rule comes first, never whether one is
    found. *)
Theorem select_routing_rule_outcomes department type_code spend d :
  ∃ answer,
    select_routing_rule department type_code spend d = (d, answer)
    ∧ (answer = Ok None ↔ Forall (λ r, ¬ ends_scan spend r) (routingrule d))
    ∧ (∀ r, answer = Ok (Some r) → r ∈ routingrule d ∧ threshold_met spend r)
    ∧ (∀ e, answer = Raise e →
            e ∈ [ValueError; TypeError; OverflowError]
            ∧ ∃ r, r ∈ routingrule d ∧ threshold_error r = Some e)
    ∧ (Forall (λ r, threshold_error r = None) (routingrule d) →
       ∃ rule, answer = Ok rule
               ∧ (rule = None ↔ Forall (λ r, ¬ threshold_met spend r) (routingrule d))).
Proof.
  eexists. split; [apply select_routing_rule_run|].
  rewrite scan_tiers_first.
  destruct (candidates_end department type_code) as (cs & -> & _).
  rewrite tier_scan_app, tier_scan_catch_all.
  set (l := tier_scan (routingrule d) cs ++ routingrule d).
  assert (Hl : ∀ r, r ∈ l ↔ r ∈ routingrule d).
  { intros r. unfold l. rewrite elem_of_app. split; [|by right].
    intros [Hr|Hr]; [by eapply tier_scan_stored|done]. }
  assert (Hnone : first_match spend l = Ok None
                  ↔ Forall (λ r, ¬ ends_scan spend r) (routingrule d)).
  { rewrite first_match_none, !Forall_forall. split; intros H r Hr; by apply H, Hl. }
  split_and!.
  - exact Hnone.
  - intros r [Hr Hmet]%first_match_some. split; [by apply Hl|done].
  - intros e (r & Hr & He)%first_match_raise.
    split; [by eapply threshold_error_kinds|]. exists r. split; [by apply Hl|done].
  - intros Hread. rewrite first_match_readable.
    2: { apply Forall_forall. intros r Hr%Hl. rewrite Forall_forall in Hread.
         by apply Hread. }
    eexists. split; [reflexivity|]. rewrite !Forall_forall. split.
    + intros Hhead r Hr Hmet.
      assert (Hin : r ∈ filter (threshold_met spend) l).
      { apply list_elem_of_filter. split; [done|by apply Hl]. }
      destruct (filter _ _) as [|x k]; [by apply elem_of_nil in Hin|done].
    + intros Hall. rewrite filter_none; [done|]. intros r Hr%Hl. by apply Hall.
Qed.

Lemma select_routing_rule_outcomes_witness :
  ∃ rule, first_match (Some (float_of_Z 5000))
            (tier_scan (routingrule (tiebreak_store 10000)) (candidates "Eng" "CAPEX"))
          = Ok rule
          ∧ (rule = None
             ↔ Forall (λ r, ¬ threshold_met (Some (float_of_Z 5000)) r)
                 (routingrule (tiebreak_store 10000))).
Proof.
  destruct (select_routing_rule_outcomes "Eng" "CAPEX" (Some (float_of_Z 5000))
              (tiebreak_store 10000)) as (answer & Hrun & _ & _ & _ & Hread).
  rewrite select_routing_rule_run, scan_tiers_first in Hrun. injection Hrun as <-.
  apply Hread. repeat constructor.
Defined.

(** [X6] When no stored rule names the department or the type code of the
    request, the resolver falls back on the whole collection: it goes
    through the stored rules in store order and answers with the first whose
    threshold is met, even if that rule is written for another department or
    type, unless [float] refuses a threshold before it. *)
Theorem select_routing_rule_falls_back_on_any_rule department type_code spend d :
  Forall (λ r, RoutingRule.department r ≠ Some department
               ∧ RoutingRule.type_code r ≠ Some type_code) (routingrule d) →
  select_routing_rule department type_code spend d
  = (d, first_match spend (routingrule d))
  ∧ (Forall (λ r, threshold_error r = None) (routingrule d) →
     select_routing_rule department type_code spend d
     = (d, Ok (head (filter (threshold_met spend) (routingrule d))))).
Proof.
  intros Hno.
  assert (E : select_routing_rule department type_code spend d
              = (d, first_match spend (routingrule d))).
  { rewrite select_routing_rule_run, scan_tiers_first.
    destruct (candidates_end department type_code) as (cs & -> & Hcs).
    rewrite tier_scan_app, tier_scan_catch_all.
    assert (E : tier_scan (routingrule d) cs = []); [|by rewrite E].
    unfold tier_scan. apply join_nil_2, Forall_fmap.
    eapply Forall_impl; [exact Hcs|]. intros c Hc. cbv beta. unfold compose.
    apply filter_none. intros r Hr Hm. rewrite Forall_forall in Hno.
    destruct (Hno r Hr) as [Hd Ht]. unfold matches in Hm.
    repeat (apply elem_of_cons in Hc as [->|Hc]); [| | |by apply elem_of_nil in Hc].
    - apply Forall_cons in Hm as [Hm _]. by apply Hd.
    - apply Forall_cons in Hm as [Hm _]. by apply Ht.
    - apply Forall_cons in Hm as [Hm _]. by apply Hd. }
  split; [exact E|]. intros Hread. by rewrite E, first_match_readable.
Qed.

Lemma select_routing_rule_falls_back_on_any_rule_witness :
  select_routing_rule "Eng" "CAPEX" (Some (float_of_Z 5000)) sales_store
  = (sales_store, first_match (Some (float_of_Z 5000)) (routingrule sales_store))
  ∧ (Forall (λ r, threshold_error r = None) (routingrule sales_store) →
     select_routing_rule "Eng" "CAPEX" (Some (float_of_Z 5000)) sales_store
     = (sales_store,
        Ok (head (filter (threshold_met (Some (float_of_Z 5000)))
                    (routingrule sales_store))))).
Proof.
  apply (select_routing_rule_falls_back_on_any_rule "Eng" "CAPEX"
           (Some (float_of_Z 5000)) sales_store).
  repeat constructor; discriminate.
Defined.

(** ** Sorted cursors *)

Section sorting.
Context {A : Type} (key : A → Z).

Lemma insert_by_perm x l : insert_by key x l ≡ₚ x :: l.
Proof.
  induction l as [|y l IH]; [done|].
  simpl. destruct (key x <=? key y)%Z; [done|].
  by rewrite IH, Permutation_swap.
Qed.

Lemma sort_by_perm l : sort_by key l ≡ₚ l.
Proof.
  induction l as [|x l IH]; [done|].
  unfold sort_by in *. simpl. by rewrite insert_by_perm, IH.
Qed.

Lemma insert_by_sorted x l :
  Sorted (λ a b, (key a ≤ key b)%Z) l →
  Sorted (λ a b, (key a ≤ key b)%Z) (insert_by key x l).
Proof.
  induction 1 as [|y l Hl IH Hy]; simpl.
  - by repeat constructor.
  - destruct (key x <=? key y)%Z eqn:E.
    + apply Z.leb_le in E. by repeat constructor.
    + apply Z.leb_gt in E. constructor; [done|].
      destruct Hy as [|z l Hz]; simpl.
      * constructor. lia.
      * destruct (key x <=? key z)%Z; constructor; [lia|done].
Qed.

Lemma sort_by_sorted l : Sorted (λ a b, (key a ≤ key b)%Z) (sort_by key l).
Proof.
  induction l as [|x l IH]; [constructor|].
  unfold sort_by in *. simpl. by apply insert_by_sorted.
Qed.

Lemma sort_by_already_sorted l :
  Sorted (λ a b, (key a ≤ key b)%Z) l → sort_by key l = l.
Proof.
  induction 1 as [|y l Hl IH Hy]; [done|].
  unfold sort_by in *. simpl. rewrite IH.
  destruct Hy as [|z l Hz]; [done|]. simpl.
  by rewrite (proj2 (Z.leb_le _ _) Hz).
Qed.
End sorting.

(** ** Reading a justification back *)

Lemma Sorted_weaken {A} (R1 R2 : relation A) l :
  (∀ a b, R1 a b → R2 a b) → Sorted R1 l → Sorted R2 l.
Proof.
  intros HR. induction 1 as [|x l Hl IH Hx]; constructor; [done|].
  destruct Hx; constructor. by apply HR.
Qed.

Lemma get_justification_run jid d jo j :
  ObjectId_parse jid = Some jo →
  stored_justification d jo = Some j →
  get_justification jid d =
    (d, Ok (mkDetail j
              (sort_by (λ t, Z.of_nat (ApprovalTask.step_index t))
                 (filter (λ t, ApprovalTask.justification_id t = jid) (approvaltask d)))
              (sort_by Comment.created_at
                 (filter (λ c, Comment.justification_id c = jid) (comment d)))
              (sort_by AuditLog.timestamp
                 (filter (λ a, AuditLog.entity a = "justification"
                               ∧ AuditLog.entity_id a = jid) (auditlog d))))).
Proof.
  intros Hp Hj. unfold get_justification, stored_justification in *.
  run. rewrite Hp. run. by rewrite Hj.
Qed.

(** [X7] Fetching a stored justification leaves the store as it is and
    answers with that justification, with the tasks that refer to the
    identifier of the call, all of them and only them, in ascending step
    index, with the comments on it in ascending creation time, and with the
    audit entries about it in ascending timestamp. *)
Theorem get_justification_answers_with_sorted_parts jid d jo j :
  ObjectId_parse jid = Some jo →
  stored_justification d jo = Some j →
  ∃ detail,
    get_justification jid d = (d, Ok detail)
    ∧ detail_justification detail = j
    ∧ approval_tasks detail
      ≡ₚ filter (λ t, ApprovalTask.justification_id t = jid) (approvaltask d)
    ∧ Sorted (λ a b, ApprovalTask.step_index a ≤ ApprovalTask.step_index b)%nat
        (approval_tasks detail)
    ∧ comments detail ≡ₚ filter (λ c, Comment.justification_id c = jid) (comment d)
    ∧ Sorted (λ a b, Comment.created_at a ≤ Comment.created_at b)%Z (comments detail)
    ∧ audit detail
      ≡ₚ filter (λ a, AuditLog.entity a = "justification" ∧ AuditLog.entity_id a = jid)
           (auditlog d)
    ∧ Sorted (λ a b, AuditLog.timestamp a ≤ AuditLog.timestamp b)%Z (audit detail).
Proof.
  intros Hp Hj. eexists. split; [by apply (get_justification_run jid d jo j)|].
  cbn [detail_justification approval_tasks comments audit].
  split_and!; [done|apply sort_by_perm| |apply sort_by_perm|apply sort_by_sorted
              |apply sort_by_perm|apply sort_by_sorted].
  eapply Sorted_weaken; [|apply (sort_by_sorted (λ t, Z.of_nat (ApprovalTask.step_index t)))].
  intros a b. simpl. lia.
Qed.

Lemma get_justification_answers_with_sorted_parts_witness :
  ∃ detail,
    get_justification example_jid example_rejected = (example_rejected, Ok detail)
    ∧ detail_justification detail
      = Justification.mk 1 example_payload "Rejected" 7%Z 9%Z
    ∧ approval_tasks detail
      ≡ₚ filter (λ t, ApprovalTask.justification_id t = example_jid)
           (approvaltask example_rejected)
    ∧ Sorted (λ a b, ApprovalTask.step_index a ≤ ApprovalTask.step_index b)%nat
        (approval_tasks detail)
    ∧ comments detail
      ≡ₚ filter (λ c, Comment.justification_id c = example_jid) (comment example_rejected)
    ∧ Sorted (λ a b, Comment.created_at a ≤ Comment.created_at b)%Z (comments detail)
    ∧ audit detail
      ≡ₚ filter (λ a, AuditLog.entity a = "justification"
                      ∧ AuditLog.entity_id a = example_jid)
           (auditlog example_rejected)
    ∧ Sorted (λ a b, AuditLog.timestamp a ≤ AuditLog.timestamp b)%Z (audit detail).
Proof.
  apply (get_justification_answers_with_sorted_parts example_jid example_rejected 1);
    vm_compute; reflexivity.
Defined.

Lemma add_comment_run now jid payload d jo j :
  ObjectId_parse jid = Some jo →
  stored_justification d jo = Some j →
  add_comment now jid payload d =
    (mkDB (justification d) (approvaltask d)
          (comment d ++
             [Comment.mk (next_oid d) jid (CommentCreate.author_email payload)
                (CommentCreate.message payload) (CommentCreate.is_internal payload) now])
          (auditlog d ++
             [comment_audit (N.succ (next_oid d)) now jid payload (next_oid d)])
          (emailoutbox d) (routingrule d) (N.succ (N.succ (next_oid d))),
     Ok (id_response (ObjectId_str (next_oid d)))).
Proof.
  intros Hp Hj. unfold add_comment, stored_justification in *.
  run. rewrite Hp. run. by rewrite Hj.
Qed.

(** [X8] A comment added to a stored justification is answered with the
    identifier under which it is stored, and a fetch of the justification
    right after lists it among the comments, next to those listed before;
    the justification and its tasks are fetched as before, and the audit
    trail has one more entry. *)
Theorem added_comment_is_listed now jid payload d jo j :
  ObjectId_parse jid = Some jo →
  stored_justification d jo = Some j →
  let new := Comment.mk (next_oid d) jid (CommentCreate.author_email payload)
               (CommentCreate.message payload) (CommentCreate.is_internal payload) now in
  ∃ d' before after,
    add_comment now jid payload d = (d', Ok (id_response (ObjectId_str (next_oid d))))
    ∧ get_justification jid d = (d, Ok before)
    ∧ get_justification jid d' = (d', Ok after)
    ∧ comments after ≡ₚ new :: comments before
    ∧ detail_justification after = detail_justification before
    ∧ approval_tasks after = approval_tasks before
    ∧ length (audit after) = S (length (audit before)).
Proof.
  intros Hp Hj new.
  rewrite (add_comment_run now jid payload d jo j Hp Hj).
  rewrite (get_justification_run jid d jo j Hp Hj).
  eexists _, _, _. split; [reflexivity|]. split; [reflexivity|].
  split; [by apply (get_justification_run jid _ jo j)|].
  cbn [comments detail_justification approval_tasks audit comment auditlog approvaltask].
  split_and!; [|done|done|].
  - rewrite !sort_by_perm, filter_app, filter_cons, decide_True by done.
    rewrite filter_nil. by rewrite <- Permutation_cons_append.
  - rewrite !(Permutation_length (sort_by_perm _ _)).
    rewrite filter_app, filter_cons, decide_True by done.
    rewrite filter_nil, length_app. simpl. lia.
Qed.

Lemma added_comment_is_listed_witness :
  let new := Comment.mk (next_oid example_submitted) example_jid "b@x" "which lathe?"
               true 8%Z in
  ∃ d' before after,
    add_comment 8%Z example_jid (CommentCreate.mk "b@x" "which lathe?" true)
      example_submitted
    = (d', Ok (id_response (ObjectId_str (next_oid example_submitted))))
    ∧ get_justification example_jid example_submitted = (example_submitted, Ok before)
    ∧ get_justification example_jid d' = (d', Ok after)
    ∧ comments after ≡ₚ new :: comments before
    ∧ detail_justification after = detail_justification before
    ∧ approval_tasks after = approval_tasks before
    ∧ length (audit after) = S (length (audit before)).
Proof.
  apply (added_comment_is_listed 8%Z example_jid
           (CommentCreate.mk "b@x" "which lathe?" true) example_submitted 1
           (Justification.mk 1 example_payload "PendingApproval" 7%Z 7%Z));
    vm_compute; reflexivity.
Defined.

(** ** The logs of a served store *)

Lemma store_consistent_justification_bound d jo j :
  store_consistent d → stored_justification d jo = Some j → jo < next_oid d.
Proof.
  intros (_ & H1 & _) Hj.
  destruct (head_filter_split Justification._id _ _ _ Hj) as (l1 & l2 & E & _ & <-).
  rewrite Forall_forall in H1. apply (H1 (Justification._id j)).
  unfold justification_ids. apply list_elem_of_fmap_2. rewrite E.
  apply elem_of_app. right. by left.
Qed.

Lemma logs_consistent_grow d d' cs es :
  logs_consistent d → next_oid d ≤ next_oid d' →
  comment d' = comment d ++ cs → auditlog d' = auditlog d ++ es →
  Forall (λ c, refers_below (next_oid d') (Comment.justification_id c)) cs →
  Forall (λ a, refers_below (next_oid d') (AuditLog.entity_id a)) es →
  logs_consistent d'.
Proof.
  intros [Hc Ha] Hn Ec Ee Hcs Hes. unfold logs_consistent. rewrite Ec, Ee.
  assert (Hweak : ∀ s, refers_below (next_oid d) s → refers_below (next_oid d') s).
  { intros s (jo & Hjo & Hs). exists jo. split; [lia|done]. }
  split; apply Forall_app; (split; [|done]);
    (eapply Forall_impl; [eassumption|]); intros ?; apply Hweak.
Qed.

Ltac unchanged Hp :=
  unfold stored_task, stored_justification in *; run; rewrite ?Hp; run;
  match goal with
  | H : head _ = None |- _ => rewrite H
  | _ => idtac
  end;
  reflexivity.

Lemma serve_logs_consistent r d :
  store_consistent d → logs_consistent d → next_oid (serve r d) ≤ oid_bound →
  logs_consistent (serve r d).
Proof.
  intros Hd Hl Hb.
  assert (Hsame : serve r d = d → logs_consistent (serve r d)) by (by intros ->).
  destruct r; cbn [serve] in *.
  - revert Hb. destruct (create_justification_store now payload d)
      as (approvers & logged & mails & n & -> & Hn & Hlogged).
    cbn [next_oid]. intros Hb.
    eapply (logs_consistent_grow d _ [] logged);
      [done|cbn [next_oid]; lia|by rewrite app_nil_r|done|constructor|].
    eapply Forall_impl; [exact Hlogged|]. intros a ->.
    exists (next_oid d). split; [cbn [next_oid]; lia|].
    apply ObjectId_parse_str. unfold oid_bound in *. lia.
  - by rewrite get_justification_same_store.
  - destruct (ObjectId_parse task_id) as [o|] eqn:Hp;
      [|apply Hsame; unfold approve_task; unchanged Hp].
    destruct (stored_task d o) as [t|] eqn:Ht;
      [|apply Hsame; unfold approve_task; unchanged Hp].
    destruct (store_consistent_task d o t Hd Ht) as (jo & j & Hjp & Hj).
    pose proof (store_consistent_justification_bound d jo j Hd Hj) as Hjo.
    rewrite (approve_task_run now task_id action d o t jo j) by done. cbv zeta.
    destruct (decide _); cbn [fst].
    + eapply (logs_consistent_grow d _ [] [_]);
        [done|cbn [next_oid]; lia|by rewrite app_nil_r|done|constructor|].
      apply Forall_singleton. exists jo; split; [cbn [next_oid]; lia|done].
    + eapply (logs_consistent_grow d _ [] [_]);
        [done|cbn [next_oid]; lia|by rewrite app_nil_r|done|constructor|].
      apply Forall_singleton. exists jo; split; [cbn [next_oid]; lia|done].
  - destruct (truthy_opt (ApproverAction.comment action)) eqn:Hc.
    2: { apply Hsame. unfold reject_task. by rewrite Hc. }
    apply truthy_opt_true in Hc as (c & Hc & Hne).
    assert (Hgo : reject_task now task_id action d
                  = (oid ← ObjectId_of task_id;
                     task ← find_one db_approvaltask (λ t, ApprovalTask._id t = oid);
                     match task with
                     | None => mthrow (HTTPException 404 "Task not found")
                     | Some _ => mret ok_response
                     end) d
                  ∨ ∃ o t, ObjectId_parse task_id = Some o ∧ stored_task d o = Some t).
    { destruct (ObjectId_parse task_id) as [o|] eqn:Hp.
      - destruct (stored_task d o) as [t|] eqn:Ht; [right; eauto|].
        left. unfold reject_task. rewrite Hc. cbn [truthy_opt].
        rewrite (proj2 (truthy_true c) Hne). cbn [negb].
        unfold stored_task in Ht. run. rewrite Hp. run. by rewrite Ht.
      - left. unfold reject_task. rewrite Hc. cbn [truthy_opt].
        rewrite (proj2 (truthy_true c) Hne). cbn [negb]. run. by rewrite Hp. }
    destruct Hgo as [Hgo|(o & t & Hp & Ht)].
    { apply Hsame. rewrite Hgo. run.
      destruct (ObjectId_parse task_id); run; [|done].
      by destruct (head _). }
    destruct (store_consistent_task d o t Hd Ht) as (jo & j & Hjp & Hj).
    pose proof (store_consistent_justification_bound d jo j Hd Hj) as Hjo.
    rewrite (reject_task_run now task_id action d c o t jo j) by done. cbn [fst].
    eapply (logs_consistent_grow d _ [] [_]);
      [done|cbn [next_oid]; lia|by rewrite app_nil_r|done|constructor|].
    apply Forall_singleton. exists jo; split; [cbn [next_oid]; lia|done].
  - destruct (ObjectId_parse task_id) as [o|] eqn:Hp;
      [|apply Hsame; unfold request_info; unchanged Hp].
    destruct (stored_task d o) as [t|] eqn:Ht;
      [|apply Hsame; unfold request_info; unchanged Hp].
    destruct (store_consistent_task d o t Hd Ht) as (jo & j & Hjp & Hj).
    pose proof (store_consistent_justification_bound d jo j Hd Hj) as Hjo.
    rewrite (request_info_run now task_id action d o t jo j) by done. cbn [fst].
    eapply (logs_consistent_grow d _ [] [_]);
      [done|cbn [next_oid]; lia|by rewrite app_nil_r|done|constructor|].
    apply Forall_singleton. exists jo; split; [cbn [next_oid]; lia|done].
  - destruct (ObjectId_parse jid) as [o|] eqn:Hp;
      [|apply Hsame; unfold resubmit; unchanged Hp].
    destruct (stored_justification d o) as [j|] eqn:Hj;
      [|apply Hsame; unfold resubmit; unchanged Hp].
    pose proof (store_consistent_justification_bound d o j Hd Hj) as Hjo.
    rewrite (resubmit_run now jid payload d o j) by done. cbn [fst].
    eapply (logs_consistent_grow d _ [] [_]);
      [done|cbn [next_oid]; lia|by rewrite app_nil_r|done|constructor|].
    apply Forall_singleton. exists o; split; [cbn [next_oid]; lia|done].
  - destruct (ObjectId_parse jid) as [o|] eqn:Hp;
      [|apply Hsame; unfold add_comment; unchanged Hp].
    destruct (stored_justification d o) as [j|] eqn:Hj;
      [|apply Hsame; unfold add_comment; unchanged Hp].
    pose proof (store_consistent_justification_bound d o j Hd Hj) as Hjo.
    rewrite (add_comment_run now jid payload d o j) by done. cbn [fst].
    eapply (logs_consistent_grow d _ [_] [_]); [done|cbn [next_oid]; lia|done|done| |];
      apply Forall_singleton; exists o; (split; [cbn [next_oid]; lia|done]).
Qed.

Lemma serve_all_invariants rs : ∀ d,
  store_consistent d → logs_consistent d →
  next_oid (serve_all rs d) ≤ oid_bound →
  store_consistent (serve_all rs d) ∧ logs_consistent (serve_all rs d).
Proof.
  induction rs as [|r rs IH]; intros d Hd Hl Hb; [done|].
  simpl in *.
  assert (Hb' : next_oid (serve r d) ≤ oid_bound).
  { etrans; [apply serve_all_next_oid|exact Hb]. }
  apply IH; [by apply serve_consistent|by apply serve_logs_consistent|done].
Qed.

Lemma logs_consistent_initial rules : logs_consistent (mkDB [] [] [] [] [] rules 0).
Proof. split; constructor. Qed.

Lemma new_tasks_sorted now jid_str approvers : ∀ idx o,
  Sorted (λ a b, (Z.of_nat (ApprovalTask.step_index a)
                  ≤ Z.of_nat (ApprovalTask.step_index b))%Z)
    (new_tasks now jid_str idx o approvers).
Proof.
  induction approvers as [|e l IH]; intros idx o; [constructor|].
  cbn [new_tasks]. constructor; [apply IH|].
  destruct l; cbn [new_tasks]; constructor. simpl. lia.
Qed.

Lemma refers_below_fresh d s :
  next_oid d < oid_bound → refers_below (next_oid d) s → s ≠ ObjectId_str (next_oid d).
Proof.
  intros Hb (jo & Hjo & Hs) ->. rewrite ObjectId_parse_str in Hs by done.
  injection Hs as <-. lia.
Qed.

(** [X9] In a store reached from an empty workflow, a submission can be read
    back at once under the identifier it answers with: the fetch gives the
    justification as submitted, in status [PendingApproval]; its tasks, one
    per resolved approver, in the order of the approvers, with step indices
    0, 1, ... and all [Pending]; no comment; and a single audit entry, the
    [CREATE] entry written by the requester. *)
Theorem submitted_justification_is_fetched rules rs now payload rule :
  let d := serve_all rs (mkDB [] [] [] [] [] rules 0) in
  (select_routing_rule (JustificationCreate.department payload)
     (JustificationCreate.type_code payload)
     (JustificationCreate.cost_estimate payload) d).2 = Ok rule →
  next_oid (create_justification now payload d).1 ≤ oid_bound →
  ∃ d' detail e,
    create_justification now payload d = (d', Ok (id_response (ObjectId_str (next_oid d))))
    ∧ get_justification (ObjectId_str (next_oid d)) d' = (d', Ok detail)
    ∧ detail_justification detail
      = Justification.mk (next_oid d) payload "PendingApproval" now now
    ∧ ApprovalTask.approver_email <$> approval_tasks detail = resolved_approvers rule
    ∧ ApprovalTask.step_index <$> approval_tasks detail
      = seq 0 (length (resolved_approvers rule))
    ∧ Forall (λ t, ApprovalTask.status t = "Pending") (approval_tasks detail)
    ∧ comments detail = []
    ∧ audit detail = [e]
    ∧ AuditLog.action e = "CREATE"
    ∧ AuditLog.actor_email e = JustificationCreate.requester_email payload.
Proof.
  intros d. rewrite select_routing_rule_run. cbn [snd]. intros Hrule Hb.
  assert (Hinit : next_oid d ≤ oid_bound).
  { etrans; [|exact Hb]. apply (serve_next_oid (CreateJustification now payload)). }
  destruct (serve_all_invariants rs _ (store_consistent_initial rules)
              (logs_consistent_initial rules) Hinit) as [Hd [Hlc Hla]].
  fold d in Hd, Hlc, Hla.
  destruct (create_justification_consistent now payload d Hd Hb) as [Hd' _].
  revert Hb Hd'. rewrite (create_justification_run now payload d rule Hrule).
  cbv zeta. cbn [fst next_oid].
  set (approvers := resolved_approvers _).
  set (o := N.succ (next_oid d) + N.of_nat (length approvers)).
  set (o' := match approvers with [] => o | _ :: _ => N.succ o end).
  set (d' := mkDB _ _ _ _ _ _ _). intros Hb Hd'.
  assert (Ho' : N.succ (next_oid d) ≤ o') by (subst o' o; destruct approvers; lia).
  assert (Hlt : next_oid d < oid_bound) by lia.
  set (J := Justification.mk (next_oid d) payload "PendingApproval" now now).
  assert (HJ : stored_justification d' (next_oid d) = Some J).
  { apply (head_filter_unique Justification._id _ J); [apply Hd'|].
    subst d'. cbn [justification]. apply elem_of_app. right. by left. }
  eexists d', _, _. split; [reflexivity|].
  rewrite (get_justification_run _ d' (next_oid d) J (ObjectId_parse_str _ Hlt) HJ).
  split; [reflexivity|]. subst d'.
  cbn [detail_justification approval_tasks comments audit approvaltask comment auditlog].
  assert (Ht : filter (λ t, ApprovalTask.justification_id t = ObjectId_str (next_oid d))
                 (approvaltask d ++
                    new_tasks now (ObjectId_str (next_oid d)) 0 (N.succ (next_oid d)) approvers)
               = new_tasks now (ObjectId_str (next_oid d)) 0 (N.succ (next_oid d)) approvers).
  { rewrite filter_app, (filter_none _ (approvaltask d)).
    - apply filter_all. eapply Forall_impl; [apply new_tasks_pending|].
      by intros t (_ & ? & _).
    - intros t Hin. pose proof (store_consistent_fresh d Hd Hlt) as Hf.
      rewrite Forall_forall in Hf. by apply Hf. }
  rewrite Ht, (sort_by_already_sorted _ _ (new_tasks_sorted _ _ _ _ _)).
  rewrite (filter_none _ (comment d)).
  2: { intros c Hc. rewrite Forall_forall in Hlc. by apply refers_below_fresh, Hlc. }
  rewrite filter_app, (filter_none _ (auditlog d)).
  2: { intros a Ha [_ E]. rewrite Forall_forall in Hla.
       by apply (refers_below_fresh d _ Hlt (Hla a Ha)). }
  rewrite filter_cons, decide_True by done. rewrite filter_nil.
  split_and!; [done|apply new_tasks_approver_email|apply new_tasks_step_index
              | |done|reflexivity|done|done].
  eapply Forall_impl; [apply new_tasks_pending|]. by intros t (? & _).
Qed.

Lemma submitted_justification_is_fetched_witness :
  let d := serve_all [] (mkDB [] [] [] [] [] [example_rule] 0) in
  ∃ d' detail e,
    create_justification 7%Z example_payload d
    = (d', Ok (id_response (ObjectId_str (next_oid d))))
    ∧ get_justification (ObjectId_str (next_oid d)) d' = (d', Ok detail)
    ∧ detail_justification detail
      = Justification.mk (next_oid d) example_payload "PendingApproval" 7%Z 7%Z
    ∧ ApprovalTask.approver_email <$> approval_tasks detail = ["a@x"; "b@x"]
    ∧ ApprovalTask.step_index <$> approval_tasks detail = [0; 1]%nat
    ∧ Forall (λ t, ApprovalTask.status t = "Pending") (approval_tasks detail)
    ∧ comments detail = []
    ∧ audit detail = [e]
    ∧ AuditLog.action e = "CREATE"
    ∧ AuditLog.actor_email e = "req@x".
Proof.
  apply (submitted_justification_is_fetched [example_rule] [] 7%Z example_payload
           (Some example_rule)).
  - vm_compute. reflexivity.
  - vm_compute. discriminate.
Defined.

(** ** Repeating and undoing a decision *)

Section twice.
Context {A K B : Type} `{!EqDecision K} (key : A → K) (proj : A → B).
Context (f g : A → A).
Context (Hf : ∀ x, key (f x) = key x).

Lemma update_first_twice (k : K) (l : list A) :
  (∀ x, proj (g (f x)) = proj (f x)) →
  proj <$> update_first (λ y, key y = k) g (update_first (λ y, key y = k) f l)
  = proj <$> update_first (λ y, key y = k) f l.
Proof.
  intros Hgf. induction l as [|x l IH]; [done|].
  cbn [update_first]. destruct (decide (key x = k)) as [E|E].
  - cbn [update_first]. rewrite decide_True by by rewrite Hf.
    by rewrite !fmap_cons, Hgf.
  - cbn [update_first]. rewrite decide_False by done.
    by rewrite !fmap_cons, IH.
Qed.

Lemma update_first_back (k : K) (l : list A) (x : A) :
  head (filter (λ y, key y = k) l) = Some x →
  proj (g (f x)) = proj x →
  proj <$> update_first (λ y, key y = k) g (update_first (λ y, key y = k) f l)
  = proj <$> l.
Proof.
  intros Hx Hgf.
  destruct (head_filter_split key _ _ _ Hx) as (l1 & l2 & -> & Hl1 & Hk).
  rewrite (update_first_split key f k l1 l2 x) by done.
  rewrite (update_first_split key g k l1 l2 (f x)) by (by rewrite ?Hf).
  by rewrite !fmap_app, !fmap_cons, Hgf.
Qed.
End twice.

Lemma remaining_tasks_by_status jid (l1 l2 : list ApprovalTask.t) :
  (λ t, (ApprovalTask.justification_id t, ApprovalTask.status t)) <$> l1
  = (λ t, (ApprovalTask.justification_id t, ApprovalTask.status t)) <$> l2 →
  remaining_tasks jid l1 = [] ↔ remaining_tasks jid l2 = [].
Proof.
  revert l2. induction l1 as [|x l1 IH]; intros [|y l2] E; try done.
  rewrite !fmap_cons in E. injection E as E1 E2 E3.
  unfold remaining_tasks in *. rewrite !filter_cons, E1, E2.
  destruct (decide _); [done|]. by apply IH.
Qed.

(** [X10] Approving a task a second time succeeds like the first time and
    changes no status: the statuses of all tasks and of all justifications
    are those the first approval left. It is not without effect, though: a
    second audit entry is written and, when the first approval completed the
    justification, the final-approval message is queued once more. *)
Theorem approve_task_again_changes_no_status now1 now2 task_id a1 a2 d o t jo j :
  ObjectId_parse task_id = Some o →
  stored_task d o = Some t →
  ObjectId_parse (ApprovalTask.justification_id t) = Some jo →
  stored_justification d jo = Some j →
  let first := approve_task now1 task_id a1 d in
  let second := approve_task now2 task_id a2 first.1 in
  first.2 = Ok ok_response
  ∧ second.2 = Ok ok_response
  ∧ ApprovalTask.status <$> approvaltask second.1
    = ApprovalTask.status <$> approvaltask first.1
  ∧ Justification.status <$> justification second.1
    = Justification.status <$> justification first.1
  ∧ length (auditlog second.1) = S (length (auditlog first.1))
  ∧ (remaining_tasks (ApprovalTask.justification_id t) (approvaltask first.1) = [] →
     ∃ e, emailoutbox second.1 = emailoutbox first.1 ++ [e]
          ∧ EmailOutbox.subject e = "Final approval").
Proof.
  intros Hp Ht Hjp Hj first second. subst second first.
  destruct (approve_task_step now1 task_id a1 d o t jo j Hp Ht Hjp Hj)
    as (d1 & Hrun1 & Htasks1 & Hto1 & Haudit1 & Hcase1).
  rewrite Hrun1. cbn [fst snd].
  assert (∃ j1, stored_justification d1 jo = Some j1) as [j1 Hj1].
  { destruct (decide _); destruct Hcase1 as [Hc _]; eauto. }
  destruct (approve_task_step now2 task_id a2 d1 o _ jo j1 Hp Hto1 Hjp Hj1)
    as (d2 & Hrun2 & Htasks2 & _ & Haudit2 & Hcase2).
  rewrite Hrun2. cbn [fst snd].
  cbn [ApprovalTask.set_status ApprovalTask.justification_id] in Hcase2.
  assert (Hst : (λ t, (ApprovalTask.justification_id t, ApprovalTask.status t))
                  <$> approvaltask d2
                = (λ t, (ApprovalTask.justification_id t, ApprovalTask.status t))
                  <$> approvaltask d1).
  { rewrite Htasks2, Htasks1. by apply (update_first_twice ApprovalTask._id). }
  pose proof (remaining_tasks_by_status (ApprovalTask.justification_id t) _ _ Hst) as Hrem.
  split_and!; [done|done| | | |].
  - rewrite Htasks2, Htasks1. by apply (update_first_twice ApprovalTask._id).
  - destruct (decide (remaining_tasks _ (approvaltask d2) = [])) as [E2|E2].
    + destruct (decide (remaining_tasks _ (approvaltask d1) = [])) as [E1|E1];
        [|by destruct E1; apply Hrem].
      destruct Hcase1 as [_ _].
      revert Hrun1 Hrun2.
      rewrite (approve_task_run now1 task_id a1 d o t jo j) by done.
      rewrite (approve_task_run now2 task_id a2 d1 o _ jo j1) by done. cbv zeta.
      rewrite <- Htasks1.
      cbn [ApprovalTask.set_status ApprovalTask.justification_id].
      rewrite <- Htasks2.
      rewrite !decide_True by (by rewrite ?E1, ?E2).
      intros [= <-] [= <-]. cbn [justification].
      by apply (update_first_twice Justification._id).
    + destruct Hcase2 as (_ & -> & _). done.
  - rewrite Haudit2, length_app. simpl. lia.
  - intros E1. apply Hrem in E1. rewrite decide_True in Hcase2 by done.
    destruct Hcase2 as [_ ->]. by eexists.
Qed.

Lemma approve_task_again_changes_no_status_witness :
  let first := approve_task 9%Z example_task_a (ApproverAction.mk "a@x" None)
                 example_b_approved in
  let second := approve_task 10%Z example_task_a (ApproverAction.mk "a@x" None) first.1 in
  first.2 = Ok ok_response
  ∧ second.2 = Ok ok_response
  ∧ ApprovalTask.status <$> approvaltask second.1
    = ApprovalTask.status <$> approvaltask first.1
  ∧ Justification.status <$> justification second.1
    = Justification.status <$> justification first.1
  ∧ length (auditlog second.1) = S (length (auditlog first.1))
  ∧ (remaining_tasks example_jid (approvaltask first.1) = [] →
     ∃ e, emailoutbox second.1 = emailoutbox first.1 ++ [e]
          ∧ EmailOutbox.subject e = "Final approval").
Proof.
  apply (approve_task_again_changes_no_status 9%Z 10%Z example_task_a
           (ApproverAction.mk "a@x" None) (ApproverAction.mk "a@x" None)
           example_b_approved 2
           (ApprovalTask.mk 2 example_jid "a@x" 0 "Pending" None 7%Z None) 1
           (Justification.mk 1 example_payload "PendingApproval" 7%Z 7%Z));
    vm_compute; reflexivity.
Defined.

Lemma stored_task_fmap (l : list ApprovalTask.t) o (g : ApprovalTask.t → ApprovalTask.t) :
  (∀ x, ApprovalTask._id (g x) = ApprovalTask._id x) →
  head (filter (λ x, ApprovalTask._id x = o) (g <$> l))
  = g <$> head (filter (λ x, ApprovalTask._id x = o) l).
Proof.
  intros Hg. induction l as [|x l IH]; [done|].
  rewrite fmap_cons, !filter_cons, Hg.
  destruct (decide (ApprovalTask._id x = o)); [reflexivity|exact IH].
Qed.

(** [X11] Asking for more information on a [Pending] task of a
    [PendingApproval] justification and then resubmitting that justification,
    under any text of its identifier: both calls answer; the statuses of all
    justifications are again what they were, and the reason asked stays
    recorded on the task. The statuses of the tasks are again what they were
    when the text of the resubmission is the one stored on the task, which is
    the lower-case text [str] gives; under another text of the same
    identifier the resubmission resets no task, and the task stays
    [NeedsMoreInfo] under a [PendingApproval] justification. No task stored
    under the text of the resubmission was [NeedsMoreInfo] before. *)
Theorem request_info_then_resubmit_restores_statuses
    now1 now2 task_id jid action payload d o t jo j :
  ObjectId_parse task_id = Some o →
  stored_task d o = Some t →
  ObjectId_parse (ApprovalTask.justification_id t) = Some jo →
  stored_justification d jo = Some j →
  ApprovalTask.status t = "Pending" →
  Justification.status j = "PendingApproval" →
  ObjectId_parse jid = Some jo →
  Forall (λ x, ApprovalTask.justification_id x = jid →
               ApprovalTask.status x ≠ "NeedsMoreInfo") (approvaltask d) →
  let asked := request_info now1 task_id action d in
  let back := resubmit now2 jid payload asked.1 in
  asked.2 = Ok ok_response
  ∧ back.2 = Ok ok_response
  ∧ ApprovalTask.status <$> stored_task asked.1 o = Some "NeedsMoreInfo"
  ∧ Justification.status <$> justification back.1
    = Justification.status <$> justification d
  ∧ ApprovalTask.requested_more_info <$> stored_task back.1 o
    = Some (Some (RequestInfoAction.reason action))
  ∧ (jid = ApprovalTask.justification_id t →
     ApprovalTask.status <$> approvaltask back.1 = ApprovalTask.status <$> approvaltask d)
  ∧ (jid ≠ ApprovalTask.justification_id t →
     ApprovalTask.status <$> approvaltask back.1
     = ApprovalTask.status <$> approvaltask asked.1
     ∧ ApprovalTask.status <$> stored_task back.1 o = Some "NeedsMoreInfo").
Proof.
  intros Hp Ht Hjp Hj Hst Hjst Hjid Hnone asked back. subst back asked.
  rewrite (request_info_run now1 task_id action d o t jo j) by done. cbn [fst snd].
  set (d1 := mkDB _ _ _ _ _ _ _).
  assert (Hj1 : stored_justification d1 jo
                = Some (Justification.set_status "NeedsMoreInfo" now1 j)).
  { unfold stored_justification in *. subst d1. cbn [justification].
    by rewrite stored_justification_update, Hj, decide_True. }
  rewrite (resubmit_run now2 jid payload d1 jo _ Hjid Hj1). cbn [fst snd].
  subst d1. cbn [justification approvaltask].
  destruct (stored_task_split d o t
              (ApprovalTask.set_needs_info "NeedsMoreInfo"
                 (RequestInfoAction.reason action) now1) Ht) as (l1 & l2 & E & E').
  assert (Hkeep : ∀ l, Forall (λ x, ApprovalTask.justification_id x = jid →
                                    ApprovalTask.status x ≠ "NeedsMoreInfo") l →
            (ApprovalTask.status
               ∘ (λ x, if decide (ApprovalTask.justification_id x = jid
                                  ∧ ApprovalTask.status x = "NeedsMoreInfo")
                       then ApprovalTask.set_status "Pending" now2 x else x)) <$> l
            = ApprovalTask.status <$> l).
  { intros l Hl. apply Forall_fmap_ext_1. eapply Forall_impl; [exact Hl|].
    intros x Hx. unfold compose. case_decide as Y; [|done].
    destruct (Hx (proj1 Y) (proj2 Y)). }
  assert (Hasked : head (filter (λ x, ApprovalTask._id x = o)
                           (update_first (λ x, ApprovalTask._id x = o)
                              (ApprovalTask.set_needs_info "NeedsMoreInfo"
                                 (RequestInfoAction.reason action) now1) (approvaltask d)))
                   = Some (ApprovalTask.set_needs_info "NeedsMoreInfo"
                             (RequestInfoAction.reason action) now1 t)).
  { unfold stored_task in Ht.
    by rewrite (head_filter_update_first_eq ApprovalTask._id), Ht. }
  assert (Hparts : Forall (λ x, ApprovalTask.justification_id x = jid →
                                ApprovalTask.status x ≠ "NeedsMoreInfo") l1
                   ∧ Forall (λ x, ApprovalTask.justification_id x = jid →
                                  ApprovalTask.status x ≠ "NeedsMoreInfo") l2).
  { rewrite E in Hnone. apply Forall_app in Hnone as [Hn1 Hn2].
    by apply Forall_cons in Hn2 as [_ Hn2]. }
  destruct Hparts as [Hn1 Hn2].
  split_and!; [done|done| | | | |].
  - unfold stored_task. cbn [approvaltask]. by rewrite Hasked.
  - apply (update_first_back Justification._id Justification.status
             (Justification.set_status "NeedsMoreInfo" now1)
             (Justification.set_status "PendingApproval" now2)
             (λ _, eq_refl) jo _ j Hj).
    by rewrite Hjst.
  - unfold stored_task. cbn [approvaltask]. unfold update_all.
    rewrite stored_task_fmap by (intros x; by case_decide).
    rewrite Hasked. cbn [fmap option_fmap option_map]. by case_decide.
  - intros ->. rewrite E', E. unfold update_all.
    rewrite <- list_fmap_compose. rewrite !fmap_app, !fmap_cons.
    rewrite (Hkeep l1 Hn1), (Hkeep l2 Hn2). do 2 f_equal.
    unfold compose. cbn [ApprovalTask.set_needs_info ApprovalTask.justification_id
                          ApprovalTask.status].
    by rewrite decide_True.
  - intros Hne. split.
    + rewrite E'. unfold update_all.
      rewrite <- list_fmap_compose. rewrite !fmap_app, !fmap_cons.
      rewrite (Hkeep l1 Hn1), (Hkeep l2 Hn2). do 2 f_equal.
      unfold compose. cbn [ApprovalTask.set_needs_info ApprovalTask.justification_id
                            ApprovalTask.status].
      rewrite decide_False; [done|]. by intros [? _].
    + unfold stored_task. cbn [approvaltask]. unfold update_all.
      rewrite stored_task_fmap by (intros x; by case_decide).
      rewrite Hasked. cbn [fmap option_fmap option_map ApprovalTask.set_needs_info
                            ApprovalTask.justification_id ApprovalTask.status].
      rewrite decide_False; [done|]. by intros [? _].
Qed.

Lemma request_info_then_resubmit_restores_statuses_witness :
  let asked := request_info 8%Z (ObjectId_str 11) (RequestInfoAction.mk "a@x" "which model?")
                 lettered_submitted in
  let back := resubmit 9%Z "00000000000000000000000A" (ResubmitPayload.mk "req@x" None)
                asked.1 in
  asked.2 = Ok ok_response
  ∧ back.2 = Ok ok_response
  ∧ ApprovalTask.status <$> stored_task asked.1 11 = Some "NeedsMoreInfo"
  ∧ Justification.status <$> justification back.1
    = Justification.status <$> justification lettered_submitted
  ∧ ApprovalTask.requested_more_info <$> stored_task back.1 11
    = Some (Some "which model?")
  ∧ ("00000000000000000000000A" = ObjectId_str 10 →
     ApprovalTask.status <$> approvaltask back.1
     = ApprovalTask.status <$> approvaltask lettered_submitted)
  ∧ ("00000000000000000000000A" ≠ ObjectId_str 10 →
     ApprovalTask.status <$> approvaltask back.1
     = ApprovalTask.status <$> approvaltask asked.1
     ∧ ApprovalTask.status <$> stored_task back.1 11 = Some "NeedsMoreInfo").
Proof.
  apply (request_info_then_resubmit_restores_statuses 8%Z 9%Z (ObjectId_str 11)
           "00000000000000000000000A"
           (RequestInfoAction.mk "a@x" "which model?") (ResubmitPayload.mk "req@x" None)
           lettered_submitted 11
           (ApprovalTask.mk 11 (ObjectId_str 10) "a@x" 0 "Pending" None 7%Z None) 10
           (Justification.mk 10 example_payload "PendingApproval" 7%Z 7%Z));
    try (vm_compute; reflexivity).
  apply (bool_decide_unpack _). vm_compute. exact I.
Defined.

(** ** Listing justifications *)

Lemma list_justifications_run requester_email status d :
  list_justifications requester_email status d
  = (d, Ok (sort_by_desc Justification.created_at
              (filter (justification_matches (list_query requester_email status))
                 (justification d)))).
Proof. reflexivity. Qed.

Lemma list_query_passes requester_email status j :
  justification_matches (list_query requester_email status) j
  ↔ passes requester_email (JustificationCreate.requester_email (Justification.data j))
    ∧ passes status (Justification.status j).
Proof.
  unfold justification_matches, list_query. rewrite Forall_app.
  assert (H : ∀ (k : string) (p : option string) (x : string),
             justification_field k j = Some x →
             Forall (λ kv : string * string, justification_field kv.1 j = Some kv.2)
               (match p with
                | Some e => if truthy e then [(k, e)] else []
                | None => []
                end) ↔ passes p x).
  { intros k p x Hk. destruct p as [e|]; simpl; [|split; [done|constructor]].
    destruct (truthy e) eqn:E.
    - rewrite Forall_singleton. simpl. rewrite Hk. apply truthy_true in E.
      split; [intros [= ->]; by right|by intros [?| ->]].
    - split; [intros _|constructor]. left.
      unfold truthy in E. by apply negb_false_iff, String.eqb_eq in E. }
  by rewrite (H "requester_email" _ _ eq_refl), (H "status" _ _ eq_refl).
Qed.

Lemma Forall_filter_keep {A} (P Q : A → Prop) `{!∀ x, Decision (Q x)} (l : list A) :
  Forall P l → Forall P (filter Q l).
Proof.
  rewrite !Forall_forall. intros Hall x [_ Hx]%list_elem_of_filter. by apply Hall.
Qed.

Lemma sort_by_desc_sorted {A} (key : A → Z) l :
  Sorted (λ a b, (key b ≤ key a)%Z) (sort_by_desc key l).
Proof.
  eapply Sorted_weaken; [|apply (sort_by_sorted (λ x, (- key x)%Z))].
  intros a b. simpl. lia.
Qed.

Lemma sort_by_desc_snoc {A} (key : A → Z) l x :
  Forall (λ y, (key y < key x)%Z) l →
  sort_by_desc key (l ++ [x]) = x :: sort_by_desc key l.
Proof.
  unfold sort_by_desc, sort_by. induction 1 as [|y l Hy _ IH]; [done|].
  simpl. rewrite IH. simpl.
  by rewrite (proj2 (Z.leb_gt _ _)) by lia.
Qed.

(** [X12] Listing justifications never fails and leaves the store as it is.
    It answers with the stored justifications of the requester and in the
    status asked for, each as often as it is stored, the latest created
    first; a parameter that is absent or the empty string does not filter,
    so that an empty requester lists the justifications of everybody. *)
Theorem list_justifications_filters_and_sorts requester_email status d :
  ∃ items,
    list_justifications requester_email status d = (d, Ok items)
    ∧ items ≡ₚ filter (λ j, passes requester_email
                              (JustificationCreate.requester_email (Justification.data j))
                            ∧ passes status (Justification.status j))
                 (justification d)
    ∧ Sorted (λ a b, (Justification.created_at b ≤ Justification.created_at a)%Z) items.
Proof.
  eexists. split; [apply list_justifications_run|]. split.
  - unfold sort_by_desc. rewrite sort_by_perm.
    by rewrite (list_filter_iff _ _ _ (list_query_passes requester_email status)).
  - apply sort_by_desc_sorted.
Qed.

(** [X13] A submission made later than every stored one comes first in the
    next listing when it passes the filters of the listing, in front of
    what the same listing gave before; when it does not pass them the
    listing is the same as before. *)
Theorem submitted_justification_is_listed_first now payload d requester_email status :
  Forall (λ j, (Justification.created_at j < now)%Z) (justification d) →
  let sub := create_justification now payload d in
  let new := Justification.mk (next_oid d) payload "PendingApproval" now now in
  ∃ items,
    list_justifications requester_email status d = (d, Ok items)
    ∧ list_justifications requester_email status sub.1
      = (sub.1,
         Ok (if decide (passes requester_email (JustificationCreate.requester_email payload)
                        ∧ passes status "PendingApproval")
             then new :: items else items)).
Proof.
  intros Hnow sub new. subst sub. eexists. split; [apply list_justifications_run|].
  rewrite list_justifications_run. f_equal. f_equal.
  destruct (create_justification_store now payload d)
    as (approvers & logged & mails & n & -> & _ & _).
  cbn [justification].
  rewrite filter_app, filter_cons, filter_nil.
  destruct (decide (passes _ _ ∧ _)) as [Y|N].
  - rewrite decide_True by (by apply list_query_passes).
    apply sort_by_desc_snoc. by apply Forall_filter_keep.
  - rewrite decide_False by (by rewrite list_query_passes).
    by rewrite app_nil_r.
Qed.

Lemma submitted_justification_is_listed_first_witness :
  let sub := create_justification 9%Z example_payload example_submitted in
  let new := Justification.mk 7 example_payload "PendingApproval" 9%Z 9%Z in
  ∃ items,
    list_justifications (Some "") (Some "PendingApproval") example_submitted
    = (example_submitted, Ok items)
    ∧ list_justifications (Some "") (Some "PendingApproval") sub.1
      = (sub.1,
         Ok (if decide (passes (Some "") (JustificationCreate.requester_email example_payload)
                        ∧ passes (Some "PendingApproval") "PendingApproval")
             then new :: items else items)).
Proof.
  apply (submitted_justification_is_listed_first 9%Z example_payload example_submitted
           (Some "") (Some "PendingApproval")).
  vm_compute. repeat constructor.
Defined.

(** ** The inbox of an approver *)

Lemma setdefault_append_keys t (gs : list group) :
  (setdefault_append t gs).*1
  = if decide (ApprovalTask.justification_id t ∈ gs.*1) then gs.*1
    else gs.*1 ++ [ApprovalTask.justification_id t].
Proof.
  induction gs as [|[jid [t0 arr]] gs IH]; cbn [setdefault_append].
  - rewrite decide_False; [done|apply not_elem_of_nil].
  - rewrite !fmap_cons. cbn [fst].
    destruct (decide (jid = ApprovalTask.justification_id t)) as [->|N]; rewrite fmap_cons.
    + rewrite decide_True; [done|left].
    + cbn [fst]. rewrite IH. destruct (decide (ApprovalTask.justification_id t ∈ gs.*1)) as [Y|Y].
      * rewrite decide_True; [done|by right].
      * rewrite decide_False; [done|]. by intros [E|?]%elem_of_cons.
Qed.

Lemma setdefault_append_groups t (gs : list group) tasks :
  NoDup gs.*1 →
  Forall (λ g : group, g.2.1 :: g.2.2
                       = filter (λ x, ApprovalTask.justification_id x = g.1) tasks) gs →
  (ApprovalTask.justification_id t ∉ gs.*1 →
   filter (λ x, ApprovalTask.justification_id x = ApprovalTask.justification_id t) tasks = []) →
  Forall (λ g : group, g.2.1 :: g.2.2
                       = filter (λ x, ApprovalTask.justification_id x = g.1) (tasks ++ [t]))
    (setdefault_append t gs).
Proof.
  induction gs as [|[jid [t0 arr]] gs IH]; intros Hnd Hall Hnew.
  - simpl. constructor; [|constructor]. simpl.
    rewrite filter_app, Hnew by apply not_elem_of_nil.
    by rewrite filter_cons, decide_True.
  - simpl in *. apply NoDup_cons in Hnd as [Hjid Hnd].
    apply Forall_cons in Hall as [Hhd Hall]. simpl in Hhd.
    destruct (decide (jid = ApprovalTask.justification_id t)) as [->|N].
    + constructor.
      * simpl. rewrite filter_app, <- Hhd, filter_cons, decide_True by done. done.
      * rewrite Forall_forall in Hall. apply Forall_forall. intros g Hg.
        rewrite filter_app, filter_cons, decide_False, filter_nil, app_nil_r; [by apply Hall|].
        intros E. apply Hjid. rewrite E. by apply list_elem_of_fmap_2.
    + constructor.
      * simpl. by rewrite filter_app, filter_cons, decide_False, filter_nil, app_nil_r.
      * apply IH; [done|done|]. intros Hno. apply Hnew.
        by intros [E|?]%elem_of_cons.
Qed.

(** The groups of the inbox: one for each justification referred to, and in
    each the tasks that refer to it, in the order of the cursor. *)
Lemma group_tasks_spec tasks :
  NoDup (group_tasks tasks).*1
  ∧ Forall (λ g : group, g.2.1 :: g.2.2
                         = filter (λ x, ApprovalTask.justification_id x = g.1) tasks)
      (group_tasks tasks)
  ∧ ∀ jid, jid ∈ (group_tasks tasks).*1 ↔ jid ∈ ApprovalTask.justification_id <$> tasks.
Proof.
  induction tasks as [|t tasks (Hnd & Hall & Hkeys)] using rev_ind.
  - split_and!; [constructor|constructor|done].
  - unfold group_tasks in *. rewrite foldl_snoc.
    set (gs := foldl _ [] tasks) in *.
    split_and!.
    + rewrite setdefault_append_keys. case_decide as Y; [done|].
      apply NoDup_app. split_and!; [done| |apply NoDup_singleton].
      intros jid Hjid ->%list_elem_of_singleton. done.
    + apply setdefault_append_groups; [done|done|].
      intros Hno. apply filter_none. intros x Hx E. apply Hno, Hkeys.
      rewrite <- E. by apply list_elem_of_fmap_2.
    + intros jid. rewrite setdefault_append_keys, fmap_app, elem_of_app.
      simpl. rewrite list_elem_of_singleton, <- Hkeys.
      case_decide as Y; [|by rewrite elem_of_app, list_elem_of_singleton].
      split; [by left|]. by intros [?| ->].
Qed.

Lemma next_task_least arr :
  next_task arr ∈ arr.1 :: arr.2
  ∧ Forall (λ t, ApprovalTask.step_index (next_task arr) ≤ ApprovalTask.step_index t)%nat
      (arr.1 :: arr.2).
Proof.
  unfold next_task. set (key := λ x, Z.of_nat (ApprovalTask.step_index x)).
  pose proof (sort_by_perm key (arr.1 :: arr.2)) as Hperm.
  pose proof (sort_by_sorted key (arr.1 :: arr.2)) as Hs.
  destruct (sort_by key (arr.1 :: arr.2)) as [|x s].
  { by apply Permutation_nil_cons in Hperm. }
  simpl. rewrite <- Hperm. split; [left|].
  apply Sorted_StronglySorted in Hs; [|intros a b c; simpl; lia].
  apply StronglySorted_inv in Hs as [_ Hx].
  constructor; [done|]. eapply Forall_impl; [exact Hx|].
  intros y. unfold key. simpl. lia.
Qed.

Lemma inbox_items_run (gs : list group) d :
  inbox_items gs d
  = (d, if decide (Forall (λ g : group, is_Some (ObjectId_parse g.1)) gs)
        then Ok ((λ g : group,
                    mkInboxItem (next_task g.2)
                      (ObjectId_parse g.1 ≫= stored_justification d)) <$> gs)
        else Raise InvalidId).
Proof.
  induction gs as [|[jid arr] gs IH]; [done|].
  cbn [inbox_items]. run. simpl.
  destruct (ObjectId_parse jid) as [o|] eqn:E.
  - run. rewrite IH. destruct (decide (Forall _ gs)) as [Y|N].
    + rewrite decide_True; [|constructor; [by simpl; rewrite E|done]].
      reflexivity.
    + rewrite decide_False; [done|]. by intros [_ ?]%Forall_cons.
  - rewrite decide_False; [done|]. intros [[? H] _]%Forall_cons. simpl in H. congruence.
Qed.

Lemma approver_inbox_run approver_email d :
  let gs := group_tasks (sort_by_desc ApprovalTask.created_at
                           (filter (open_task_of approver_email) (approvaltask d))) in
  approver_inbox approver_email d
  = (d, if decide (Forall (λ g : group, is_Some (ObjectId_parse g.1)) gs)
        then Ok ((λ g : group,
                    mkInboxItem (next_task g.2)
                      (ObjectId_parse g.1 ≫= stored_justification d)) <$> gs)
        else Raise InvalidId).
Proof. cbv zeta. unfold approver_inbox. run. apply inbox_items_run. Qed.

(** What the groups of an inbox hold. *)
Lemma inbox_groups approver_email d :
  let gs := group_tasks (sort_by_desc ApprovalTask.created_at
                           (filter (open_task_of approver_email) (approvaltask d))) in
  NoDup gs.*1
  ∧ Forall (λ g : group,
              next_task g.2 ∈ approvaltask d
              ∧ open_task_of approver_email (next_task g.2)
              ∧ ApprovalTask.justification_id (next_task g.2) = g.1) gs
  ∧ ∀ t, t ∈ approvaltask d → open_task_of approver_email t →
      ∃ g, g ∈ gs ∧ g.1 = ApprovalTask.justification_id t
           ∧ (ApprovalTask.step_index (next_task g.2) ≤ ApprovalTask.step_index t)%nat.
Proof.
  cbv zeta. set (tasks := sort_by_desc _ _).
  assert (Htasks : ∀ t, t ∈ tasks ↔ open_task_of approver_email t ∧ t ∈ approvaltask d).
  { intros t. unfold tasks, sort_by_desc. by rewrite sort_by_perm, list_elem_of_filter. }
  destruct (group_tasks_spec tasks) as (Hnd & Hall & Hkeys).
  split_and!; [done| |].
  - rewrite Forall_forall in Hall. apply Forall_forall. intros g Hg.
    destruct (next_task_least g.2) as [Hin _]. rewrite (Hall g Hg) in Hin.
    apply list_elem_of_filter in Hin as [Hjid Hin]. apply Htasks in Hin as [? ?].
    done.
  - intros t Ht Hopen.
    assert (Hin : t ∈ tasks) by by apply Htasks.
    assert (Hk : ApprovalTask.justification_id t ∈ (group_tasks tasks).*1).
    { apply Hkeys. by apply list_elem_of_fmap_2. }
    apply list_elem_of_fmap in Hk as (g & E & Hg). exists g. split_and!; [done|done|].
    rewrite Forall_forall in Hall. specialize (Hall g Hg).
    destruct (next_task_least g.2) as [_ Hleast]. rewrite Hall in Hleast.
    rewrite Forall_forall in Hleast. apply Hleast.
    apply list_elem_of_filter. by split.
Qed.

Lemma store_consistent_task_justification d t :
  store_consistent d → t ∈ approvaltask d → is_Some (task_justification d t).
Proof.
  intros Hd Ht.
  destruct (store_consistent_task d (ApprovalTask._id t) t Hd) as (jo & j & Hp & Hj).
  { apply stored_task_unique; [by apply store_consistent_task_ids|done]. }
  exists j. unfold task_justification. by rewrite Hp.
Qed.

(** [X14] In a consistent store the inbox of an approver answers, without
    touching the store, with one entry per justification on which the
    approver has an open task (status [Pending] or [NeedsMoreInfo]). The
    task of an entry is a stored open task of the approver, the one of least
    step index among the approver's open tasks on that justification, and
    the entry carries the stored justification the task refers to. Every
    open task of the approver is covered, whatever the state of the steps
    before it. *)
Theorem approver_inbox_lists_open_tasks approver_email d :
  store_consistent d →
  ∃ items,
    approver_inbox approver_email d = (d, Ok items)
    ∧ NoDup ((λ item, ApprovalTask.justification_id (inbox_task item)) <$> items)
    ∧ Forall (λ item,
                inbox_task item ∈ approvaltask d
                ∧ open_task_of approver_email (inbox_task item)
                ∧ is_Some (inbox_justification item)
                ∧ inbox_justification item = task_justification d (inbox_task item)) items
    ∧ ∀ t, t ∈ approvaltask d → open_task_of approver_email t →
        ∃ item, item ∈ items
                ∧ ApprovalTask.justification_id (inbox_task item)
                  = ApprovalTask.justification_id t
                ∧ (ApprovalTask.step_index (inbox_task item)
                   ≤ ApprovalTask.step_index t)%nat.
Proof.
  intros Hd. rewrite approver_inbox_run. cbv zeta.
  destruct (inbox_groups approver_email d) as (Hnd & Hall & Hcover).
  set (gs := group_tasks _) in *.
  assert (Hjust : Forall (λ g : group,
                    ObjectId_parse g.1 ≫= stored_justification d
                    = task_justification d (next_task g.2)
                    ∧ is_Some (task_justification d (next_task g.2))) gs).
  { eapply Forall_impl; [exact Hall|]. intros g (Hin & _ & E). split.
    - unfold task_justification. by rewrite E.
    - by apply store_consistent_task_justification. }
  rewrite decide_True.
  2: { eapply Forall_impl; [exact Hjust|]. intros g [E [j Hj]]. rewrite Hj in E.
       destruct (ObjectId_parse g.1); [done|discriminate]. }
  eexists. split; [done|]. split_and!.
  - rewrite <- list_fmap_compose.
    erewrite list_fmap_ext; [exact Hnd|].
    intros i g Hg. simpl. rewrite Forall_forall in Hall.
    apply list_elem_of_lookup_2 in Hg. by destruct (Hall g Hg) as (_ & _ & ->).
  - apply Forall_fmap. rewrite Forall_forall in Hall, Hjust. apply Forall_forall.
    intros g Hg. simpl. destruct (Hall g Hg) as (? & ? & ?).
    destruct (Hjust g Hg) as [-> ?]. done.
  - intros t Ht Hopen. destruct (Hcover t Ht Hopen) as (g & Hg & E & Hle).
    eexists. split; [by apply list_elem_of_fmap_2|]. simpl.
    rewrite Forall_forall in Hall. destruct (Hall g Hg) as (_ & _ & ->). done.
Qed.

Lemma approver_inbox_lists_open_tasks_witness :
  ∃ items,
    approver_inbox "b@x" example_needs_info = (example_needs_info, Ok items)
    ∧ NoDup ((λ item, ApprovalTask.justification_id (inbox_task item)) <$> items)
    ∧ Forall (λ item,
                inbox_task item ∈ approvaltask example_needs_info
                ∧ open_task_of "b@x" (inbox_task item)
                ∧ is_Some (inbox_justification item)
                ∧ inbox_justification item
                  = task_justification example_needs_info (inbox_task item)) items
    ∧ ∀ t, t ∈ approvaltask example_needs_info → open_task_of "b@x" t →
        ∃ item, item ∈ items
                ∧ ApprovalTask.justification_id (inbox_task item)
                  = ApprovalTask.justification_id t
                ∧ (ApprovalTask.step_index (inbox_task item)
                   ≤ ApprovalTask.step_index t)%nat.
Proof.
  apply (approver_inbox_lists_open_tasks "b@x" example_needs_info).
  consistent_by_computation.
Defined.

(** A reference of 24 characters with blanks between its bytes is read as an
    identifier of fewer than twelve bytes: the inbox answers, and the entry
    carries no justification, also next to the stored justification whose
    identifier has twelve zero bytes. *)
Example approver_inbox_reads_a_blank_padded_reference :
  ObjectId_str <$> ObjectId_parse "00 00 00 00 00 00 00 00 " = Some "0000000000000000"
  ∧ ObjectId_str <$> ObjectId_parse "000000000000000000000000"
    = Some "000000000000000000000000"
  ∧ ObjectId_parse "0000000000000000" = None
  ∧ ObjectId_parse "00 00 00 00 00 00 00 000" = None
  ∧ approver_inbox "a@x" blank_padded_store
    = (blank_padded_store, Ok [mkInboxItem blank_padded_task None]).
Proof. split_and!; vm_compute; reflexivity. Qed.

(** [X15] In any store the inbox of an approver leaves the store as it is,
    and it fails, with [InvalidId], exactly when one of the approver's open
    tasks carries a justification reference that [ObjectId] refuses: a text
    that has not 24 characters, or that is not made of pairs of hexadecimal
    digits with blanks between the pairs only. One such task hides every
    other entry. A reference [ObjectId] accepts, be it 24 digits or a
    shorter byte string padded with blanks, is no failure when no stored
    justification has that identifier; the entry then carries no
    justification. *)
Theorem approver_inbox_fails_on_a_malformed_reference approver_email d :
  let malformed t :=
    open_task_of approver_email t ∧ ObjectId_parse (ApprovalTask.justification_id t) = None in
  (Exists malformed (approvaltask d) ∧
   approver_inbox approver_email d = (d, Raise InvalidId))
  ∨ (Forall (λ t, ¬ malformed t) (approvaltask d) ∧
     ∃ items,
       approver_inbox approver_email d = (d, Ok items)
       ∧ Forall (λ item, inbox_justification item
                         = task_justification d (inbox_task item)) items).
Proof.
  cbv zeta. rewrite approver_inbox_run. cbv zeta.
  destruct (inbox_groups approver_email d) as (Hnd & Hall & Hcover).
  set (gs := group_tasks _) in *.
  destruct (decide (Forall _ gs)) as [Y|N].
  - right. split.
    + apply Forall_forall. intros t Ht [Hopen Hp].
      destruct (Hcover t Ht Hopen) as (g & Hg & E & _).
      rewrite Forall_forall in Y. destruct (Y g Hg) as [o Ho]. congruence.
    + eexists. split; [done|]. apply Forall_fmap.
      eapply Forall_impl; [exact Hall|]. intros g (_ & _ & E). simpl.
      unfold task_justification. by rewrite E.
  - left. split; [|done].
    pose proof (not_Forall_Exists (λ g : group, is_Some (ObjectId_parse g.1)) _ N) as Hex.
    apply Exists_exists in Hex as (g & Hg & Hno).
    rewrite Forall_forall in Hall. destruct (Hall g Hg) as (Hin & Hopen & E).
    apply Exists_exists. exists (next_task g.2). split_and!; [done|done|].
    rewrite E. unfold compose in Hno.
    destruct (ObjectId_parse g.1); [|done]. destruct Hno. by eexists.
Qed.

(** ** The inbox after a request *)

Lemma approver_inbox_answers approver_email d :
  store_consistent d →
  approver_inbox approver_email d
  = (d, Ok ((λ g : group,
               mkInboxItem (next_task g.2) (task_justification d (next_task g.2)))
              <$> group_tasks (sort_by_desc ApprovalTask.created_at
                                 (filter (open_task_of approver_email) (approvaltask d))))).
Proof.
  intros Hd. rewrite approver_inbox_run. cbv zeta.
  destruct (inbox_groups approver_email d) as (_ & Hall & _).
  set (gs := group_tasks _) in *.
  rewrite decide_True.
  - f_equal. f_equal. apply Forall_fmap_ext_1. eapply Forall_impl; [exact Hall|].
    intros g (_ & _ & E). unfold task_justification. by rewrite E.
  - eapply Forall_impl; [exact Hall|]. intros g (Hin & _ & E).
    destruct (store_consistent_task_justification d _ Hd Hin) as [j Hj].
    unfold task_justification in Hj. rewrite E in Hj.
    destruct (ObjectId_parse g.1); [done|discriminate].
Qed.

Lemma inbox_groups_least approver_email d (g : group) t :
  g ∈ group_tasks (sort_by_desc ApprovalTask.created_at
                     (filter (open_task_of approver_email) (approvaltask d))) →
  t ∈ approvaltask d → open_task_of approver_email t →
  ApprovalTask.justification_id t = g.1 →
  (ApprovalTask.step_index (next_task g.2) ≤ ApprovalTask.step_index t)%nat.
Proof.
  set (tasks := sort_by_desc _ _). intros Hg Ht Hopen E.
  destruct (group_tasks_spec tasks) as (_ & Hall & _).
  rewrite Forall_forall in Hall. specialize (Hall g Hg).
  destruct (next_task_least g.2) as [_ Hleast]. rewrite Hall in Hleast.
  rewrite Forall_forall in Hleast. apply Hleast.
  apply list_elem_of_filter. split; [done|].
  unfold tasks, sort_by_desc. rewrite sort_by_perm. by apply list_elem_of_filter.
Qed.

Lemma closed_task_not_listed approver_email d o t :
  store_consistent d → stored_task d o = Some t →
  ApprovalTask.status t ∉ ["Pending"; "NeedsMoreInfo"] →
  ∃ items, approver_inbox approver_email d = (d, Ok items)
           ∧ Forall (λ item, ApprovalTask._id (inbox_task item) ≠ o) items.
Proof.
  intros Hd Ht Hclosed. rewrite (approver_inbox_answers _ _ Hd).
  destruct (inbox_groups approver_email d) as (_ & Hall & _).
  eexists. split; [done|]. apply Forall_fmap. eapply Forall_impl; [exact Hall|].
  intros g (Hin & [_ Hopen] & _) E. simpl in E.
  apply (stored_task_unique d) in Hin; [|by apply store_consistent_task_ids].
  rewrite E, Ht in Hin. by injection Hin as ->.
Qed.

(** [X16] A task that has been approved, or rejected with a reason, is in
    nobody's inbox: once the request has answered, the inbox of any approver
    answers too and none of its entries carries that task. *)
Theorem decided_task_leaves_every_inbox r now task_id action approver_email d o :
  store_consistent d →
  next_oid (serve r d) ≤ oid_bound →
  r = ApproveTask now task_id action ∨ r = RejectTask now task_id action →
  failure r d = None →
  ObjectId_parse task_id = Some o →
  ∃ items,
    approver_inbox approver_email (serve r d) = (serve r d, Ok items)
    ∧ Forall (λ item, ApprovalTask._id (inbox_task item) ≠ o) items.
Proof.
  intros Hd Hb Hr Hok Hp.
  destruct (serve_consistent r d Hd Hb) as [Hd' _].
  assert (∃ t', stored_task (serve r d) o = Some t'
                ∧ ApprovalTask.status t' ∉ ["Pending"; "NeedsMoreInfo"])
    as (t' & Ht' & Hclosed); [|by apply (closed_task_not_listed _ _ o t')].
  destruct (stored_task d o) as [t|] eqn:Ht.
  - destruct (store_consistent_task d o t Hd Ht) as (jo & j & Hjp & Hj).
    destruct Hr as [-> | ->]; cbn [serve failure] in *.
    + destruct (approve_task_step now task_id action d o t jo j Hp Ht Hjp Hj)
        as (d1 & Hrun & _ & Hto & _).
      rewrite Hrun. cbn [fst]. eexists. split; [exact Hto|].
      cbn [ApprovalTask.set_status ApprovalTask.status].
      by apply (bool_decide_unpack _).
    + destruct (ApproverAction.comment action) as [c|] eqn:Hc.
      * destruct (decide (c = "")) as [->|Hne].
        { exfalso. revert Hok. unfold reject_task. by rewrite Hc. }
        rewrite (reject_task_run now task_id action d c o t jo j) by done.
        cbn [fst]. unfold stored_task in *. cbn [approvaltask].
        rewrite (head_filter_update_first_eq ApprovalTask._id), Ht by done.
        eexists. split; [reflexivity|].
        cbn [ApprovalTask.set_status ApprovalTask.status].
        by apply (bool_decide_unpack _).
      * exfalso. revert Hok. unfold reject_task. by rewrite Hc.
  - exfalso. destruct Hr as [-> | ->]; cbn [failure] in Hok; revert Hok.
    + unfold approve_task, stored_task in *. run. rewrite Hp. run. by rewrite Ht.
    + unfold reject_task, stored_task in *. destruct (negb _); [done|].
      run. rewrite Hp. run. by rewrite Ht.
Qed.

Lemma decided_task_leaves_every_inbox_witness :
  let r := RejectTask 8%Z example_task_a (ApproverAction.mk "a@x" (Some "too costly")) in
  ∃ items,
    approver_inbox "a@x" (serve r example_submitted) = (serve r example_submitted, Ok items)
    ∧ Forall (λ item, ApprovalTask._id (inbox_task item) ≠ 2) items.
Proof.
  apply (decided_task_leaves_every_inbox _ 8%Z example_task_a
           (ApproverAction.mk "a@x" (Some "too costly")) "a@x" example_submitted 2).
  - consistent_by_computation.
  - vm_compute. discriminate.
  - right. reflexivity.
  - vm_compute. reflexivity.
  - vm_compute. reflexivity.
Defined.

(** [X17] Asking for more information on a stored task, whatever its status
    was (an approved or rejected task included), puts it among the open
    tasks of its approver: the inbox of that approver then has an entry for
    the justification of the task, at a step no later than that of the task,
    and the justification it shows is in status [NeedsMoreInfo]. *)
Theorem request_info_puts_the_task_in_the_inbox now task_id action d o t :
  store_consistent d →
  next_oid (request_info now task_id action d).1 ≤ oid_bound →
  ObjectId_parse task_id = Some o →
  stored_task d o = Some t →
  let asked := request_info now task_id action d in
  asked.2 = Ok ok_response
  ∧ ∃ items item j,
      approver_inbox (ApprovalTask.approver_email t) asked.1 = (asked.1, Ok items)
      ∧ item ∈ items
      ∧ ApprovalTask.justification_id (inbox_task item) = ApprovalTask.justification_id t
      ∧ (ApprovalTask.step_index (inbox_task item) ≤ ApprovalTask.step_index t)%nat
      ∧ inbox_justification item = Some j
      ∧ Justification.status j = "NeedsMoreInfo".
Proof.
  intros Hd Hb Hp Ht asked. subst asked.
  destruct (store_consistent_task d o t Hd Ht) as (jo & j & Hjp & Hj).
  assert (Hd' : store_consistent (request_info now task_id action d).1).
  { eapply same_skeleton_consistent; [apply request_info_same_skeleton|done|done]. }
  revert Hb Hd'. rewrite (request_info_run now task_id action d o t jo j) by done.
  cbn [fst snd]. set (d1 := mkDB _ _ _ _ _ _ _). intros Hb Hd'.
  split; [done|].
  set (t' := ApprovalTask.set_needs_info "NeedsMoreInfo"
               (RequestInfoAction.reason action) now t).
  assert (Hin : t' ∈ approvaltask d1).
  { destruct (stored_task_split d o t
                (ApprovalTask.set_needs_info "NeedsMoreInfo"
                   (RequestInfoAction.reason action) now) Ht) as (l1 & l2 & _ & E).
    subst d1. cbn [approvaltask]. rewrite E. apply elem_of_app. right. left. }
  assert (Hopen : open_task_of (ApprovalTask.approver_email t) t').
  { split; [done|]. right. left. }
  rewrite (approver_inbox_answers _ _ Hd').
  destruct (inbox_groups (ApprovalTask.approver_email t) d1) as (_ & Hall & Hcover).
  destruct (Hcover t' Hin Hopen) as (g & Hg & E & Hle).
  rewrite Forall_forall in Hall. destruct (Hall g Hg) as (_ & _ & Eg).
  eexists _, _, _. split; [reflexivity|].
  split; [by apply list_elem_of_fmap_2|]. cbn [inbox_task inbox_justification].
  split_and!; [by rewrite Eg, E|exact Hle| |].
  - unfold task_justification. rewrite Eg, E. subst t'.
    cbn [ApprovalTask.set_needs_info ApprovalTask.justification_id].
    rewrite Hjp. simpl.
    unfold stored_justification in *. subst d1. cbn [justification].
    by rewrite stored_justification_update, Hj, decide_True.
  - reflexivity.
Qed.

Lemma request_info_puts_the_task_in_the_inbox_witness :
  let asked := request_info 9%Z example_task_b (RequestInfoAction.mk "b@x" "why?")
                 example_b_approved in
  asked.2 = Ok ok_response
  ∧ ∃ items item j,
      approver_inbox "b@x" asked.1 = (asked.1, Ok items)
      ∧ item ∈ items
      ∧ ApprovalTask.justification_id (inbox_task item) = example_jid
      ∧ (ApprovalTask.step_index (inbox_task item) ≤ 1)%nat
      ∧ inbox_justification item = Some j
      ∧ Justification.status j = "NeedsMoreInfo".
Proof.
  apply (request_info_puts_the_task_in_the_inbox 9%Z example_task_b
           (RequestInfoAction.mk "b@x" "why?") example_b_approved 3
           (ApprovalTask.mk 3 example_jid "b@x" 1 "Approved" None 7%Z (Some 8%Z))).
  - consistent_by_computation.
  - vm_compute. discriminate.
  - vm_compute. reflexivity.
  - vm_compute. reflexivity.
Defined.

Lemma new_tasks_lookup now jid_str approvers : ∀ idx o i,
  new_tasks now jid_str idx o approvers !! i
  = (λ a, ApprovalTask.mk (o + N.of_nat i) jid_str a (idx + i) "Pending" None now None)
      <$> approvers !! i.
Proof.
  induction approvers as [|e l IH]; intros idx o i; [done|].
  destruct i as [|i]; cbn [new_tasks lookup list_lookup].
  - simpl. by rewrite N.add_0_r, Nat.add_0_r.
  - rewrite IH. destruct (l !! i) as [a|]; [|done].
    cbn [fmap option_fmap option_map]. f_equal. f_equal; lia.
Qed.

(** [X18] After a submission in a consistent store, every approver the
    resolver named finds the new justification in their inbox: the inbox
    answers, and it has an entry carrying the justification as submitted and
    a [Pending] task on it, at the first step of the approval chain that
    names this approver, even when earlier steps are still open. *)
Theorem submission_reaches_every_approver now payload d rule a :
  store_consistent d →
  (select_routing_rule (JustificationCreate.department payload)
     (JustificationCreate.type_code payload)
     (JustificationCreate.cost_estimate payload) d).2 = Ok rule →
  let sub := create_justification now payload d in
  next_oid sub.1 ≤ oid_bound →
  a ∈ resolved_approvers rule →
  ∃ items item,
    approver_inbox a sub.1 = (sub.1, Ok items)
    ∧ item ∈ items
    ∧ inbox_justification item
      = Some (Justification.mk (next_oid d) payload "PendingApproval" now now)
    ∧ ApprovalTask.justification_id (inbox_task item) = ObjectId_str (next_oid d)
    ∧ ApprovalTask.status (inbox_task item) = "Pending"
    ∧ resolved_approvers rule !! ApprovalTask.step_index (inbox_task item) = Some a
    ∧ ∀ i, resolved_approvers rule !! i = Some a →
           (ApprovalTask.step_index (inbox_task item) ≤ i)%nat.
Proof.
  intros Hd. rewrite select_routing_rule_run. cbn [snd]. intros Hrule Hb Ha.
  destruct (create_justification_consistent now payload d Hd Hb) as [Hd' _].
  revert Hb Hd' Ha. rewrite (create_justification_run now payload d rule Hrule).
  cbv zeta. cbn [fst next_oid].
  set (approvers := resolved_approvers _).
  set (o := N.succ (next_oid d) + N.of_nat (length approvers)).
  set (o' := match approvers with [] => o | _ :: _ => N.succ o end).
  set (d' := mkDB _ _ _ _ _ _ _). intros Hb Hd' Ha.
  assert (Ho' : N.succ (next_oid d) ≤ o') by (subst o' o; destruct approvers; lia).
  assert (Hlt : next_oid d < oid_bound) by lia.
  set (J := Justification.mk (next_oid d) payload "PendingApproval" now now).
  set (jid_str := ObjectId_str (next_oid d)) in *.
  assert (HJ : stored_justification d' (next_oid d) = Some J).
  { apply (head_filter_unique Justification._id _ J); [apply Hd'|].
    subst d'. cbn [justification]. apply elem_of_app. right. by left. }
  assert (Hnew : ∀ i, approvers !! i = Some a →
            ∃ t, t ∈ approvaltask d' ∧ open_task_of a t
                 ∧ ApprovalTask.justification_id t = jid_str
                 ∧ ApprovalTask.step_index t = i).
  { intros i Hi. eexists. split_and!.
    - subst d'. cbn [approvaltask]. apply elem_of_app. right.
      eapply list_elem_of_lookup_2. rewrite new_tasks_lookup, Hi. reflexivity.
    - split; [done|]. left.
    - done.
    - done. }
  apply list_elem_of_lookup_1 in Ha as [i0 Hi0].
  destruct (Hnew i0 Hi0) as (t0 & Hin0 & Hopen0 & Ejid0 & _).
  rewrite (approver_inbox_answers _ _ Hd').
  destruct (inbox_groups a d') as (_ & Hall & Hcover).
  destruct (Hcover t0 Hin0 Hopen0) as (g & Hg & E & _).
  rewrite Forall_forall in Hall. destruct (Hall g Hg) as (Hnt & [Hemail _] & Eg).
  rewrite Ejid0 in E.
  assert (Hk : ∃ k, approvers !! k = Some a
                    ∧ ApprovalTask.step_index (next_task g.2) = k
                    ∧ ApprovalTask.status (next_task g.2) = "Pending").
  { subst d'. cbn [approvaltask] in Hnt. apply elem_of_app in Hnt as [Hold|Hnt].
    - pose proof (store_consistent_fresh d Hd Hlt) as Hf. rewrite Forall_forall in Hf.
      destruct (Hf _ Hold). by rewrite Eg, E.
    - apply list_elem_of_lookup_1 in Hnt as [k Hk]. rewrite new_tasks_lookup in Hk.
      destruct (approvers !! k) as [a'|] eqn:Ek; [|done]. injection Hk as Hk.
      rewrite <- Hk in Hemail |- *. simpl in Hemail. subst a'. by exists k. }
  destruct Hk as (k & Hka & Hstep & Hpending).
  eexists _, _. split; [reflexivity|].
  split; [by apply list_elem_of_fmap_2|]. cbn [inbox_task inbox_justification].
  split_and!; [|by rewrite Eg|done|by rewrite Hstep|].
  - unfold task_justification. rewrite Eg, E. unfold jid_str.
    rewrite ObjectId_parse_str by done. exact HJ.
  - intros i Hi. destruct (Hnew i Hi) as (t & Hin & Hopen & Ejid & <-).
    apply (inbox_groups_least a d'); [done|done|done|by rewrite Ejid].
Qed.

Lemma submission_reaches_every_approver_witness :
  let sub := create_justification 7%Z example_payload example_store in
  ∃ items item,
    approver_inbox "b@x" sub.1 = (sub.1, Ok items)
    ∧ item ∈ items
    ∧ inbox_justification item
      = Some (Justification.mk 1 example_payload "PendingApproval" 7%Z 7%Z)
    ∧ ApprovalTask.justification_id (inbox_task item) = ObjectId_str 1
    ∧ ApprovalTask.status (inbox_task item) = "Pending"
    ∧ resolved_approvers (Some example_rule) !! ApprovalTask.step_index (inbox_task item)
      = Some "b@x"
    ∧ ∀ i, resolved_approvers (Some example_rule) !! i = Some "b@x" →
           (ApprovalTask.step_index (inbox_task item) ≤ i)%nat.
Proof.
  apply (submission_reaches_every_approver 7%Z example_payload example_store
           (Some example_rule) "b@x").
  - consistent_by_computation.
  - vm_compute. reflexivity.
  - vm_compute. discriminate.
  - vm_compute. repeat constructor.
Defined.

(** ** Documents as dicts *)

Lemma print_date_no_date isoformat v t : print_date isoformat v ≠ VDatetime t.
Proof. by destruct v. Qed.

Lemma serialize_id_lookup isoformat str_datetime str_json doc k :
  serialize_id isoformat str_datetime str_json doc !! k
  = if decide (k = "_id") then None
    else if decide (k = "id") then
      match doc !! "_id" with
      | Some v => Some (VJson (JStr (py_str str_datetime str_json v)))
      | None => print_date isoformat <$> doc !! "id"
      end
    else print_date isoformat <$> doc !! k.
Proof.
  unfold serialize_id. destruct (decide (size doc = 0%nat)) as [E|_].
  - apply map_size_empty_iff in E as ->. rewrite !lookup_empty.
    by repeat case_decide.
  - rewrite lookup_fmap. destruct (doc !! "_id") as [v|] eqn:Hid.
    + destruct (decide (k = "_id")) as [->|N1].
      { by rewrite lookup_insert_ne, lookup_delete_eq. }
      destruct (decide (k = "id")) as [->|N2].
      { by rewrite lookup_insert_eq. }
      by rewrite lookup_insert_ne, lookup_delete_ne.
    + destruct (decide (k = "_id")) as [->|N1]; [by rewrite Hid|].
      by destruct (decide (k = "id")) as [->|N2].
Qed.

(** [X19] What [serialize_id] makes of a document: the key [_id] is gone;
    [id] holds the text of what [_id] held, in place of any [id] the document
    had, and is left alone when there was no [_id]; every other key is kept,
    a date under it replaced by its ISO text; no date is left at the top
    level; and serialising the result again changes nothing. *)
Theorem serialize_id_renames_the_identifier_and_prints_the_dates
    (isoformat str_datetime : datetime → string) (str_json : json → string)
    (doc : gmap string value) :
  let out := serialize_id isoformat str_datetime str_json doc in
  out !! "_id" = None
  ∧ out !! "id" = match doc !! "_id" with
                  | Some v => Some (VJson (JStr (py_str str_datetime str_json v)))
                  | None => print_date isoformat <$> doc !! "id"
                  end
  ∧ (∀ k, k ≠ "_id" → k ≠ "id" → out !! k = print_date isoformat <$> doc !! k)
  ∧ (∀ k t, out !! k ≠ Some (VDatetime t))
  ∧ serialize_id isoformat str_datetime str_json out = out.
Proof.
  intros out.
  assert (Hno : ∀ k t, out !! k ≠ Some (VDatetime t)).
  { intros k t. unfold out. rewrite serialize_id_lookup.
    destruct (decide (k = "_id")); [done|].
    destruct (decide (k = "id")).
    - destruct (doc !! "_id"); [done|]. destruct (doc !! "id"); [|done].
      simpl. intros [= E]. by apply print_date_no_date in E.
    - destruct (doc !! k); [|done]. simpl. intros [= E].
      by apply print_date_no_date in E. }
  assert (Hkeep : ∀ k, print_date isoformat <$> out !! k = out !! k).
  { intros k. specialize (Hno k). destruct (out !! k) as [[]|]; simpl; try done.
    by destruct (Hno t). }
  assert (Hid : out !! "_id" = None).
  { unfold out. by rewrite serialize_id_lookup, decide_True. }
  split_and!; [done| | |done|].
  - unfold out. by rewrite serialize_id_lookup, decide_False, decide_True.
  - intros k N1 N2. unfold out. by rewrite serialize_id_lookup, !decide_False.
  - apply map_eq. intros k. rewrite serialize_id_lookup, Hid, !Hkeep.
    destruct (decide (k = "_id")) as [->|]; [done|].
    by destruct (decide (k = "id")) as [->|].
Qed.

(** ** From submission to final approval, on the worked scenario *)

Lemma submitted_tasks_approved_in_any_order_witness :
  let d1 := (create_justification 7%Z example_payload example_store).1 in
  let calls := [(8%Z, example_task_b, ApproverAction.mk "b@x" None);
                (9%Z, example_task_a, ApproverAction.mk "a@x" None)] in
  ∃ d', approve_seq calls d1 = (d', (λ _, Ok ok_response) <$> calls)
    ∧ Justification.status <$> stored_justification d' 1 = Some "Approved"
    ∧ (∀ t, t ∈ approvaltask d' → ApprovalTask.justification_id t = ObjectId_str 1 →
            ApprovalTask.status t = "Approved").
Proof.
  apply (submitted_tasks_approved_in_any_order 7%Z example_payload example_store
           [(8%Z, example_task_b, ApproverAction.mk "b@x" None);
            (9%Z, example_task_a, ApproverAction.mk "a@x" None)]).
  - consistent_by_computation.
  - vm_compute. discriminate.
  - vm_compute. discriminate.
  - vm_compute. apply perm_swap.
Defined.
